(** * Sentinel OS KVM: protocol parser and service manager

    A shallow embedding of [sentinel-parser-kvm.py] (class
    [KVMProtocolParser]) and [sentinel-service-kvm.py] (class
    [KVMServiceManager]), with the properties of the specification that
    concern them.

    Conventions of the embedding.
    - A Python [str] is a [string] whose characters are read as code points
      below 256 (the Latin-1 repertoire, which is closed under [str.lower]
      and for which [str.isspace] and decimal digits are finite tables).
      Text outside that repertoire is not covered.
    - [bytes] are lists of 8-bit characters.
    - A Python [dict] is an association list in insertion order.
    - Exceptions are values of [exc]; [str(e)] is the carried message, in
      the wording of CPython where it is fixed and abridged where it
      embeds a repr or a count. No property depends on a message.
    - Library calls whose algorithm is not part of the repository
      ([json.loads], [urllib.parse], [re], [psutil], [subprocess], the
      clock) are section variables: every theorem holds for all of them. *)

From Stdlib Require Import String Ascii List ZArith NArith Lia Bool QArith.
Import ListNotations.
Open Scope string_scope.

(** ** Python string primitives *)

Module PyStr.

Definition ord (c : ascii) : N := N_of_ascii c.

(** [str.isspace] on one character: U+0009..U+000D, U+001C..U+0020,
    U+0085 and U+00A0. *)
Definition isspace (c : ascii) : bool :=
  let n := ord c in
  (((9 <=? n) && (n <=? 13)) || ((28 <=? n) && (n <=? 32))
   || (n =? 133) || (n =? 160))%N.

Fixpoint lstrip (s : string) : string :=
  match s with
  | EmptyString => EmptyString
  | String c r => if isspace c then lstrip r else s
  end.

Fixpoint rstrip (s : string) : string :=
  match s with
  | EmptyString => EmptyString
  | String c r =>
      match rstrip r with
      | EmptyString => if isspace c then EmptyString else String c EmptyString
      | r' => String c r'
      end
  end.

(** [s.strip()] *)
Definition strip (s : string) : string := rstrip (lstrip s).

(** [s.startswith(p)] *)
Definition startswith (p s : string) : bool := String.prefix p s.

Fixpoint drop (n : nat) (s : string) : string :=
  match n, s with
  | O, _ => s
  | S _, EmptyString => EmptyString
  | S k, String _ r => drop k r
  end.

(** [s.endswith(p)] *)
Definition endswith (p s : string) : bool :=
  (String.length p <=? String.length s)%nat
  && String.eqb (drop (String.length s - String.length p) s) p.

(** [sub in s] *)
Fixpoint contains (sub s : string) : bool :=
  String.prefix sub s
  || match s with
     | EmptyString => false
     | String _ r => contains sub r
     end.

(** [c in s] for a one-character needle. *)
Fixpoint has_char (c : ascii) (s : string) : bool :=
  match s with
  | EmptyString => false
  | String a r => Ascii.eqb a c || has_char c r
  end.

(** [s.split(c, 1)] as the pair it unpacks to; [None] when [c] does not
    occur (the unpacking [a, b = ...] would raise [ValueError]). *)
Fixpoint split_once (c : ascii) (s : string) : option (string * string) :=
  match s with
  | EmptyString => None
  | String a r =>
      if Ascii.eqb a c then Some (EmptyString, r)
      else match split_once c r with
           | Some (x, y) => Some (String a x, y)
           | None => None
           end
  end.

(** [s.split(c)] for a one-character separator. *)
Fixpoint split_all (c : ascii) (s : string) : list string :=
  match s with
  | EmptyString => [EmptyString]
  | String a r =>
      if Ascii.eqb a c then EmptyString :: split_all c r
      else match split_all c r with
           | h :: t => String a h :: t
           | [] => [String a EmptyString]
           end
  end.

(** [c.join(l)] for a one-character separator. *)
Fixpoint join (c : ascii) (l : list string) : string :=
  match l with
  | [] => EmptyString
  | [x] => x
  | x :: r => x ++ String c (join c r)
  end.

Definition lower_char (c : ascii) : ascii :=
  let n := ord c in
  if (((65 <=? n) && (n <=? 90))
      || ((192 <=? n) && (n <=? 222) && negb (n =? 215)))%N
  then ascii_of_N (n + 32) else c.

(** [s.replace(a, b)] for one-character [a] and [b]. *)
Fixpoint replace_char (a b : ascii) (s : string) : string :=
  match s with
  | EmptyString => EmptyString
  | String c r => String (if Ascii.eqb c a then b else c) (replace_char a b r)
  end.

(** [s.lower()] *)
Fixpoint lower (s : string) : string :=
  match s with
  | EmptyString => EmptyString
  | String c r => String (lower_char c) (lower r)
  end.

Fixpoint drop_last (s : string) : string :=
  match s with
  | EmptyString => EmptyString
  | String c EmptyString => EmptyString
  | String c r => String c (drop_last r)
  end.

(** [s[1:-1]] *)
Definition slice_1_m1 (s : string) : string :=
  match s with
  | EmptyString => EmptyString
  | String _ r => drop_last r
  end.

(** [s.split()]: the maximal runs of characters that are not whitespace. *)
Fixpoint words (s : string) : string * list string :=
  match s with
  | EmptyString => (EmptyString, [])
  | String c r =>
      let '(w, l) := words r in
      if isspace c then
        (EmptyString, match w with EmptyString => l | _ => w :: l end)
      else (String c w, l)
  end.

Definition split_ws (s : string) : list string :=
  let '(w, l) := words s in
  match w with EmptyString => l | _ => w :: l end.

Definition is_digit (c : ascii) : bool :=
  ((48 <=? ord c) && (ord c <=? 57))%N.

Definition digit_val (c : ascii) : N := (ord c - 48)%N.

(** The digit part of a base-10 literal of [int()]: digits, with single
    underscores allowed between digits only. *)
Fixpoint int_digits (s : string) (acc : N) (after_digit : bool) : option N :=
  match s with
  | EmptyString => if after_digit then Some acc else None
  | String c r =>
      if is_digit c then int_digits r (acc * 10 + digit_val c) true
      else if Ascii.eqb c "_" then
             if after_digit then int_digits r acc false else None
           else None
  end.

(** Vocabulary for the properties: a string of decimal digits and its
    value, and a string free of the characters of another. *)
Fixpoint all_digits (s : string) : bool :=
  match s with
  | EmptyString => true
  | String c r => is_digit c && all_digits r
  end.

Fixpoint dec_value_from (acc : N) (s : string) : N :=
  match s with
  | EmptyString => acc
  | String c r => dec_value_from (acc * 10 + digit_val c) r
  end.

Definition dec_value (s : string) : N := dec_value_from 0 s.

Fixpoint free_of (cs s : string) : bool :=
  match cs with
  | EmptyString => true
  | String c r => negb (has_char c s) && free_of r s
  end.

(** What the properties need of a digit, checked over all characters. *)
Definition digit_ok (c : ascii) : bool :=
  implb (is_digit c)
    (negb (isspace c) && negb (Ascii.eqb c "+") && negb (Ascii.eqb c "-")
     && negb (Ascii.eqb c "_") && negb (Ascii.eqb c ":")
     && negb (Ascii.eqb c "@") && negb (Ascii.eqb c "#")
     && negb (Ascii.eqb c "?")).

End PyStr.

(** ** Text beyond Latin-1

    A [str] whose code points all lie below U+0100 is a [string]. Where the
    program builds text from bytes, or converts text to a number, the code
    points themselves are needed. *)

Module Text.
Import PyStr.

(** A [str] as the list of its code points. *)
Definition text := list N.

(** The code points of a Latin-1 string, and the Latin-1 string with given
    code points, if they all lie below U+0100. *)
Definition points (s : string) : text := map ord (list_ascii_of_string s).

Fixpoint narrow (t : text) : option string :=
  match t with
  | [] => Some EmptyString
  | c :: r =>
      if (c <? 256)%N then option_map (String (ascii_of_N c)) (narrow r)
      else None
  end.

(** [c in t] for one code point. *)
Definition has_point (c : N) (t : text) : bool := existsb (N.eqb c) t.

(** [t.split(c, 1)] as the pair it unpacks to. *)
Fixpoint split_point (c : N) (t : text) : option (text * text) :=
  match t with
  | [] => None
  | a :: r =>
      if (a =? c)%N then Some ([], r)
      else match split_point c r with
           | Some (x, y) => Some (a :: x, y)
           | None => None
           end
  end.

Fixpoint starts_with (p t : text) : bool :=
  match p, t with
  | [], _ => true
  | _ :: _, [] => false
  | a :: p', b :: t' => (a =? b)%N && starts_with p' t'
  end.

(** [sub in t] *)
Fixpoint contains_points (sub t : text) : bool :=
  starts_with sub t
  || match t with
     | [] => false
     | _ :: r => contains_points sub r
     end.

(** *** [int(text)]

    CPython first rewrites the text to ASCII: a code point below 127 is
    kept, a Unicode space becomes a blank, a Unicode decimal digit becomes
    its ASCII digit, and anything else ends the conversion with
    [ValueError]. The tables are those of Unicode 14 (CPython 3.11): the
    spaces from U+007F on, and the code point of the digit zero of every
    script, which the digits one to nine follow. *)
Definition wide_spaces : list N :=
  ([133; 160;
   5760; 8192; 8193; 8194; 8195; 8196; 8197; 8198; 8199; 8200; 8201; 8202;
   8232; 8233; 8239; 8287; 12288])%N.

Definition decimal_zeros : list N :=
  ([
   1632; 1776; 1984; 2406; 2534; 2662; 2790; 2918; 3046; 3174; 3302; 3430;
   3558; 3664; 3792; 3872; 4160; 4240; 6112; 6160; 6470; 6608; 6784; 6800;
   6992; 7088; 7232; 7248; 42528; 43216; 43264; 43472; 43504; 43600; 44016;
   65296; 66720; 68912; 69734; 69872; 69942; 70096; 70384; 70736; 70864;
   71248; 71360; 71472; 71904; 72016; 72784; 73040; 73120; 92768; 92864;
   93008; 120782; 120792; 120802; 120812; 120822; 123200; 123632; 125264;
   130032])%N.

Definition is_wide_space (c : N) : bool := existsb (N.eqb c) wide_spaces.

Definition decimal_of (c : N) : option N :=
  match find (fun z => (z <=? c) && (c <? z + 10))%N decimal_zeros with
  | Some z => Some (c - z)%N
  | None => None
  end.

Fixpoint to_ascii (t : text) : option string :=
  match t with
  | [] => Some EmptyString
  | c :: r =>
      if (c <? 127)%N then option_map (String (ascii_of_N c)) (to_ascii r)
      else if is_wide_space c then option_map (String " "%char) (to_ascii r)
      else match decimal_of c with
           | Some d => option_map (String (ascii_of_N (48 + d))) (to_ascii r)
           | None => None
           end
  end.

(** The ASCII text is then read as a base-10 literal: blanks of the C
    locale around it, an optional sign, digits with single underscores
    between them, and at most 4300 digits. *)
Definition c_isspace (c : ascii) : bool :=
  (((9 <=? ord c) && (ord c <=? 13)) || (ord c =? 32))%N.

Fixpoint c_lstrip (s : string) : string :=
  match s with
  | EmptyString => EmptyString
  | String c r => if c_isspace c then c_lstrip r else s
  end.

Fixpoint c_rstrip (s : string) : string :=
  match s with
  | EmptyString => EmptyString
  | String c r =>
      match c_rstrip r with
      | EmptyString => if c_isspace c then EmptyString else String c EmptyString
      | r' => String c r'
      end
  end.

Fixpoint count_digits (s : string) : N :=
  match s with
  | EmptyString => 0%N
  | String c r => ((if is_digit c then 1 else 0) + count_digits r)%N
  end.

Definition max_str_digits : N := 4300%N.

Definition literal (body : string) : option N :=
  if (max_str_digits <? count_digits body)%N then None
  else int_digits body 0 false.

Definition long_from_string (s : string) : option Z :=
  let t := c_rstrip (c_lstrip s) in
  match t with
  | EmptyString => None
  | String c r =>
      if Ascii.eqb c "+" then option_map Z.of_N (literal r)
      else if Ascii.eqb c "-" then
        option_map (fun n => Z.opp (Z.of_N n)) (literal r)
      else option_map Z.of_N (literal t)
  end.

(** [int(t)]; [None] stands for [ValueError]. *)
Definition int_of_text (t : text) : option Z :=
  match to_ascii t with
  | Some s => long_from_string s
  | None => None
  end.

(** [int(s)] for a Latin-1 string. *)
Definition py_int (s : string) : option Z := int_of_text (points s).

(** What the properties need of a digit and of a character, checked over
    all characters. *)
Definition digit_plain (c : ascii) : bool :=
  implb (is_digit c) (negb (c_isspace c) && (ord c <? 127)%N).

Definition point_ok (a : ascii) : bool :=
  (ord a <? 256)%N && Ascii.eqb (ascii_of_N (ord a)) a
  && forallb (fun c => Bool.eqb (ord a =? ord c)%N (Ascii.eqb a c))
       (map ascii_of_nat (seq 0 256)).

End Text.

(** ** Exceptions, values and dictionaries *)

(** The outcome of a call that may raise: [Raise msg] carries [str(e)]. *)
Inductive exc (A : Type) : Type :=
| Ok (a : A)
| Raise (msg : string).
Arguments Ok {A} a.
Arguments Raise {A} msg.

Definition bind {A B} (m : exc A) (f : A -> exc B) : exc B :=
  match m with
  | Ok a => f a
  | Raise e => Raise e
  end.

Declare Scope exc_scope.
Notation "x <- m ;; k" := (bind m (fun x => k))
  (at level 61, m at next level, right associativity) : exc_scope.
Open Scope exc_scope.

(** [try: body except Exception as e: handler(e)] *)
Definition try_except {A} (body : exc A) (handler : string -> A) : A :=
  match body with
  | Ok a => a
  | Raise e => handler e
  end.

#[local] Set Warnings "-register-all".

(** The JSON-like values the parser stores in its result dictionaries. *)
Inductive value : Type :=
| VNone
| VBool (b : bool)
| VInt (z : Z)
| VFloat (q : Q)
| VStr (s : string)
| VList (l : list value)
| VDict (d : list (string * value))
| VText (t : list N).

Definition pydict := list (string * value).

Module Dict.
Section Generic.
Context {V : Type}.

(** [d.get(k)] *)
Fixpoint get (k : string) (d : list (string * V)) : option V :=
  match d with
  | [] => None
  | (k', v) :: r => if String.eqb k' k then Some v else get k r
  end.

(** [k in d] *)
Definition has (k : string) (d : list (string * V)) : bool :=
  match get k d with Some _ => true | None => false end.

(** [d[k] = v]: an existing key keeps its position, a new key goes last. *)
Fixpoint set (k : string) (v : V) (d : list (string * V)) : list (string * V) :=
  match d with
  | [] => [(k, v)]
  | (k', v') :: r =>
      if String.eqb k' k then (k, v) :: r else (k', v') :: set k v r
  end.

(** [d.update(e)] *)
Definition update (d e : list (string * V)) : list (string * V) :=
  fold_left (fun acc kv => set (fst kv) (snd kv) acc) e d.

End Generic.
End Dict.

(** Truth value of an object, as [if x:] and [not x] read it. *)
Definition truthy (v : value) : bool :=
  match v with
  | VNone => false
  | VBool b => b
  | VInt z => negb (Z.eqb z 0)
  | VFloat q => negb (Qeq_bool q 0)
  | VStr s => negb (String.eqb s "")
  | VList l => match l with [] => false | _ => true end
  | VDict d => match d with [] => false | _ => true end
  | VText t => match t with [] => false | _ => true end
  end.

(** A [str] as a value: [VStr] when its code points all lie below U+0100,
    [VText] with the code points otherwise. *)
Definition text_value (t : Text.text) : value :=
  match Text.narrow t with
  | Some s => VStr s
  | None => VText t
  end.

(** The code points of a value that is a [str]. *)
Definition as_text (v : value) : option Text.text :=
  match v with
  | VStr s => Some (Text.points s)
  | VText t => Some t
  | _ => None
  end.

(** [v == s] for a string literal [s]. *)
Definition str_equals (v : value) (s : string) : bool :=
  match v with
  | VStr n => String.eqb n s
  | VText t =>
      match Text.narrow t with
      | Some n => String.eqb n s
      | None => false
      end
  | _ => false
  end.

(** A [dict] of strings as a value. *)
Definition str_dict (d : list (string * string)) : value :=
  VDict (map (fun kv => (fst kv, VStr (snd kv))) d).

(** ** base64 and UTF-8 *)

Definition bytes := list ascii.

Module Base64.
Import PyStr.

Definition alphabet : string :=
  "ABCDEFGHIJKLMNOPQRSTUVWXYZabcdefghijklmnopqrstuvwxyz0123456789+/".

(** [table_b2a_base64] *)
Definition b2a (n : N) : ascii :=
  match String.get (N.to_nat n) alphabet with
  | Some c => c
  | None => "="%char
  end.

(** [table_a2b_base64]: the value of a character of the alphabet. *)
Definition a2b (c : ascii) : option N :=
  let n := ord c in
  if ((65 <=? n) && (n <=? 90))%N then Some (n - 65)%N
  else if ((97 <=? n) && (n <=? 122))%N then Some (n - 71)%N
  else if ((48 <=? n) && (n <=? 57))%N then Some (n + 4)%N
  else if (n =? 43)%N then Some 62%N
  else if (n =? 47)%N then Some 63%N
  else None.

(** The four 6-bit groups of three bytes. *)
Definition sextet1 (x : N) : N := N.shiftr x 2.
Definition sextet2 (x y : N) : N := N.lor (N.shiftl (N.land x 3) 4) (N.shiftr y 4).
Definition sextet3 (y z : N) : N := N.lor (N.shiftl (N.land y 15) 2) (N.shiftr z 6).
Definition sextet4 (z : N) : N := N.land z 63.

(** [base64.b64encode]: three bytes give four characters; a tail of one or
    two bytes is completed with zero bits and padded with [=]. *)
Fixpoint b64encode (b : bytes) : string :=
  match b with
  | [] => EmptyString
  | [x] =>
      String (b2a (sextet1 (ord x)))
        (String (b2a (sextet2 (ord x) 0)) "==")
  | [x; y] =>
      String (b2a (sextet1 (ord x)))
        (String (b2a (sextet2 (ord x) (ord y)))
           (String (b2a (sextet3 (ord y) 0)) "="))
  | x :: y :: z :: r =>
      String (b2a (sextet1 (ord x)))
        (String (b2a (sextet2 (ord x) (ord y)))
           (String (b2a (sextet3 (ord y) (ord z)))
              (String (b2a (sextet4 (ord z))) (b64encode r))))
  end.

Definition byte_of (n : N) : ascii := ascii_of_N (N.land n 255).

(** The loop of [binascii.a2b_base64] in its default, non-strict mode:
    characters outside the alphabet are skipped, a pad sequence that
    completes a quad ends the decoding, and leftover characters are an
    error. *)
Fixpoint a2b_loop (s : string) (quad_pos : nat) (leftchar : N) (pads : nat)
  : exc bytes :=
  match s with
  | EmptyString =>
      match quad_pos with
      | O => Ok []
      | S O => Raise "Invalid base64-encoded string: number of data characters cannot be 1 more than a multiple of 4"
      | _ => Raise "Incorrect padding"
      end
  | String c r =>
      if Ascii.eqb c "="%char then
        if (2 <=? quad_pos)%nat then
          if (4 <=? quad_pos + S pads)%nat then Ok []
          else a2b_loop r quad_pos leftchar (S pads)
        else a2b_loop r quad_pos leftchar pads
      else
        match a2b c with
        | None => a2b_loop r quad_pos leftchar pads
        | Some v =>
            match quad_pos with
            | O => a2b_loop r 1 v 0
            | S O =>
                out <- a2b_loop r 2 (N.land v 15) 0 ;;
                Ok (byte_of (N.lor (N.shiftl leftchar 2) (N.shiftr v 4)) :: out)
            | S (S O) =>
                out <- a2b_loop r 3 (N.land v 3) 0 ;;
                Ok (byte_of (N.lor (N.shiftl leftchar 4) (N.shiftr v 2)) :: out)
            | _ =>
                out <- a2b_loop r 0 0 0 ;;
                Ok (byte_of (N.lor (N.shiftl leftchar 6) v) :: out)
            end
        end
  end.

Fixpoint all_ascii (s : string) : bool :=
  match s with
  | EmptyString => true
  | String c r => (ord c <? 128)%N && all_ascii r
  end.

(** [base64.b64decode(s)] on a [str] argument. *)
Definition b64decode (s : string) : exc bytes :=
  if all_ascii s then a2b_loop s 0 0 0
  else Raise "string argument should contain only ASCII characters".

(** Checks that the properties evaluate over all bytes. *)
Definition all_bytes : list ascii := map ascii_of_nat (seq 0 256).

Definition delimiter (c : ascii) : bool :=
  Ascii.eqb c "#" || Ascii.eqb c "?" || Ascii.eqb c "@".

(** A 6-bit group is encoded by a character of the alphabet that decodes to
    it, is ASCII and is no delimiter of a link. *)
Definition good6 (n : N) : bool :=
  match a2b (b2a n) with
  | Some m => N.eqb m n
  | None => false
  end
  && negb (Ascii.eqb (b2a n) "=")
  && (ord (b2a n) <? 128)%N
  && negb (delimiter (b2a n)).

(** What decoding needs of two adjacent bytes. *)
Definition pair_ok (x y : ascii) : bool :=
  let X := ord x in
  let Y := ord y in
  good6 (sextet1 X) && good6 (sextet2 X Y) && good6 (sextet3 X Y)
  && good6 (sextet4 X)
  && Ascii.eqb (byte_of (N.lor (N.shiftl (sextet1 X) 2) (N.shiftr (sextet2 X Y) 4))) x
  && N.eqb (N.land (sextet2 X Y) 15) (N.shiftr Y 4)
  && Ascii.eqb (byte_of (N.lor (N.shiftl (N.shiftr X 4) 4) (N.shiftr (sextet3 X Y) 2))) x
  && Ascii.eqb (byte_of (N.lor (N.shiftl (N.land (sextet3 X Y) 3) 6) (sextet4 Y))) y.

End Base64.

Module Utf8.
Import PyStr.

(** [s.encode('utf-8')] *)
Fixpoint encode (s : string) : bytes :=
  match s with
  | EmptyString => []
  | String c r =>
      let n := ord c in
      if (n <? 128)%N then c :: encode r
      else ascii_of_N (192 + N.shiftr n 6)
           :: ascii_of_N (128 + N.land n 63) :: encode r
  end.

(** A continuation byte, 0x80 to 0xBF, and the six bits it carries. *)
Definition continuation (y : ascii) : bool :=
  ((128 <=? ord y) && (ord y <? 192))%N.

Definition low6 (y : ascii) : N := (ord y - 128)%N.

(** The second byte that may follow the lead byte [n] of a sequence of
    three or four bytes: the ranges that exclude the overlong forms, the
    surrogates and the code points above U+10FFFF. *)
Definition second_of_three (n : N) (y : ascii) : bool :=
  (if n =? 224 then (160 <=? ord y) && (ord y <? 192)
   else if n =? 237 then (128 <=? ord y) && (ord y <? 160)
   else continuation y)%N.

Definition second_of_four (n : N) (y : ascii) : bool :=
  (if n =? 240 then (144 <=? ord y) && (ord y <? 192)
   else if n =? 244 then (128 <=? ord y) && (ord y <? 144)
   else continuation y)%N.

(** [b.decode('utf-8')], to code points. A byte sequence that is not
    UTF-8 gives [Raise]; the messages are glosses of those of
    [UnicodeDecodeError]. *)
Fixpoint decode (b : bytes) : exc Text.text :=
  match b with
  | [] => Ok []
  | x :: r =>
      let n := ord x in
      if (n <? 128)%N then t <- decode r ;; Ok (n :: t)
      else if ((194 <=? n) && (n <? 224))%N then
        match r with
        | y :: r' =>
            if continuation y then
              t <- decode r' ;; Ok (((n - 192) * 64 + low6 y)%N :: t)
            else Raise "'utf-8' codec can't decode byte: invalid continuation byte"
        | [] => Raise "'utf-8' codec can't decode byte: unexpected end of data"
        end
      else if ((224 <=? n) && (n <? 240))%N then
        match r with
        | y :: z :: r' =>
            if second_of_three n y && continuation z then
              t <- decode r' ;;
              Ok (((n - 224) * 4096 + low6 y * 64 + low6 z)%N :: t)
            else Raise "'utf-8' codec can't decode byte: invalid continuation byte"
        | [y] =>
            if second_of_three n y
            then Raise "'utf-8' codec can't decode byte: unexpected end of data"
            else Raise "'utf-8' codec can't decode byte: invalid continuation byte"
        | [] => Raise "'utf-8' codec can't decode byte: unexpected end of data"
        end
      else if ((240 <=? n) && (n <? 245))%N then
        match r with
        | y :: z :: u :: r' =>
            if second_of_four n y && continuation z && continuation u then
              t <- decode r' ;;
              Ok (((n - 240) * 262144 + low6 y * 4096 + low6 z * 64 + low6 u)%N
                  :: t)
            else Raise "'utf-8' codec can't decode byte: invalid continuation byte"
        | [y; z] =>
            if second_of_four n y && continuation z
            then Raise "'utf-8' codec can't decode byte: unexpected end of data"
            else Raise "'utf-8' codec can't decode byte: invalid continuation byte"
        | [y] =>
            if second_of_four n y
            then Raise "'utf-8' codec can't decode byte: unexpected end of data"
            else Raise "'utf-8' codec can't decode byte: invalid continuation byte"
        | [] => Raise "'utf-8' codec can't decode byte: unexpected end of data"
        end
      else Raise "'utf-8' codec can't decode byte: invalid start byte"
  end.

(** What decoding needs of the encoding of one character. *)
Definition char_ok (c : ascii) : bool :=
  let n := ord c in
  if (n <? 128)%N then true
  else
    let x := ascii_of_N (192 + N.shiftr n 6) in
    let y := ascii_of_N (128 + N.land n 63) in
    negb (ord x <? 128)%N && ((194 <=? ord x) && (ord x <? 224))%N
    && continuation y
    && ((ord x - 192) * 64 + low6 y =? n)%N.

End Utf8.

(** ** The protocol parser ([KVMProtocolParser]) *)

Module Parser.
Import PyStr Text.

Record parser := {
  kvm_resources : pydict;
  supported_protocols : list string
}.

(** [__init__]: a missing or empty resource dictionary is replaced by the
    defaults. *)
Definition init (res : option pydict) : parser :=
  {| kvm_resources :=
       match res with
       | Some (kv :: r) => kv :: r
       | _ => [("cpu_count", VInt 4); ("memory_mb", VInt 2048);
               ("virtio_net", VBool true); ("virtio_queues", VInt 4)]
       end;
     supported_protocols :=
       ["wireguard"; "amneziawg"; "openvpn"; "xray"; "shadowsocks"; "trojan";
        "sing-box"; "hysteria2"; "tor"; "zapret"; "byedpi"; "goodbyedpi"] |}.

(** [d.get(k, default)] *)
Definition get_default {V} (k : string) (d : list (string * V)) (default : V) : V :=
  match Dict.get k d with
  | Some v => v
  | None => default
  end.

(** [min(v, k)] for an integer constant [k]: the first argument is kept
    unless the second is strictly smaller; values that do not compare with
    an [int] raise [TypeError]. *)
Definition py_min (v : value) (k : Z) : exc value :=
  match v with
  | VInt z => Ok (if (k <? z)%Z then VInt k else VInt z)
  | VBool b => Ok (if (k <? (if b then 1 else 0))%Z then VInt k else VBool b)
  | VFloat q => Ok (if Qle_bool q (inject_Z k) then VFloat q else VInt k)
  | _ => Raise "'<' not supported between instances of 'int' and this type"
  end.

(** [key in obj] on a decoded JSON value: key lookup on an object, element
    test on an array, substring test on a string, [TypeError] otherwise. *)
Definition py_in (k : string) (v : value) : exc bool :=
  match v with
  | VDict d => Ok (Dict.has k d)
  | VList l => Ok (existsb (fun x => str_equals x k) l)
  | VStr s => Ok (contains k s)
  | VText t => Ok (contains_points (points k) t)
  | _ => Raise "argument is not iterable"
  end.

Section WithLibraries.

(** [json.loads] *)
Variable json_loads : string -> exc value.
(** [json.loads] on a text with a code point above U+00FF *)
Variable json_loads_wide : text -> exc value.
(** [urllib.parse.unquote] *)
Variable unquote : string -> string.
(** [urllib.parse.parse_qs], in the order of [params.items()] *)
Variable parse_qs : string -> list (string * list string).

(** [_detect_protocol] *)
Definition _detect_protocol (self : parser) (data : string) : string :=
  let data := strip data in
  if startswith "ss://" data then "shadowsocks"
  else if startswith "trojan://" data then "trojan"
  else if startswith "vless://" data || startswith "vmess://" data then "xray"
  else if startswith "wg://" data || startswith "wireguard://" data then "wireguard"
  else if startswith "amnezia://" data then "amneziawg"
  else if startswith "hysteria://" data || startswith "hy2://" data then "hysteria2"
  else if contains "[Interface]" data && contains "[Peer]" data then
    if contains "Jc" data || contains "Jmin" data then "amneziawg"
    else "wireguard"
  else if contains "client" (lower data) && contains "dev tun" (lower data)
  then "openvpn"
  else
    let json_tag :=
      if startswith "{" (strip data) then
        try_except
          (json_data <- json_loads data ;;
           has_out <- py_in "outbounds" json_data ;;
           if has_out then Ok (Some "sing-box")
           else
             has_in <- py_in "inbounds" json_data ;;
             Ok (if has_in then Some "xray" else None))
          (fun _ => None)
      else None in
    match json_tag with
    | Some tag => tag
    | None =>
        if contains "SOCKSPort" data || contains "torrc" (lower data) then "tor"
        else "unknown"
    end.

(** *** WireGuard *)

Definition sdict := list (string * string).

(** The local variables of the INI loop of [_parse_wireguard]. *)
Record wg_state := {
  current_section : option string;
  current_peer : sdict;
  interface : sdict;
  peers : list sdict
}.

Definition wg_init : wg_state :=
  {| current_section := None; current_peer := []; interface := []; peers := [] |}.

Definition nonempty {A} (l : list A) : bool :=
  match l with [] => false | _ => true end.

Definition section_is (st : wg_state) (name : string) : bool :=
  match current_section st with
  | Some s => String.eqb s name
  | None => false
  end.

(** One iteration of [for line in data.split('\n')]. *)
Definition wg_line (st : wg_state) (line : string) : wg_state :=
  let line := strip line in
  if String.eqb line "" || startswith "#" line then st
  else if startswith "[" line && endswith "]" line then
    let sec := slice_1_m1 line in
    if String.eqb sec "Peer" then
      {| current_section := Some sec;
         current_peer := [];
         interface := interface st;
         peers := if nonempty (current_peer st)
                  then peers st ++ [current_peer st] else peers st |}
    else
      {| current_section := Some sec;
         current_peer := current_peer st;
         interface := interface st;
         peers := peers st |}
  else if has_char "=" line then
    match split_once "=" line with
    | Some (key, val) =>
        let key := lower (strip key) in
        let val := strip val in
        if section_is st "Interface" then
          {| current_section := current_section st;
             current_peer := current_peer st;
             interface := Dict.set key val (interface st);
             peers := peers st |}
        else if section_is st "Peer" then
          {| current_section := current_section st;
             current_peer := Dict.set key val (current_peer st);
             interface := interface st;
             peers := peers st |}
        else st
    | None => st
    end
  else st.

Definition wg_loop (lines : list string) : wg_state :=
  fold_left wg_line lines wg_init.

(** The peers once the loop is over: the block still open is appended. *)
Definition wg_final_peers (st : wg_state) : list sdict :=
  if nonempty (current_peer st) then peers st ++ [current_peer st]
  else peers st.

Definition awg_params : list string :=
  ["jc"; "jmin"; "jmax"; "s1"; "s2"; "h1"; "h2"; "h3"; "h4"].

Definition wg_type (iface : sdict) : string :=
  if existsb (fun p => Dict.has p iface) awg_params then "amneziawg"
  else "wireguard".

(** [re.sub(r'^(wg://|wireguard://)', '', url)] *)
Definition strip_wg_scheme (url : string) : string :=
  if startswith "wg://" url then drop 5 url
  else if startswith "wireguard://" url then drop 12 url
  else url.

(** [values[0]] *)
Definition first_value (l : list string) : exc string :=
  match l with
  | v :: _ => Ok v
  | [] => Raise "list index out of range"
  end.

Fixpoint set_query_params (params : list (string * list string)) (iface : sdict)
  : exc sdict :=
  match params with
  | [] => Ok iface
  | (key, values) :: r =>
      v <- first_value values ;;
      set_query_params r (Dict.set (lower key) v iface)
  end.

(** [_parse_wireguard_url] *)
Definition _parse_wireguard_url (self : parser) (url : string) : exc pydict :=
  let url := strip_wg_scheme url in
  let '(url, name) :=
    if has_char "#" url then
      match split_once "#" url with
      | Some (u, n) => (u, Some n)
      | None => (url, None)
      end
    else (url, None) in
  let '(url, query) :=
    if has_char "?" url then
      match split_once "?" url with
      | Some (u, q) => (u, Some q)
      | None => (url, None)
      end
    else (url, None) in
  iface <- match query with
           | Some q => set_query_params (parse_qs q) []
           | None => Ok []
           end ;;
  let '(iface, prs) :=
    if has_char "@" url then
      match split_once "@" url with
      | Some (keys, endpoint) =>
          if has_char "+" keys then
            match split_once "+" keys with
            | Some (private_key, public_key) =>
                (Dict.set "privatekey" private_key iface,
                 [[("publickey", public_key); ("endpoint", endpoint)]])
            | None => (iface, [])
            end
          else (Dict.set "privatekey" keys iface, [[("endpoint", endpoint)]])
      | None => (iface, [])
      end
    else (iface, []) in
  let result :=
    [("type", VStr "wireguard");
     ("interface", str_dict iface);
     ("peers", VList (map str_dict prs));
     ("kvm_optimizations",
      VDict [("multiqueue", VBool true);
             ("rx_queues", get_default "cpu_count" (kvm_resources self) (VInt 4))])] in
  Ok (match name with
      | Some n => Dict.set "name" (VStr n) result
      | None => result
      end).

(** [_parse_wireguard] *)
Definition _parse_wireguard (self : parser) (data : string) : exc pydict :=
  rx <- py_min (get_default "cpu_count" (kvm_resources self) (VInt 4)) 8 ;;
  tx <- py_min (get_default "cpu_count" (kvm_resources self) (VInt 4)) 8 ;;
  if startswith "wg://" data || startswith "wireguard://" data then
    _parse_wireguard_url self data
  else
    let st := wg_loop (split_all "010" data) in
    Ok [("type", VStr (wg_type (interface st)));
        ("interface", str_dict (interface st));
        ("peers", VList (map str_dict (wg_final_peers st)));
        ("kvm_optimizations",
         VDict [("multiqueue", VBool true); ("rx_queues", rx);
                ("tx_queues", tx); ("vhost_net", VBool true)])].

(** [_parse_amneziawg] *)
Definition awg_defaults : sdict :=
  [("jc", "4"); ("jmin", "30"); ("jmax", "50"); ("s1", "120"); ("s2", "150")].

Definition set_missing (iface : pydict) (kv : string * string) : pydict :=
  if Dict.has (fst kv) iface then iface
  else Dict.set (fst kv) (VStr (snd kv)) iface.

Definition _parse_amneziawg (self : parser) (data : string) : exc pydict :=
  result <- _parse_wireguard self data ;;
  let result := Dict.set "type" (VStr "amneziawg") result in
  match Dict.get "interface" result with
  | Some (VDict iface) =>
      Ok (Dict.set "interface" (VDict (fold_left set_missing awg_defaults iface))
            result)
  | _ => Raise "'interface'"
  end.

(** *** Xray: VLESS, VMess, Trojan links and JSON *)

(** What the code reads of the result of [urllib.parse.urlparse]; the
    [port] property raises [ValueError] on a port that is not a number in
    range. *)
Record url := {
  username : option string;
  hostname : option string;
  port : exc (option Z);
  query : string;
  fragment : string
}.

Variable urlparse : string -> exc url.

(** [x or default] on an optional string. *)
Definition or_str (x : option string) (default : string) : string :=
  match x with
  | Some EmptyString | None => default
  | Some s => s
  end.

Definition or_port (x : option Z) (default : Z) : Z :=
  match x with
  | Some 0%Z | None => default
  | Some p => p
  end.

Definition fast_multicore : value :=
  VDict [("tcp_fastopen", VBool true); ("multicore", VBool true)].

(** [params[k][0]] when [k in params] *)
Definition qs_first (k : string) (params : list (string * list string))
  : exc (option string) :=
  match Dict.get k params with
  | Some values => v <- first_value values ;; Ok (Some v)
  | None => Ok None
  end.

(** [_parse_vless_url] *)
Definition _parse_vless_url (self : parser) (u : string) : exc pydict :=
  parsed <- urlparse u ;;
  prt <- port parsed ;;
  let server := or_str (hostname parsed) "" in
  let params := if String.eqb (query parsed) "" then [] else parse_qs (query parsed) in
  ty <- qs_first "type" params ;;
  sec <- qs_first "security" params ;;
  flow <- qs_first "flow" params ;;
  pbk <- qs_first "pbk" params ;;
  sid <- match Dict.get "sid" params with
         | Some values => first_value values
         | None => Ok ""
         end ;;
  sni <- match Dict.get "sni" params with
         | Some values => first_value values
         | None => Ok server
         end ;;
  let stream :=
    [("network", VStr (match ty with Some t => t | None => "tcp" end));
     ("security", VStr (match sec with Some t => t | None => "none" end))] in
  let stream :=
    match pbk with
    | Some k =>
        Dict.set "security" (VStr "reality")
          (Dict.set "reality_settings"
             (VDict [("public_key", VStr k); ("short_id", VStr sid);
                     ("server_name", VStr sni)]) stream)
    | None => stream
    end in
  let result :=
    [("type", VStr "xray"); ("protocol", VStr "vless");
     ("uuid", VStr (or_str (username parsed) ""));
     ("server", VStr server);
     ("port", VInt (or_port prt 443));
     ("flow", VStr (match flow with Some f => f | None => "" end));
     ("encryption", VStr "none");
     ("stream_settings", VDict stream);
     ("kvm_optimizations", fast_multicore)] in
  Ok (if String.eqb (fragment parsed) "" then result
      else Dict.set "name" (VStr (fragment parsed)) result).

(** [_parse_trojan_url] *)
Definition _parse_trojan_url (self : parser) (u : string) : exc pydict :=
  parsed <- urlparse u ;;
  prt <- port parsed ;;
  let params := if String.eqb (query parsed) "" then [] else parse_qs (query parsed) in
  sni <- qs_first "sni" params ;;
  ty <- qs_first "type" params ;;
  let stream := [("security", VStr "tls"); ("network", VStr "tcp")] in
  let stream :=
    match sni with
    | Some n => Dict.set "tls_settings" (VDict [("server_name", VStr n)]) stream
    | None => stream
    end in
  let stream :=
    match ty with
    | Some t => Dict.set "network" (VStr t) stream
    | None => stream
    end in
  let result :=
    [("type", VStr "trojan"); ("protocol", VStr "trojan");
     ("password", VStr (or_str (username parsed) ""));
     ("server", VStr (or_str (hostname parsed) ""));
     ("port", VInt (or_port prt 443));
     ("stream_settings", VDict stream);
     ("kvm_optimizations", fast_multicore)] in
  Ok (if String.eqb (fragment parsed) "" then result
      else Dict.set "name" (VStr (fragment parsed)) result).

(** [obj.get(k, default)] on a decoded JSON value: [AttributeError] unless
    it is an object. *)
Definition json_get (k : string) (obj : value) (default : value) : exc value :=
  match obj with
  | VDict d => Ok (get_default k d default)
  | _ => Raise "object has no attribute 'get'"
  end.

(** [int(v)] *)
Definition int_of_value (v : value) : exc Z :=
  match v with
  | VInt z => Ok z
  | VBool b => Ok (if b then 1 else 0)%Z
  | VFloat q => Ok (Z.quot (Qnum q) (Zpos (Qden q)))
  | VStr s =>
      match py_int s with
      | Some z => Ok z
      | None => Raise ("invalid literal for int() with base 10: " ++ s)
      end
  | VText t =>
      match int_of_text t with
      | Some z => Ok z
      | None => Raise "invalid literal for int() with base 10"
      end
  | _ => Raise "int() argument must be a string, a bytes-like object or a real number"
  end.

(** [json.loads] on a decoded text. *)
Definition json_of_text (t : text) : exc value :=
  match narrow t with
  | Some s => json_loads s
  | None => json_loads_wide t
  end.

(** [len(s)] modulo 4 decides the padding that [_parse_vmess_url] adds. *)
Fixpoint repeat_eq (n : nat) : string :=
  match n with
  | O => EmptyString
  | S k => String "="%char (repeat_eq k)
  end.

Definition pad4 (s : string) : string :=
  s ++ repeat_eq ((4 - String.length s mod 4) mod 4).

(** [_parse_vmess_url] *)
Definition _parse_vmess_url (self : parser) (u : string) : pydict :=
  let b64_part := drop 8 u in
  try_except
    (let b64_part := pad4 b64_part in
     raw <- Base64.b64decode b64_part ;;
     json_str <- Utf8.decode raw ;;
     vmess <- json_of_text json_str ;;
     uuid <- json_get "id" vmess (VStr "") ;;
     server <- json_get "add" vmess (VStr "") ;;
     prt <- json_get "port" vmess (VInt 443) ;;
     prt <- int_of_value prt ;;
     aid <- json_get "aid" vmess (VInt 0) ;;
     aid <- int_of_value aid ;;
     net <- json_get "net" vmess (VStr "tcp") ;;
     tls <- json_get "tls" vmess (VStr "none") ;;
     has_path <- py_in "path" vmess ;;
     let stream := [("network", net); ("security", tls)] in
     stream <-
       (if has_path && str_equals net "ws"
        then
          path <- json_get "path" vmess VNone ;;
          host <- json_get "host" vmess (VStr "") ;;
          Ok (Dict.set "ws_settings" (VDict [("path", path); ("host", host)]) stream)
        else Ok stream) ;;
     Ok [("type", VStr "xray"); ("protocol", VStr "vmess");
         ("uuid", uuid); ("server", server);
         ("port", VInt prt); ("aid", VInt aid);
         ("stream_settings", VDict stream);
         ("kvm_optimizations", fast_multicore)])
    (fun e =>
       [("type", VStr "xray"); ("protocol", VStr "vmess");
        ("error", VStr e); ("kvm_optimizations", VDict [])]).

(** [seq[0]] on a decoded JSON value that tested true. *)
Definition first_item (v : value) : exc value :=
  match v with
  | VList (x :: _) => Ok x
  | VStr (String c _) => Ok (VStr (String c EmptyString))
  | VText (c :: _) => Ok (text_value [c])
  | VDict _ => Raise "0"
  | _ => Raise "object is not subscriptable"
  end.

(** [_parse_xray_json] *)
Definition _parse_xray_json (self : parser) (config : value) : exc pydict :=
  inb <- json_get "inbounds" config (VList []) ;;
  outb <- json_get "outbounds" config (VList []) ;;
  let result :=
    [("type", VStr "xray"); ("protocol", VStr "xray");
     ("inbounds", inb); ("outbounds", outb);
     ("kvm_optimizations",
      VDict [("tcp_fastopen", VBool true); ("multicore", VBool true);
             ("sniffing", VBool true)])] in
  if truthy outb then
    outbound <- first_item outb ;;
    proto <- json_get "protocol" outbound (VStr "xray") ;;
    settings <- json_get "settings" outbound (VDict []) ;;
    let result := Dict.set "settings" settings (Dict.set "protocol" proto result) in
    has_stream <- py_in "streamSettings" outbound ;;
    if has_stream then
      st <- json_get "streamSettings" outbound VNone ;;
      Ok (Dict.set "stream_settings" st result)
    else Ok result
  else Ok result.

(** [_parse_xray] *)
Definition _parse_xray (self : parser) (data : string) : exc pydict :=
  let from_json :=
    if startswith "{" (strip data) then
      try_except
        (json_config <- json_loads data ;;
         r <- _parse_xray_json self json_config ;;
         Ok (Some r))
        (fun _ => None)
    else None in
  match from_json with
  | Some r => Ok r
  | None =>
      if startswith "vless://" data then _parse_vless_url self data
      else if startswith "vmess://" data then Ok (_parse_vmess_url self data)
      else if startswith "trojan://" data then _parse_trojan_url self data
      else
        Ok [("type", VStr "xray"); ("protocol", VNone);
            ("settings", VDict []); ("stream_settings", VDict []);
            ("kvm_optimizations",
             VDict [("tcp_fastopen", VBool true); ("bbr_congestion", VBool true);
                    ("multicore", VBool true); ("sniffing", VBool true)])]
  end.

(** *** Shadowsocks *)

Definition str_or_none (x : option string) : value :=
  match x with
  | Some s => VStr s
  | None => VNone
  end.

(** The authority part of an [ss://] link: the base64 reading is tried
    first; the plain [method:password] reading is used only when decoding
    raised. *)
Definition ss_auth (auth_part : string) : option (value * value) :=
  try_except
    (raw <- Base64.b64decode auth_part ;;
     decoded <- Utf8.decode raw ;;
     Ok (if has_point 58 decoded then
           match split_point 58 decoded with
           | Some (method, password) =>
               Some (text_value method, text_value password)
           | None => None
           end
         else None))
    (fun _ =>
       if has_char ":" auth_part then
         match split_once ":" auth_part with
         | Some (method, password) => Some (VStr method, VStr password)
         | None => None
         end
       else None).

(** [_parse_shadowsocks] *)
Definition _parse_shadowsocks (self : parser) (data : string) : exc pydict :=
  let data := if startswith "ss://" data then drop 5 data else data in
  let '(data, name) :=
    if has_char "#" data then
      match split_once "#" data with
      | Some (d, n) => (d, Some (unquote n))
      | None => (data, None)
      end
    else (data, None) in
  let '(data, query) :=
    if has_char "?" data then
      match split_once "?" data with
      | Some (d, q) => (d, Some q)
      | None => (data, None)
      end
    else (data, None) in
  plugin <- match query with
            | Some q => qs_first "plugin" (parse_qs q)
            | None => Ok None
            end ;;
  let '(auth, server, prt, error) :=
    if has_char "@" data then
      match split_once "@" data with
      | Some (auth_part, server_part) =>
          let auth := ss_auth auth_part in
          if has_char ":" server_part then
            match split_once ":" server_part with
            | Some (host, port_str) =>
                match py_int port_str with
                | Some p => (auth, Some host, Some p, None)
                | None =>
                    (auth, Some host, None,
                     Some ("invalid literal for int() with base 10: " ++ port_str))
                end
            | None => (auth, None, None, None)
            end
          else (auth, None, None, None)
      | None => (None, None, None, None)
      end
    else (None, None, None, None) in
  let result :=
    [("type", VStr "shadowsocks");
     ("method", match auth with Some (method, _) => method | None => VNone end);
     ("password", match auth with Some (_, password) => password | None => VNone end);
     ("server", str_or_none server);
     ("port", match prt with Some p => VInt p | None => VNone end);
     ("plugin", str_or_none plugin);
     ("kvm_optimizations",
      VDict [("tcp_fastopen", VBool true); ("reuse_port", VBool true)])] in
  let result :=
    match name with
    | Some n => Dict.set "name" (VStr n) result
    | None => result
    end in
  Ok (match error with
      | Some e => Dict.set "error" (VStr e) result
      | None => result
      end).

(** *** Trojan *)

(** [_parse_trojan] *)
Definition _parse_trojan (self : parser) (data : string) : exc pydict :=
  if startswith "trojan://" data then _parse_trojan_url self data
  else
    Ok (try_except
          (json_config <- json_loads data ;;
           Ok [("type", VStr "trojan"); ("protocol", VStr "trojan");
               ("config", json_config);
               ("kvm_optimizations", fast_multicore)])
          (fun _ =>
             [("type", VStr "trojan"); ("error", VStr "Invalid format");
              ("kvm_optimizations", VDict [])])).

(** *** Hysteria2 *)

(** [re.sub(r'^(hysteria://|hy2://)', '', data)] *)
Definition strip_hy_scheme (data : string) : string :=
  if startswith "hysteria://" data then drop 11 data
  else if startswith "hy2://" data then drop 6 data
  else data.

Definition int_of_str (s : string) : exc Z :=
  match py_int s with
  | Some z => Ok z
  | None => Raise ("invalid literal for int() with base 10: " ++ s)
  end.

Definition set_opt (k : string) (v : option value) (d : pydict) : pydict :=
  match v with
  | Some x => Dict.set k x d
  | None => d
  end.

(** [_parse_hysteria2] *)
Definition _parse_hysteria2 (self : parser) (data : string) : exc pydict :=
  let result :=
    [("type", VStr "hysteria2"); ("protocol", VStr "hysteria2");
     ("kvm_optimizations",
      VDict [("quic", VBool true); ("bbr", VBool true); ("fast_open", VBool true)])] in
  if startswith "hysteria://" data || startswith "hy2://" data then
    let data := strip_hy_scheme data in
    if has_char "?" data then
      match split_once "?" data with
      | Some (address, q) =>
          let params := parse_qs q in
          result <-
            (if has_char ":" address then
               match split_once ":" address with
               | Some (host, port_str) =>
                   p <- int_of_str port_str ;;
                   Ok (Dict.set "port" (VInt p) (Dict.set "server" (VStr host) result))
               | None => Ok result
               end
             else
               Ok (Dict.set "port" (VInt 443) (Dict.set "server" (VStr address) result))) ;;
          auth <- qs_first "auth" params ;;
          let result := set_opt "auth" (option_map VStr auth) result in
          up <- qs_first "up" params ;;
          up <- match up with
                | Some u => z <- int_of_str u ;; Ok (Some (VInt z))
                | None => Ok None
                end ;;
          let result := set_opt "up_mbps" up result in
          down <- qs_first "down" params ;;
          down <- match down with
                  | Some u => z <- int_of_str u ;; Ok (Some (VInt z))
                  | None => Ok None
                  end ;;
          Ok (set_opt "down_mbps" down result)
      | None => Ok result
      end
    else Ok result
  else
    Ok (try_except
          (json_config <- json_loads data ;;
           Ok (Dict.set "config" json_config result))
          (fun _ => result)).

(** *** Tor *)

Definition tor_line (settings : sdict) (line : string) : sdict :=
  let line := strip line in
  if String.eqb line "" || startswith "#" line then settings
  else if has_char " " line then
    match split_once " " line with
    | Some (key, val) => Dict.set (lower key) (strip val) settings
    | None => settings
    end
  else settings.

(** [_parse_tor] *)
Definition _parse_tor (self : parser) (data : string) : exc pydict :=
  cpus <- py_min (get_default "cpu_count" (kvm_resources self) (VInt 4)) 2 ;;
  let settings := fold_left tor_line (split_all "010" data) [] in
  let settings :=
    if Dict.has "SOCKSPort" settings then settings
    else Dict.set "SOCKSPort" "9050" settings in
  let settings :=
    if Dict.has "ControlPort" settings then settings
    else Dict.set "ControlPort" "9051" settings in
  Ok [("type", VStr "tor"); ("protocol", VStr "tor");
      ("settings", str_dict settings);
      ("kvm_optimizations", VDict [("num_cpus", cpus); ("max_mem", VInt 512)])].

(** *** OpenVPN *)

(** [d[k].append(v)] *)
Definition list_append (k : string) (v : value) (d : pydict) : exc pydict :=
  match Dict.get k d with
  | Some (VList l) => Ok (Dict.set k (VList (l ++ [v])) d)
  | Some _ => Raise "object has no attribute 'append'"
  | None => Raise k
  end.

(** [d[k][k2] = v] *)
Definition sub_set (k k2 : string) (v : value) (d : pydict) : exc pydict :=
  match Dict.get k d with
  | Some (VDict e) => Ok (Dict.set k (VDict (Dict.set k2 v e)) d)
  | Some _ => Raise "object does not support item assignment"
  | None => Raise k
  end.

Record ovpn_state := {
  current_inline : option string;
  inline_content : list string;
  ovpn_result : pydict
}.

Definition inline_open (st : ovpn_state) : bool :=
  match current_inline st with
  | Some (String _ _) => true
  | _ => false
  end.

(** [parts[1] if len(parts) > 1 else default] *)
Definition second_or (parts : list string) (default : string) : string :=
  match parts with
  | _ :: x :: _ => x
  | _ => default
  end.

Definition ovpn_directive (parts : list string) (result : pydict) : exc pydict :=
  match parts with
  | [] => Ok result
  | d :: args =>
      let directive := lower d in
      if String.eqb directive "remote" then
        match args with
        | server :: more =>
            prt <- match more with
                   | p :: _ => int_of_str p
                   | [] => Ok 1194%Z
                   end ;;
            let proto := match more with _ :: pr :: _ => pr | _ => "udp" end in
            list_append "remote"
              (VDict [("server", VStr server); ("port", VInt prt);
                      ("proto", VStr proto)]) result
        | [] => Ok result
        end
      else if String.eqb directive "proto" then
        Ok (Dict.set "proto" (VStr (second_or parts "udp")) result)
      else if String.eqb directive "dev" then
        Ok (Dict.set "dev" (VStr (second_or parts "tun")) result)
      else if String.eqb directive "cipher" then
        Ok (Dict.set "cipher" (VStr (second_or parts "AES-256-GCM")) result)
      else if String.eqb directive "auth" then
        Ok (Dict.set "auth" (VStr (second_or parts "SHA512")) result)
      else if String.eqb directive "auth-user-pass" then
        result <- sub_set "auth" "user_pass" (VBool true) result ;;
        match args with
        | f :: _ => sub_set "auth" "auth_file" (VStr f) result
        | [] => Ok result
        end
      else Ok result
  end.

Definition ovpn_line (st : ovpn_state) (line : string) : exc ovpn_state :=
  let line := strip line in
  if String.eqb line "" || startswith "#" line then Ok st
  else if startswith "<" line && endswith ">" line then
    Ok {| current_inline := Some (slice_1_m1 line);
          inline_content := [];
          ovpn_result := ovpn_result st |}
  else if startswith "</" line && endswith ">" line then
    match current_inline st with
    | Some (String c r) =>
        result <- sub_set "inline_keys" (lower (String c r))
                    (VStr (join "010" (inline_content st))) (ovpn_result st) ;;
        Ok {| current_inline := None;
              inline_content := inline_content st;
              ovpn_result := result |}
    | _ => Ok st
    end
  else if inline_open st then
    Ok {| current_inline := current_inline st;
          inline_content := inline_content st ++ [line];
          ovpn_result := ovpn_result st |}
  else
    result <- ovpn_directive (split_ws line) (ovpn_result st) ;;
    Ok {| current_inline := current_inline st;
          inline_content := inline_content st;
          ovpn_result := result |}.

Fixpoint ovpn_loop (lines : list string) (st : ovpn_state) : exc ovpn_state :=
  match lines with
  | [] => Ok st
  | l :: r => st' <- ovpn_line st l ;; ovpn_loop r st'
  end.

(** [_parse_openvpn] *)
Definition _parse_openvpn (self : parser) (data : string) : exc pydict :=
  let result :=
    [("type", VStr "openvpn"); ("mode", VStr "client");
     ("remote", VList []); ("auth", VDict []); ("tls", VDict []);
     ("inline_keys", VDict []);
     ("kvm_optimizations",
      VDict [("tun_queue", get_default "virtio_queues" (kvm_resources self) (VInt 4));
             ("tcp_fastopen", VBool true)])] in
  st <- ovpn_loop (split_all "010" data)
          {| current_inline := None; inline_content := []; ovpn_result := result |} ;;
  Ok (ovpn_result st).

(** *** sing-box *)

(** [for x in v] over a decoded JSON value. *)
Definition iter_value (v : value) : exc (list value) :=
  match v with
  | VList l => Ok l
  | VDict d => Ok (map (fun kv => VStr (fst kv)) d)
  | VStr s => Ok (map (fun c => VStr (String c EmptyString)) (list_ascii_of_string s))
  | VText t => Ok (map (fun c => text_value [c]) t)
  | _ => Raise "object is not iterable"
  end.

(** [v[k]] for a string key. *)
Definition json_item (k : string) (v : value) : exc value :=
  match v with
  | VDict d =>
      match Dict.get k d with
      | Some x => Ok x
      | None => Raise k
      end
  | VList _ | VStr _ | VText _ => Raise "indices must be integers"
  | _ => Raise "object is not subscriptable"
  end.

(** [len(v)] *)
Definition json_len (v : value) : exc Z :=
  match v with
  | VList l => Ok (Z.of_nat (List.length l))
  | VDict d => Ok (Z.of_nat (List.length d))
  | VStr s => Ok (Z.of_nat (String.length s))
  | VText t => Ok (Z.of_nat (List.length t))
  | _ => Raise "object has no len()"
  end.

Definition outbound_info (outbound : value) : exc value :=
  ty <- json_get "type" outbound VNone ;;
  tag <- json_get "tag" outbound VNone ;;
  let info := [("type", ty); ("tag", tag)] in
  has_server <- py_in "server" outbound ;;
  info <- (if has_server then
             sv <- json_item "server" outbound ;; Ok (Dict.set "server" sv info)
           else Ok info) ;;
  has_port <- py_in "server_port" outbound ;;
  info <- (if has_port then
             pt <- json_item "server_port" outbound ;; Ok (Dict.set "port" pt info)
           else Ok info) ;;
  Ok (VDict info).

(** The loop over the outbounds; what was appended before an exception
    stays in the result. *)
Fixpoint outbound_loop (items : list value) (acc : list value)
  : list value * option string :=
  match items with
  | [] => (acc, None)
  | x :: r =>
      match outbound_info x with
      | Ok info => outbound_loop r (acc ++ [info])
      | Raise e => (acc, Some e)
      end
  end.

(** The [try] block of [_parse_singbox]: the result as far as it was
    filled, and the exception that interrupted it, if any. *)
Definition singbox_body (result : pydict) (data : string) : pydict * option string :=
  match json_loads data with
  | Raise e => (result, Some e)
  | Ok json_config =>
      let result := Dict.set "config" json_config result in
      match py_in "outbounds" json_config with
      | Raise e => (result, Some e)
      | Ok has_out =>
          let '(result, err) :=
            if has_out then
              let result := Dict.set "outbounds" (VList []) result in
              match (ob <- json_item "outbounds" json_config ;; iter_value ob) with
              | Raise e => (result, Some e)
              | Ok items =>
                  let '(acc, err) := outbound_loop items [] in
                  (Dict.set "outbounds" (VList acc) result, err)
              end
            else (result, None) in
          match err with
          | Some e => (result, Some e)
          | None =>
              match py_in "inbounds" json_config with
              | Raise e => (result, Some e)
              | Ok false => (result, None)
              | Ok true =>
                  match (ib <- json_item "inbounds" json_config ;; json_len ib) with
                  | Raise e => (result, Some e)
                  | Ok n => (Dict.set "inbounds" (VInt n) result, None)
                  end
              end
          end
      end
  end.

(** [_parse_singbox] *)
Definition _parse_singbox (self : parser) (data : string) : pydict :=
  let result :=
    [("type", VStr "sing-box"); ("protocol", VStr "sing-box");
     ("kvm_optimizations",
      VDict [("tcp_fastopen", VBool true); ("multicore", VBool true);
             ("bbr", VBool true); ("wireguard_multiqueue", VBool true)])] in
  let '(result, err) := singbox_body result data in
  match err with
  | Some e => Dict.set "error" (VStr e) result
  | None => result
  end.

(** *** DPI bypass tools and the generic decoder *)

Fixpoint dpi_args (args : list string) (settings : pydict) : pydict :=
  match args with
  | [] => settings
  | arg :: rest =>
      if startswith "--" arg then
        let key := drop 2 arg in
        match rest with
        | nxt :: rest' =>
            if negb (startswith "--" nxt)
            then dpi_args rest' (Dict.set key (VStr nxt) settings)
            else dpi_args rest (Dict.set key (VBool true) settings)
        | [] => Dict.set key (VBool true) settings
        end
      else dpi_args rest settings
  end.

(** [_parse_dpi_bypass] *)
Definition _parse_dpi_bypass (self : parser) (protocol data : string) : pydict :=
  [("type", VStr protocol); ("protocol", VStr protocol);
   ("settings", VDict (dpi_args (split_ws data) []));
   ("kvm_optimizations",
    VDict [("nftables", VBool true);
           ("queue", get_default "virtio_queues" (kvm_resources self) (VInt 4))])].

(** [re.findall(pattern, text)] *)
Variable re_findall : string -> string -> list string.
(** [repr] of a list of strings, as an f-string prints it *)
Variable repr_list : list string -> string.

(** [_parse_generic] *)
Definition _parse_generic (self : parser) (data : string) : pydict :=
  let raw :=
    if (500 <? String.length data)%nat
    then String.substring 0 500 data ++ "..." else data in
  let ips := re_findall "\b(?:\d{1,3}\.){3}\d{1,3}\b" data in
  let ports := re_findall "\bport[=:\s]+(\d+)\b" (lower data) in
  let keys := re_findall "[A-Za-z0-9+/]{40,}={0,2}" data in
  let detected :=
    ((if nonempty ips then [VStr ("IPs: " ++ repr_list (firstn 5 ips))] else [])
     ++ (if nonempty ports then [VStr ("Ports: " ++ repr_list (firstn 5 ports))] else [])
     ++ (if nonempty keys then [VStr "Contains cryptographic keys"] else []))%list in
  [("type", VStr "unknown"); ("raw_data", VStr raw); ("detected", VList detected)].

(** *** Tuning hints, validation and the entry point *)

(** [_get_kvm_optimizations] *)
Definition _get_kvm_optimizations (self : parser) : value :=
  let r := kvm_resources self in
  VDict [("virtio_enabled", get_default "virtio_net" r (VBool true));
         ("cpu_count", get_default "cpu_count" r (VInt 4));
         ("memory_mb", get_default "memory_mb" r (VInt 2048));
         ("virtio_queues", get_default "virtio_queues" r (VInt 4))].

Definition one_of (x : string) (l : list string) : bool :=
  existsb (String.eqb x) l.

(** [_get_protocol_kvm_optimizations] *)
Definition _get_protocol_kvm_optimizations (self : parser) (protocol : string)
  (parsed : pydict) : exc value :=
  let r := kvm_resources self in
  if one_of protocol ["wireguard"; "amneziawg"] then
    rx <- py_min (get_default "cpu_count" r (VInt 4)) 8 ;;
    tx <- py_min (get_default "cpu_count" r (VInt 4)) 8 ;;
    Ok (VDict [("multiqueue", VBool true); ("rx_queues", rx);
               ("tx_queues", tx); ("vhost_net", VBool true)])
  else if one_of protocol ["xray"; "sing-box"] then
    Ok (VDict [("tcp_fastopen", VBool true); ("bbr_congestion", VBool true);
               ("multicore", VBool true); ("sniffing", VBool true)])
  else if String.eqb protocol "openvpn" then
    Ok (VDict [("tun_queue", get_default "virtio_queues" r (VInt 4));
               ("tcp_fastopen", VBool true)])
  else if String.eqb protocol "tor" then
    cpus <- py_min (get_default "cpu_count" r (VInt 4)) 2 ;;
    Ok (VDict [("num_cpus", cpus); ("max_mem", VInt 512)])
  else Ok (VDict []).

(** The diagnostics of the source are Russian sentences; they are carried
    here as English glosses, since no property depends on their wording. *)
Definition msg_unsupported (protocol : string) : string :=
  "Protocol " ++ protocol ++ " may be unsupported".
Definition msg_no_interface : string := "Interface section is missing".
Definition msg_no_peers : string := "No peers".
Definition msg_no_remote : string := "No remote server".
Definition msg_no_server : string := "No server".
Definition msg_no_port : string := "No port".

(** A statement sequence over the mutable result: the dictionary as far as
    it was changed, and the exception that stopped the sequence, if any. *)
Definition progress := (pydict * option string)%type.

(** [if cond: config["warnings"].append(msg)] as one step of a sequence. *)
Definition warn_if (cond : pydict -> bool) (msg : string) (p : progress) : progress :=
  match p with
  | (config, Some e) => (config, Some e)
  | (config, None) =>
      if cond config then
        match list_append "warnings" (VStr msg) config with
        | Ok config' => (config', None)
        | Raise e => (config, Some e)
        end
      else (config, None)
  end.

(** [k not in config or not config.get(k)] *)
Definition absent_or_empty (k : string) (config : pydict) : bool :=
  negb (Dict.has k config) || negb (truthy (get_default k config VNone)).

(** [_validate_config]; the boolean it returns is not used by [parse]. *)
Definition _validate_config (protocol : string) (config : pydict) : progress :=
  if one_of protocol ["wireguard"; "amneziawg"] then
    warn_if (absent_or_empty "peers") msg_no_peers
      (warn_if (absent_or_empty "interface") msg_no_interface (config, None))
  else if String.eqb protocol "openvpn" then
    warn_if (absent_or_empty "remote") msg_no_remote (config, None)
  else if one_of protocol ["xray"; "vless"; "vmess"; "trojan"] then
    warn_if (fun c => negb (Dict.has "port" c)) msg_no_port
      (warn_if (absent_or_empty "server") msg_no_server (config, None))
  else (config, None).

(** The decoder that [parse] selects for a protocol. *)
Definition decode (self : parser) (protocol data : string) : exc pydict :=
  if String.eqb protocol "wireguard" then _parse_wireguard self data
  else if String.eqb protocol "amneziawg" then _parse_amneziawg self data
  else if String.eqb protocol "openvpn" then _parse_openvpn self data
  else if String.eqb protocol "xray" then _parse_xray self data
  else if String.eqb protocol "shadowsocks" then _parse_shadowsocks self data
  else if String.eqb protocol "trojan" then _parse_trojan self data
  else if String.eqb protocol "sing-box" then Ok (_parse_singbox self data)
  else if String.eqb protocol "hysteria2" then _parse_hysteria2 self data
  else if String.eqb protocol "tor" then _parse_tor self data
  else if one_of protocol ["zapret"; "byedpi"; "goodbyedpi"]
  then Ok (_parse_dpi_bypass self protocol data)
  else Ok (_parse_generic self data).

(** The [try] block of [parse]. *)
Definition parse_body (self : parser) (protocol data : string) (result : pydict)
  : progress :=
  match decode self protocol data with
  | Raise e => (result, Some e)
  | Ok parsed =>
      let result := Dict.set "parsed" (VBool true) (Dict.update result parsed) in
      match _get_protocol_kvm_optimizations self protocol parsed with
      | Raise e => (result, Some e)
      | Ok hints =>
          _validate_config protocol (Dict.set "kvm_specific" hints result)
      end
  end.

(** [parse]; [timestamp] is [datetime.now().isoformat()]. *)
Definition parse (self : parser) (timestamp protocol data : string) : exc pydict :=
  let result :=
    [("timestamp", VStr timestamp); ("protocol", VStr protocol);
     ("parsed", VBool false);
     ("kvm_optimizations", _get_kvm_optimizations self);
     ("warnings", VList []); ("errors", VList [])] in
  let '(protocol, result) :=
    if String.eqb protocol "auto" || String.eqb protocol "" then
      let detected := _detect_protocol self data in
      (detected,
       Dict.set "auto_detected" (VBool true)
         (Dict.set "protocol" (VStr detected) result))
    else (protocol, result) in
  result <- (if one_of protocol (supported_protocols self) then Ok result
             else list_append "warnings" (VStr (msg_unsupported protocol)) result) ;;
  match parse_body self protocol data result with
  | (result, None) => Ok result
  | (result, Some e) =>
      result <- list_append "errors" (VStr e) result ;;
      Ok (Dict.set "parsed" (VBool false) result)
  end.

End WithLibraries.

(** *** Vocabulary for the properties *)

(** The URI schemes that [_detect_protocol] tests. *)
Definition uri_schemes : list string :=
  ["ss://"; "trojan://"; "vless://"; "vmess://"; "wg://"; "wireguard://";
   "amnezia://"; "hysteria://"; "hy2://"].

(** The entry [k] of the dictionary that a call returned; [None] when the
    call raised or the key is absent. *)
Definition field (k : string) (m : exc pydict) : option value :=
  match m with
  | Ok r => Dict.get k r
  | Raise _ => None
  end.

(** The call returned rather than raised. *)
Definition returned {A} (m : exc A) : bool :=
  match m with
  | Ok _ => true
  | Raise _ => false
  end.

(** Lines of a WireGuard configuration as the specification speaks of
    them: a section header, the key and value that a line contributes to
    its block, and the dictionary of a block. *)
Definition is_header (line : string) : bool :=
  let l := PyStr.strip line in
  negb (String.eqb l "" || PyStr.startswith "#" l)
  && (PyStr.startswith "[" l && PyStr.endswith "]" l).

Definition kv_of_line (line : string) : option (string * string) :=
  let l := PyStr.strip line in
  if String.eqb l "" || PyStr.startswith "#" l then None
  else if PyStr.has_char "=" l then
    match PyStr.split_once "=" l with
    | Some (k, v) => Some (PyStr.lower (PyStr.strip k), PyStr.strip v)
    | None => None
    end
  else None.

Definition add_kv (d : list (string * string)) (line : string)
  : list (string * string) :=
  match kv_of_line line with
  | Some (k, v) => Dict.set k v d
  | None => d
  end.

Definition block_dict (lines : list string) : list (string * string) :=
  fold_left add_kv lines [].

(** A WireGuard-style text as the specification speaks of it: the lines
    before the first section header, and then the blocks, each a header
    line with the lines up to the next header. [blocks_of name] are the
    bodies of the blocks whose header reads [[name]], in source order. *)
Definition block : Type := string * list string.

Definition section_of (header : string) : string :=
  PyStr.slice_1_m1 (PyStr.strip header).

Definition ini_lines (pre : list string) (blocks : list block) : list string :=
  (pre ++ concat (map (fun b : block => fst b :: snd b) blocks))%list.

Definition in_blocks (pre : list string) (blocks : list block) : Prop :=
  (forall l, In l pre -> is_header l = false)
  /\ forall b, In b blocks ->
       is_header (fst b) = true
       /\ forall l, In l (snd b) -> is_header l = false.

Definition blocks_of (name : string) (blocks : list block) : list (list string) :=
  map snd (filter (fun b : block => String.eqb (section_of (fst b)) name) blocks).

Definition has_key_value (lines : list string) : Prop :=
  exists l, In l lines /\ kv_of_line l <> None.

(** The peers of a text: the dictionaries of its [Peer] blocks, those
    without a key=value line left out. *)
Definition peer_dicts (blocks : list block) : list (list (string * string)) :=
  filter nonempty (map block_dict (blocks_of "Peer" blocks)).

(** One block: a [Peer] header closes the peer that was open and the
    body fills a new one; the body of an [Interface] block goes to the
    interface; the body of any other block is dropped. *)
Definition wg_block (st : wg_state) (b : block) : wg_state :=
  if String.eqb (section_of (fst b)) "Peer" then
    {| current_section := Some (section_of (fst b));
       current_peer := block_dict (snd b);
       interface := interface st;
       peers := wg_final_peers st |}
  else
    {| current_section := Some (section_of (fst b));
       current_peer := current_peer st;
       interface := if String.eqb (section_of (fst b)) "Interface"
                    then fold_left add_kv (snd b) (interface st)
                    else interface st;
       peers := peers st |}.

(** The CPU count of the resource dictionary is an integer, or absent. *)
Definition cpu_count_ok (self : parser) : Prop :=
  exists c, get_default "cpu_count" (kvm_resources self) (VInt 4) = VInt c.

(** A configuration whose first [Peer] block is empty. *)
Definition empty_peer_config : string :=
  PyStr.join "010"
    ["[Interface]"; "PrivateKey = a"; "[Peer]"; "[Peer]"; "PublicKey = b"].

(** What the round trip of a Shadowsocks link promises of a result. *)
Definition ss_fields (method password host : string) (prt : Z) (name : string)
  (r : exc pydict) : Prop :=
  returned r = true
  /\ field "method" r = Some (VStr method)
  /\ field "password" r = Some (VStr password)
  /\ field "server" r = Some (VStr host)
  /\ field "port" r = Some (VInt prt)
  /\ field "name" r = Some (VStr name)
  /\ field "error" r = None.

(** A dictionary without the key [k], and a call that returns one when it
    returns. *)
Definition lacks (k : string) (d : pydict) : Prop := Dict.get k d = None.

Definition elacks (k : string) (m : exc pydict) : Prop := field k m = None.

(** A WireGuard configuration whose only AmneziaWG tunable is [Jmax]. *)
Definition jmax_config : string :=
  PyStr.join "010"
    ["[Interface]"; "PrivateKey = k"; "Jmax = 50"; "[Peer]"; "PublicKey = p"].

(** The tags that [_detect_protocol] answers with. *)
Definition detection_tags : list string :=
  ["shadowsocks"; "trojan"; "xray"; "wireguard"; "amneziawg"; "hysteria2";
   "openvpn"; "sing-box"; "tor"; "unknown"].

(** Lower-casing a character gives neither [S] nor [C]; checked over all
    characters. *)
Definition lower_not_capital (c : ascii) : bool :=
  negb (Ascii.eqb (PyStr.lower_char c) "S")
  && negb (Ascii.eqb (PyStr.lower_char c) "C").

(** A Tor configuration that sets its own SOCKS port, and an OpenVPN
    configuration with an inline certificate. *)
Definition torrc_with_socks_port : string :=
  PyStr.join "010" ["SOCKSPort 9150"; "ExitNodes {de}"].

Definition ovpn_with_inline_ca : string :=
  PyStr.join "010"
    ["client"; "dev tun"; "remote vpn.example.org 1194 udp";
     "<ca>"; "-----BEGIN CERTIFICATE-----"; "</ca>"].

(** A dictionary in which no key occurs twice, and a call that returns one
    when it returns. *)
Definition unique_keys (d : pydict) : Prop := NoDup (map fst d).

Definition eunique (m : exc pydict) : Prop :=
  match m with
  | Ok d => unique_keys d
  | Raise _ => True
  end.

End Parser.

(** ** The service manager ([KVMServiceManager]) *)

Module Service.
Import PyStr.

(** The values of [service["status"]]: "stopped", "starting", "running",
    "stopping" and "error". *)
Inductive status := Stopped | Starting | Running | Stopping | Error.

Record service := {
  name : string;
  type : string;
  config : pydict;
  status_of : status;
  pid : option Z;
  start_time : option Z;
  memory_usage : Q;
  cpu_usage : Q;
  restart_count : Z;
  last_error : option string;
  cgroup : string
}.

Record manager := {
  kvm_resources : pydict;
  services : list (string * service);
  sentinel_cgroup : string;
  running : bool
}.

Inductive level := INFO | WARNING | ERROR.

(** The records handed to [logger], by content rather than by wording. *)
Inductive log_msg :=
| Registered (name type : string)
| NotFound (name : string)
| LowMemory (name : string)
| HighCpu (cpu : Q) (name : string)
| StartingService (name : string)
| Started (name : string)
| StartError (name e : string)
| StoppingService (name : string)
| StoppedService (name : string)
| StopError (name e : string)
| CgroupCreateFailed (e : string)
| CgroupRemoveFailed (e : string)
| MemoryLimit (mb : Z) (name : string)
| LimitsFailed (e : string)
| ProcessDied (name : string) (pid : Z)
| Restarting (name : string).

Inductive signal := SIG0 | SIGTERM | SIGKILL.

(** What [os.kill(pid, sig)] answers: it returns; or it raises an
    [OSError] (no such process, no permission); or it raises another
    [Exception], as the [OverflowError] for a PID outside the range of
    [pid_t]. *)
Inductive kill_obs :=
| Delivered
| KillOSError (e : string)
| KillRaised (e : string).

(** What [get_status] learns from [psutil.Process(pid)]: nothing when the
    lookup or [memory_info] raised, the resident size alone when
    [cpu_percent] raised, both otherwise. *)
Inductive proc_obs :=
| NoStats
| MemOnly (rss : Z)
| Stats (rss : Z) (cpu : Q).

(** What a launch routine observes of its backend: an exception while the
    configuration artifact is written or the command is built, the exit
    code and standard error of the command, and the PID that the lookup
    ([pgrep] or the PID file) gives. *)
Record launch_obs := {
  setup_error : option string;
  returncode : Z;
  stderr : string;
  pid_found : option Z
}.

(** The host as the manager sees it. [W] is the state of the host; every
    call returns what the manager observes and the next state. A [Some]
    message stands for the exception that the call raised. *)
Record OS (W : Type) := {
  os_kill : Z -> signal -> W -> kill_obs * W;
  os_sleep : Q -> W -> W;
  os_now : W -> Z;
  os_cpu_percent : W -> Q * W;
  os_proc_stats : Z -> W -> proc_obs * W;
  os_path_exists : string -> W -> bool * W;
  os_makedirs : string -> W -> option string * W;
  os_rmdir : string -> W -> option string * W;
  os_write_file : string -> value -> W -> option string * W;
  os_launch : string -> string -> pydict -> W -> launch_obs * W;
  os_sys_info : W -> (Q * Q * Q) * W
}.
Arguments os_kill {W}.
Arguments os_sleep {W}.
Arguments os_now {W}.
Arguments os_cpu_percent {W}.
Arguments os_proc_stats {W}.
Arguments os_path_exists {W}.
Arguments os_makedirs {W}.
Arguments os_rmdir {W}.
Arguments os_write_file {W}.
Arguments os_launch {W}.
Arguments os_sys_info {W}.

Section WithOS.
Context {W : Type} (os : OS W).

(** The manager, the host and the log, threaded through every method. *)
Record state := {
  world : W;
  mgr : manager;
  log : list (level * log_msg)
}.

(** A method: it reads and updates the state and returns or raises. The
    state reached when an exception is raised is kept, as the mutations made
    by then are. *)
Definition M (A : Type) : Type := state -> exc A * state.

Definition ret {A} (a : A) : M A := fun st => (Ok a, st).
Definition raise {A} (e : string) : M A := fun st => (Raise e, st).
Definition mbind {A B} (m : M A) (f : A -> M B) : M B :=
  fun st =>
    match m st with
    | (Ok a, st') => f a st'
    | (Raise e, st') => (Raise e, st')
    end.

(** [try: body except Exception as e: handler(e)] *)
Definition try_catch {A} (body : M A) (handler : string -> M A) : M A :=
  fun st =>
    match body st with
    | (Ok a, st') => (Ok a, st')
    | (Raise e, st') => handler e st'
    end.

Definition put_world (w : W) (st : state) : state :=
  {| world := w; mgr := mgr st; log := log st |}.

Definition put_log (l : list (level * log_msg)) (st : state) : state :=
  {| world := world st; mgr := mgr st; log := l |}.

Definition put_services (sv : list (string * service)) (st : state) : state :=
  {| world := world st;
     mgr := {| kvm_resources := kvm_resources (mgr st);
               services := sv;
               sentinel_cgroup := sentinel_cgroup (mgr st);
               running := running (mgr st) |};
     log := log st |}.

Definition logger (l : level) (m : log_msg) : M unit :=
  fun st => (Ok tt, put_log (log st ++ [(l, m)])%list st).

Definition get_mgr : M manager := fun st => (Ok (mgr st), st).

Definition set_services (sv : list (string * service)) : M unit :=
  fun st => (Ok tt, put_services sv st).

(** A call into the host. *)
Definition host {A} (f : W -> A * W) : M A :=
  fun st =>
    let '(a, w) := f (world st) in
    (Ok a, put_world w st).

Declare Scope M_scope.
Notation "x <- m ;; k" := (mbind m (fun x => k))
  (at level 61, m at next level, right associativity) : M_scope.
Notation "m >> k" := (mbind m (fun _ => k))
  (at level 61, right associativity) : M_scope.
Local Open Scope M_scope.

Fixpoint for_each {A} (l : list A) (f : A -> M unit) : M unit :=
  match l with
  | [] => ret tt
  | x :: r => f x >> for_each r f
  end.

(** [self.services[name]] *)
Definition get_service (name : string) : M service :=
  m <- get_mgr ;;
  match Dict.get name (services m) with
  | Some s => ret s
  | None => raise name
  end.

(** An assignment to fields of [self.services[name]]. *)
Definition upd_service (name : string) (f : service -> service) : M unit :=
  s <- get_service name ;;
  m <- get_mgr ;;
  set_services (Dict.set name (f s) (services m)).

Definition with_status (x : status) (s : service) : service :=
  {| name := name s; type := type s; config := config s; status_of := x;
     pid := pid s; start_time := start_time s; memory_usage := memory_usage s;
     cpu_usage := cpu_usage s; restart_count := restart_count s;
     last_error := last_error s; cgroup := cgroup s |}.

Definition with_pid (x : option Z) (s : service) : service :=
  {| name := name s; type := type s; config := config s; status_of := status_of s;
     pid := x; start_time := start_time s; memory_usage := memory_usage s;
     cpu_usage := cpu_usage s; restart_count := restart_count s;
     last_error := last_error s; cgroup := cgroup s |}.

Definition with_start_time (x : option Z) (s : service) : service :=
  {| name := name s; type := type s; config := config s; status_of := status_of s;
     pid := pid s; start_time := x; memory_usage := memory_usage s;
     cpu_usage := cpu_usage s; restart_count := restart_count s;
     last_error := last_error s; cgroup := cgroup s |}.

Definition with_memory_usage (x : Q) (s : service) : service :=
  {| name := name s; type := type s; config := config s; status_of := status_of s;
     pid := pid s; start_time := start_time s; memory_usage := x;
     cpu_usage := cpu_usage s; restart_count := restart_count s;
     last_error := last_error s; cgroup := cgroup s |}.

Definition with_cpu_usage (x : Q) (s : service) : service :=
  {| name := name s; type := type s; config := config s; status_of := status_of s;
     pid := pid s; start_time := start_time s; memory_usage := memory_usage s;
     cpu_usage := x; restart_count := restart_count s;
     last_error := last_error s; cgroup := cgroup s |}.

Definition with_restart_count (x : Z) (s : service) : service :=
  {| name := name s; type := type s; config := config s; status_of := status_of s;
     pid := pid s; start_time := start_time s; memory_usage := memory_usage s;
     cpu_usage := cpu_usage s; restart_count := x;
     last_error := last_error s; cgroup := cgroup s |}.

Definition with_last_error (x : option string) (s : service) : service :=
  {| name := name s; type := type s; config := config s; status_of := status_of s;
     pid := pid s; start_time := start_time s; memory_usage := memory_usage s;
     cpu_usage := cpu_usage s; restart_count := restart_count s;
     last_error := x; cgroup := cgroup s |}.

Definition with_cgroup (x : string) (s : service) : service :=
  {| name := name s; type := type s; config := config s; status_of := status_of s;
     pid := pid s; start_time := start_time s; memory_usage := memory_usage s;
     cpu_usage := cpu_usage s; restart_count := restart_count s;
     last_error := last_error s; cgroup := x |}.

(** [if service["pid"]:] *)
Definition pid_set (s : service) : option Z :=
  match pid s with
  | Some 0%Z | None => None
  | Some p => Some p
  end.

Definition one_of (x : string) (l : list string) : bool :=
  existsb (String.eqb x) l.

Definition cgroup_path (m : manager) (name : string) : string :=
  sentinel_cgroup m ++ "/" ++ replace_char "." "_" name.

(** [register_service] *)
Definition register_service (name type : string) (config : pydict) : M unit :=
  m <- get_mgr ;;
  set_services
         (Dict.set name
            {| name := name; type := type; config := config;
               status_of := Stopped; pid := None; start_time := None;
               memory_usage := 0; cpu_usage := 0; restart_count := 0;
               last_error := None; cgroup := cgroup_path m name |}
            (services m)) >>
  logger INFO (Registered name type).

(** [v < k] for an integer constant [k] *)
Definition py_lt (v : value) (k : Z) : M bool :=
  match v with
  | VInt z => ret (z <? k)%Z
  | VBool b => ret ((if b then 1 else 0) <? k)%Z
  | VFloat q => ret (negb (Qle_bool (inject_Z k) q))
  | _ => raise "'<' not supported between instances of this type and 'int'"
  end.

(** [_check_resources] *)
Definition _check_resources (name : string) : M bool :=
  service <- get_service name ;;
  m <- get_mgr ;;
  denied <-
    (if one_of (type service) ["xray"; "adguardhome"; "hysteria2"] then
       match Dict.get "memory_available_mb" (kvm_resources m) with
       | Some mem => py_lt mem 512
       | None => raise "memory_available_mb"
       end
     else ret false) ;;
  if denied then
    logger ERROR (LowMemory name) >> ret false
  else
    (if one_of (type service) ["xray"; "sing-box"] then
       cpu_percent <- host (os_cpu_percent os) ;;
       if negb (Qle_bool cpu_percent 80)
       then logger WARNING (HighCpu cpu_percent name)
       else ret tt
     else ret tt) >>
    ret true.

(** [_create_service_cgroup] *)
Definition _create_service_cgroup (name : string) : M unit :=
  try_catch
    (m <- get_mgr ;;
     let path := cgroup_path m name in
     r <- host (os_makedirs os path) ;;
     match r with
     | None => upd_service name (with_cgroup path)
     | Some e => raise e
     end)
    (fun e => logger WARNING (CgroupCreateFailed e)).

(** [_remove_service_cgroup] *)
Definition _remove_service_cgroup (name : string) : M unit :=
  try_catch
    (service <- get_service name ;;
     if String.eqb (cgroup service) "" then ret tt
     else
       present <- host (os_path_exists os (cgroup service)) ;;
       if present then
         r <- host (os_rmdir os (cgroup service)) ;;
         match r with
         | None => ret tt
         | Some e => raise e
         end
       else ret tt)
    (fun e => logger WARNING (CgroupRemoveFailed e)).

Definition write_file (path : string) (content : value) : M unit :=
  r <- host (os_write_file os path content) ;;
  match r with
  | None => ret tt
  | Some e => raise e
  end.

(** [_apply_resource_limits] *)
Definition _apply_resource_limits (name : string) : M unit :=
  service <- get_service name ;;
  match pid_set service with
  | None => ret tt
  | Some p =>
      if String.eqb (cgroup service) "" then ret tt
      else
        try_catch
          ((if one_of (type service) ["xray"; "adguardhome"; "hysteria2"]
                 then write_file (cgroup service ++ "/memory.max")
                        (VInt (512 * 1024 * 1024)) >>
                      logger INFO (MemoryLimit 512 name)
                 else ret tt) >>
           (if String.eqb (type service) "tor"
                 then write_file (cgroup service ++ "/cpu.max") (VStr "50000 100000")
                 else ret tt) >>
           write_file (cgroup service ++ "/cgroup.procs") (VInt p))
          (fun e => logger WARNING (LimitsFailed e))
  end.

(** *** Launch routines

    Each routine asks the host to write the configuration and run the
    backend, and decides on what it observes. *)

Definition launch (kind name : string) : M launch_obs :=
  service <- get_service name ;;
  obs <- host (os_launch os kind name (config service)) ;;
  match setup_error obs with
  | Some e => raise e
  | None => ret obs
  end.

Definition is_some {A} (x : option A) : bool :=
  match x with Some _ => true | None => false end.

(** [_start_wireguard]: the PID is looked up after [wg-quick] succeeded. *)
Definition _start_wireguard (name : string) : M bool :=
  obs <- launch "wireguard" name ;;
  if (returncode obs =? 0)%Z then
    upd_service name (with_pid (pid_found obs)) >> ret true
  else
    upd_service name (with_last_error (Some (stderr obs))) >> ret false.

(** [_start_openvpn] *)
Definition _start_openvpn (name : string) : M bool :=
  obs <- launch "openvpn" name ;;
  if (returncode obs =? 0)%Z then
    host (fun w => (tt, os_sleep os 2 w)) >>
    upd_service name (with_pid (pid_found obs)) >> ret true
  else
    upd_service name (with_last_error (Some (stderr obs))) >> ret false.

(** [_start_xray]: started in the background; success is a PID found. *)
Definition _start_xray (name : string) : M bool :=
  obs <- launch "xray" name ;;
  host (fun w => (tt, os_sleep os 2 w)) >>
  upd_service name (with_pid (pid_found obs)) >>
  ret (is_some (pid_found obs)).

(** [_start_shadowsocks]: the PID is read from the PID file. *)
Definition _start_shadowsocks (name : string) : M bool :=
  obs <- launch "shadowsocks" name ;;
  if (returncode obs =? 0)%Z then
    upd_service name (with_pid (pid_found obs)) >> ret true
  else ret false.

(** [_start_tor] *)
Definition _start_tor (name : string) : M bool :=
  obs <- launch "tor" name ;;
  host (fun w => (tt, os_sleep os 3 w)) >>
  upd_service name (with_pid (pid_found obs)) >>
  ret (is_some (pid_found obs)).

(** [_start_dpi_bypass] *)
Definition _start_dpi_bypass (name : string) : M bool :=
  service <- get_service name ;;
  if one_of (type service) ["zapret"; "byedpi"; "goodbyedpi"] then
    obs <- launch (type service) name ;;
    host (fun w => (tt, os_sleep os 2 w)) >>
    upd_service name (with_pid (pid_found obs)) >>
    ret (returncode obs =? 0)%Z
  else ret false.

(** [_start_generic] *)
Definition _start_generic (name : string) : M bool :=
  service <- get_service name ;;
  script <- host (os_path_exists os ("/etc/init.d/" ++ type service)) ;;
  if script then
    obs <- launch (type service) name ;;
    host (fun w => (tt, os_sleep os 2 w)) >>
    upd_service name (with_pid (pid_found obs)) >>
    ret (returncode obs =? 0)%Z
  else ret false.

(** The dispatch of [start_service] on the service type. *)
Definition start_backend (name : string) : M bool :=
  service <- get_service name ;;
  let t := type service in
  if String.eqb t "wireguard" then _start_wireguard name
  else if String.eqb t "openvpn" then _start_openvpn name
  else if String.eqb t "xray" then _start_xray name
  else if String.eqb t "shadowsocks" then _start_shadowsocks name
  else if String.eqb t "tor" then _start_tor name
  else if one_of t ["zapret"; "byedpi"; "goodbyedpi"] then _start_dpi_bypass name
  else _start_generic name.

(** [start_service] *)
Definition start_service (name : string) : M bool :=
  m <- get_mgr ;;
  if negb (Dict.has name (services m)) then
    logger ERROR (NotFound name) >> ret false
  else
    allowed <- _check_resources name ;;
    if negb allowed then
      upd_service name (with_last_error (Some "Insufficient resources")) >>
      ret false
    else
      logger INFO (StartingService name) >>
      upd_service name (with_status Starting) >>
      try_catch
        (_create_service_cgroup name >>
         success <- start_backend name ;;
         if success then
           upd_service name (with_status Running) >>
           now <- host (fun w => (os_now os w, w)) ;;
           upd_service name (with_start_time (Some now)) >>
           upd_service name (with_restart_count 0) >>
           _apply_resource_limits name >>
           logger INFO (Started name) >>
           ret true
         else
           upd_service name (with_status Error) >>
           upd_service name (with_last_error (Some "Start failed")) >>
           ret false)
        (fun e =>
           upd_service name (with_status Error) >>
           upd_service name (with_last_error (Some e)) >>
           logger ERROR (StartError name e) >>
           ret false).

(** [os.kill(pid, sig)] *)
Definition kill (p : Z) (sig : signal) : M unit :=
  r <- host (os_kill os p sig) ;;
  match r with
  | Delivered => ret tt
  | KillOSError e => raise e
  | KillRaised e => raise e
  end.

(** [_process_exists]: the probe with signal 0. Its handler takes
    [OSError] only, so any other exception of [os.kill] leaves the
    method. *)
Definition _process_exists (p : Z) : M bool :=
  r <- host (os_kill os p SIG0) ;;
  match r with
  | Delivered => ret true
  | KillOSError _ => ret false
  | KillRaised e => raise e
  end.

(** [for _ in range(n): if not exists: break; sleep(0.5)]; the result
    tells whether the loop was left by [break]. *)
Fixpoint wait_exit (n : nat) (p : Z) : M bool :=
  match n with
  | O => ret false
  | S k =>
      alive <- _process_exists p ;;
      if alive then
        host (fun w => (tt, os_sleep os (1 # 2) w)) >> wait_exit k p
      else ret true
  end.

(** [stop_service] *)
Definition stop_service (name : string) : M bool :=
  m <- get_mgr ;;
  if negb (Dict.has name (services m)) then
    logger ERROR (NotFound name) >> ret false
  else
    logger INFO (StoppingService name) >>
    upd_service name (with_status Stopping) >>
    try_catch
      (service <- get_service name ;;
       (match pid_set service with
        | Some p =>
            kill p SIGTERM >>
            exited <- wait_exit 10 p ;;
            if exited then ret tt else kill p SIGKILL
        | None => ret tt
        end) >>
       _remove_service_cgroup name >>
       upd_service name (with_status Stopped) >>
       upd_service name (with_pid None) >>
       upd_service name (with_start_time None) >>
       logger INFO (StoppedService name) >>
       ret true)
      (fun e =>
         upd_service name (with_status Error) >>
         upd_service name (with_last_error (Some e)) >>
         logger ERROR (StopError name e) >>
         ret false).

(** *** Status query *)

Record status_entry := {
  e_type : string;
  e_status : status;
  e_pid : option Z;
  e_memory_mb : Q;
  e_cpu_percent : Q;
  e_uptime : Z;
  e_restart_count : Z
}.

Record status_report := {
  r_kvm : pydict;
  r_services : list (string * status_entry);
  r_system : Q * Q * Q
}.

(** [(datetime.now() - start_time).seconds]: the seconds field of the
    normalised difference, times being in microseconds. *)
Definition uptime_seconds (now : Z) (start : option Z) : Z :=
  match start with
  | Some t => (((now - t) / 1000000) mod 86400)%Z
  | None => 0%Z
  end.

(** The [try] block that refreshes the usage figures of one service. *)
Definition refresh_usage (name : string) (p : Z) : M unit :=
  obs <- host (os_proc_stats os p) ;;
  match obs with
  | NoStats => ret tt
  | MemOnly rss =>
      upd_service name (with_memory_usage (inject_Z rss / 1024 / 1024))
  | Stats rss cpu =>
      upd_service name (with_memory_usage (inject_Z rss / 1024 / 1024)) >>
      upd_service name (with_cpu_usage cpu)
  end.

(** One iteration of the loop of [get_status]. *)
Definition status_of_service (name : string) : M (string * status_entry) :=
  service <- get_service name ;;
  (match pid_set service with
   | Some p => refresh_usage name p
   | None => ret tt
   end) >>
  service <- get_service name ;;
  now <- host (fun w => (os_now os w, w)) ;;
  ret (name,
       {| e_type := type service;
          e_status := status_of service;
          e_pid := pid service;
          e_memory_mb := memory_usage service;
          e_cpu_percent := cpu_usage service;
          e_uptime := uptime_seconds now (start_time service);
          e_restart_count := restart_count service |}).

Fixpoint status_loop (names : list string) : M (list (string * status_entry)) :=
  match names with
  | [] => ret []
  | n :: r =>
      e <- status_of_service n ;;
      rest <- status_loop r ;;
      ret (e :: rest)
  end.

(** [get_status] *)
Definition get_status : M status_report :=
  m <- get_mgr ;;
  sys <- host (os_sys_info os) ;;
  entries <- status_loop (map fst (services m)) ;;
  ret {| r_kvm := kvm_resources m; r_services := entries; r_system := sys |}.

(** *** Health monitor *)

(** The body of the loop over the services in [_monitor_loop]. *)
Definition monitor_service (name : string) : M unit :=
  service <- get_service name ;;
  match status_of service, pid_set service with
  | Running, Some p =>
      alive <- _process_exists p ;;
      if alive then ret tt
      else
        logger WARNING (ProcessDied name p) >>
        upd_service name (fun s => with_restart_count (restart_count s + 1) s) >>
        service <- get_service name ;;
        if (restart_count service <? 3)%Z then
          logger INFO (Restarting name) >>
          start_service name >>
          ret tt
        else
          upd_service name (with_status Error) >>
          upd_service name (with_last_error (Some "Max restarts exceeded"))
  | _, _ => ret tt
  end.

(** One pass over the registry, followed by [time.sleep(10)]. *)
Definition monitor_round : M unit :=
  m <- get_mgr ;;
  for_each (map fst (services m)) monitor_service >>
  host (fun w => (tt, os_sleep os 10 w)).

(** [_monitor_loop], for at most [rounds] passes. *)
Fixpoint _monitor_loop (rounds : nat) : M unit :=
  match rounds with
  | O => ret tt
  | S k =>
      m <- get_mgr ;;
      if running m then monitor_round >> _monitor_loop k
      else ret tt
  end.

(** *** Vocabulary for the properties *)

(** [wp m Q st]: run from [st], the method [m] ends in an outcome and a
    state that satisfy [Q]. *)
Definition wp {A} (m : M A) (Q : exc A -> state -> Prop) (st : state) : Prop :=
  Q (fst (m st)) (snd (m st)).

(** The record that a successful [stop_service] leaves, and the one that
    its exception handler leaves. *)
Definition stopped_record (s : service) : service :=
  with_start_time None (with_pid None (with_status Stopped (with_status Stopping s))).

Definition stop_failed_record (e : string) (s : service) : service :=
  with_last_error (Some e) (with_status Error (with_status Stopping s)).


(** The termination protocol in the words of the specification: "send a
    graceful-termination signal to the PID; poll for process exit every
    0.5s up to 5s total; if still alive, force-terminate", and then
    "release the resource quota handle". It is written on the host alone:
    what the host is asked, in which order, and the exception that ends
    the protocol, if one does. A poll that raises [OSError] has found the
    process gone. *)
Fixpoint poll_exit (polls : nat) (p : Z) (w : W) : exc bool * W :=
  match polls with
  | O => (Ok false, w)
  | S k =>
      match os_kill os p SIG0 w with
      | (Delivered, w1) => poll_exit k p (os_sleep os (1 # 2) w1)
      | (KillOSError _, w1) => (Ok true, w1)
      | (KillRaised e, w1) => (Raise e, w1)
      end
  end.

Definition signal_sent (p : Z) (sig : signal) (w : W) : option string * W :=
  match os_kill os p sig w with
  | (Delivered, w1) => (None, w1)
  | (KillOSError e, w1) => (Some e, w1)
  | (KillRaised e, w1) => (Some e, w1)
  end.

Definition terminate (p : Z) (w : W) : option string * W :=
  match signal_sent p SIGTERM w with
  | (None, w1) =>
      match poll_exit 10 p w1 with
      | (Ok true, w2) => (None, w2)
      | (Ok false, w2) => signal_sent p SIGKILL w2
      | (Raise e, w2) => (Some e, w2)
      end
  | (Some e, w1) => (Some e, w1)
  end.

Definition release_quota (path : string) (w : W) : W :=
  if String.eqb path "" then w
  else
    match os_path_exists os path w with
    | (true, w1) => snd (os_rmdir os path w1)
    | (false, w1) => w1
    end.

(** What [stop_service] asks of the host for a record: the protocol for
    the recorded PID, nothing without one. *)
Definition stop_outcome (s : service) (w : W) : option string * W :=
  match pid_set s with
  | Some p => terminate p w
  | None => (None, w)
  end.







(** PIDs within the range of [pid_t], a signed 32-bit integer on Linux;
    hosts on which [os.kill] raises nothing but [OSError] for such a PID;
    hosts whose launches report such PIDs only; and managers whose records
    hold such PIDs only. *)
Definition fits_pid_t (p : Z) : Prop := (- 2 ^ 31 <= p < 2 ^ 31)%Z.

Definition kill_raises_oserror_only : Prop :=
  forall (p : Z) (sig : signal) (w : W) (e : string),
    fits_pid_t p -> fst (os_kill os p sig w) <> KillRaised e.

Definition obs_fits (obs : launch_obs) : Prop :=
  forall p, pid_found obs = Some p -> fits_pid_t p.

Definition launches_report_pids : Prop :=
  forall (kind name : string) (config : pydict) (w : W),
    obs_fits (fst (os_launch os kind name config w)).

Definition record_fits (s : service) : Prop :=
  forall p, pid s = Some p -> fits_pid_t p.

Definition pids_fit (m : manager) : Prop :=
  forall n s, Dict.get n (services m) = Some s -> record_fits s.

(** Methods that keep the recorded PIDs within the range, and return
    values that satisfy [P]; [any] asks nothing of the value. *)
Definition any {A} (_ : A) : Prop := True.

Definition keeps_pids {A} (m : M A) (P : A -> Prop) : Prop :=
  forall st,
    pids_fit (mgr st) ->
    pids_fit (mgr (snd (m st))) /\ forall a, fst (m st) = Ok a -> P a.

(** Methods that leave the manager alone. *)
Definition keeps_mgr {A} (m : M A) : Prop :=
  forall st, mgr (snd (m st)) = mgr st.

(** Methods that keep the registered names, in their order, and the
    resource figures, whatever they do to the records. *)
Definition keeps_registry {A} (m : M A) : Prop :=
  forall st,
    map fst (services (mgr (snd (m st)))) = map fst (services (mgr st))
    /\ kvm_resources (mgr (snd (m st))) = kvm_resources (mgr st).

End WithOS.
End Service.

(** ** Hosts used as concrete inputs *)

Module Hosts.
Import Service.

(** A host whose backends start and exit at once: every launch succeeds
    and reports PID 100, every signal finds no process. The state counts
    the launches. *)
Definition dying_backend : OS nat :=
  {| os_kill := fun _ _ w => (KillOSError "[Errno 3] No such process", w);
     os_sleep := fun _ w => w;
     os_now := fun _ => 0%Z;
     os_cpu_percent := fun w => (0, w);
     os_proc_stats := fun _ w => (NoStats, w);
     os_path_exists := fun _ w => (true, w);
     os_makedirs := fun _ w => (None, w);
     os_rmdir := fun _ w => (None, w);
     os_write_file := fun _ _ w => (None, w);
     os_launch := fun _ _ _ w =>
       ({| setup_error := None; returncode := 0; stderr := "";
           pid_found := Some 100%Z |}, S w);
     os_sys_info := fun w => ((0, 0, 0), w) |}.

Definition remove_pid (p : Z) (live : list Z) : list Z :=
  filter (fun q => negb (Z.eqb q p)) live.

(** A host with a process table: the state is the list of live PIDs; a
    signal to a PID outside it raises, SIGTERM and SIGKILL end the process;
    a process uses 3 MiB and half a CPU. *)
Definition process_table : OS (list Z) :=
  {| os_kill := fun p sig live =>
       if existsb (Z.eqb p) live then
         (Delivered, match sig with SIG0 => live | _ => remove_pid p live end)
       else (KillOSError "[Errno 3] No such process", live);
     os_sleep := fun _ w => w;
     os_now := fun _ => 0%Z;
     os_cpu_percent := fun w => (0, w);
     os_proc_stats := fun p live =>
       (if existsb (Z.eqb p) live then Stats 3145728 (1 # 2) else NoStats, live);
     os_path_exists := fun _ w => (true, w);
     os_makedirs := fun _ w => (None, w);
     os_rmdir := fun _ w => (None, w);
     os_write_file := fun _ _ w => (None, w);
     os_launch := fun _ _ _ live =>
       ({| setup_error := None; returncode := 0; stderr := "";
           pid_found := Some 100%Z |}, 100%Z :: live);
     os_sys_info := fun w => ((0, 0, 0), w) |}.

(** A host that keeps a record of what it is asked, and whose process
    takes every signal and goes on. *)
Inductive request :=
| AskedKill (p : Z) (sig : signal)
| AskedSleep (d : Q)
| AskedPathExists (path : string)
| AskedRmdir (path : string).

Definition deaf_process : OS (list request) :=
  {| os_kill := fun p sig w => (Delivered, w ++ [AskedKill p sig])%list;
     os_sleep := fun d w => (w ++ [AskedSleep d])%list;
     os_now := fun _ => 0%Z;
     os_cpu_percent := fun w => (0, w);
     os_proc_stats := fun _ w => (NoStats, w);
     os_path_exists := fun path w => (true, w ++ [AskedPathExists path])%list;
     os_makedirs := fun _ w => (None, w);
     os_rmdir := fun path w => (None, w ++ [AskedRmdir path])%list;
     os_write_file := fun _ _ w => (None, w);
     os_launch := fun _ _ _ w =>
       ({| setup_error := None; returncode := 0; stderr := "";
           pid_found := Some 100%Z |}, w);
     os_sys_info := fun w => ((0, 0, 0), w) |}.

(** A host without processes that answers as Linux does: [OSError] for
    a PID within the range of [pid_t], [OverflowError] beyond it. *)
Definition no_process : OS unit :=
  {| os_kill := fun p _ w =>
       if (p <? - 2 ^ 31)%Z then
         (KillRaised "signed integer is less than minimum", w)
       else if (p <? 2 ^ 31)%Z then
         (KillOSError "[Errno 3] No such process", w)
       else (KillRaised "signed integer is greater than maximum", w);
     os_sleep := fun _ w => w;
     os_now := fun _ => 0%Z;
     os_cpu_percent := fun w => (0, w);
     os_proc_stats := fun _ w => (NoStats, w);
     os_path_exists := fun _ w => (true, w);
     os_makedirs := fun _ w => (None, w);
     os_rmdir := fun _ w => (None, w);
     os_write_file := fun _ _ w => (None, w);
     os_launch := fun _ _ _ w =>
       ({| setup_error := None; returncode := 1; stderr := "";
           pid_found := None |}, w);
     os_sys_info := fun w => ((0, 0, 0), w) |}.

Definition empty_manager (mem_available : Z) : manager :=
  {| kvm_resources := [("cpu_count", VInt 4); ("memory_mb", VInt 2048);
                       ("memory_available_mb", VInt mem_available)];
     services := [];
     sentinel_cgroup := "/sys/fs/cgroup/sentinel";
     running := true |}.

(** A service as [start_service] leaves it after a successful launch. *)
Definition running_service (name type : string) (p : Z) : service :=
  {| name := name; type := type; config := [];
     status_of := Running; pid := Some p; start_time := Some 0%Z;
     memory_usage := 0; cpu_usage := 0; restart_count := 0;
     last_error := None;
     cgroup := "/sys/fs/cgroup/sentinel/" ++ name |}.

Definition manager_with (sv : list (string * service)) : manager :=
  {| kvm_resources := kvm_resources (empty_manager 2048);
     services := sv;
     sentinel_cgroup := "/sys/fs/cgroup/sentinel";
     running := true |}.

(** The manager whose only service, [relay], is running with PID 100. *)
Definition relay_manager : manager :=
  manager_with [("relay", running_service "relay" "tor" 100)].

(** A service as [register_service] leaves it. *)
Definition idle_service (name type : string) : service :=
  {| name := name; type := type; config := [];
     status_of := Stopped; pid := None; start_time := None;
     memory_usage := 0; cpu_usage := 0; restart_count := 0;
     last_error := None;
     cgroup := "/sys/fs/cgroup/sentinel/" ++ name |}.

(** [relay] running with PID 100 and [proxy] registered but never started. *)
Definition two_service_manager : manager :=
  manager_with [("relay", running_service "relay" "tor" 100);
                ("proxy", idle_service "proxy" "xray")].

(** [proxy], of the memory-heavy class, running with PID 100 on a host
    that reports 256 MB of available memory. *)
Definition starved_manager : manager :=
  {| kvm_resources := kvm_resources (empty_manager 256);
     services := [("proxy", running_service "proxy" "xray" 100)];
     sentinel_cgroup := "/sys/fs/cgroup/sentinel";
     running := true |}.

End Hosts.

(** * Properties *)

(** ** Dictionaries *)

Module DictFacts.
Section Generic.
Context {V : Type}.
Implicit Types (d : list (string * V)) (k : string) (v : V).

Lemma get_set_same k v d : Dict.get k (Dict.set k v d) = Some v.
Proof.
  induction d as [|[k' v'] d IH]; simpl.
  - now rewrite String.eqb_refl.
  - destruct (String.eqb k' k) eqn:E; simpl.
    + now rewrite String.eqb_refl.
    + now rewrite E.
Qed.

Lemma get_set_other k k' v d :
  k <> k' -> Dict.get k' (Dict.set k v d) = Dict.get k' d.
Proof.
  intros Hne. induction d as [|[k0 v0] d IH]; simpl.
  - destruct (String.eqb k k') eqn:E; [apply String.eqb_eq in E; contradiction|easy].
  - destruct (String.eqb k0 k) eqn:E; simpl.
    + apply String.eqb_eq in E. subst k0.
      destruct (String.eqb k k') eqn:E'; [apply String.eqb_eq in E'; contradiction|easy].
    + now rewrite IH.
Qed.

Lemma set_set k v v' d : Dict.set k v' (Dict.set k v d) = Dict.set k v' d.
Proof.
  induction d as [|[k0 v0] d IH]; simpl.
  - now rewrite String.eqb_refl.
  - destruct (String.eqb k0 k) eqn:E; simpl.
    + now rewrite String.eqb_refl.
    + now rewrite E, IH.
Qed.


Lemma has_true k d : Dict.has k d = true -> exists v, Dict.get k d = Some v.
Proof. unfold Dict.has. destruct (Dict.get k d); [eauto|discriminate]. Qed.

Lemma keys_set k v d :
  Dict.has k d = true -> map fst (Dict.set k v d) = map fst d.
Proof.
  unfold Dict.has. induction d as [|[k0 v0] d IH]; simpl; [discriminate|].
  destruct (String.eqb k0 k) eqn:E; simpl.
  - apply String.eqb_eq in E. now subst.
  - intros H. now rewrite IH.
Qed.

Lemma set_nonempty k v d : Dict.set k v d <> [].
Proof. destruct d as [|[k0 v0] d]; simpl; [|destruct (String.eqb k0 k)]; discriminate. Qed.

End Generic.
End DictFacts.

(** ** Service manager *)

Module ServiceFacts.
Import Service Hosts DictFacts.

(** *** Reasoning about methods: weakest preconditions *)

Section Wp.
Context {W : Type} (os : OS W).
Implicit Types st : @state W.

Lemma wp_ret {A} (a : A) Q st : Q (Ok a) st -> wp (ret a) Q st.
Proof. exact (fun H => H). Qed.

Lemma wp_raise {A} e (Q : exc A -> state -> Prop) st :
  Q (Raise e) st -> wp (raise e) Q st.
Proof. exact (fun H => H). Qed.

Lemma wp_bind {A B} (m : @M W A) (f : A -> @M W B) Q st :
  wp m (fun r st' =>
          match r with
          | Ok a => wp (f a) Q st'
          | Raise e => Q (Raise e) st'
          end) st ->
  wp (mbind m f) Q st.
Proof.
  unfold wp, mbind. destruct (m st) as [[a|e] st']; simpl; auto.
Qed.

Lemma wp_try {A} (body : @M W A) handler Q st :
  wp body (fun r st' =>
             match r with
             | Ok a => Q (Ok a) st'
             | Raise e => wp (handler e) Q st'
             end) st ->
  wp (try_catch body handler) Q st.
Proof.
  unfold wp, try_catch. destruct (body st) as [[a|e] st']; simpl; auto.
Qed.

Lemma wp_conseq {A} (m : @M W A) (Q Q' : exc A -> state -> Prop) st :
  (forall r st', Q r st' -> Q' r st') -> wp m Q st -> wp m Q' st.
Proof. unfold wp. auto. Qed.

Lemma wp_get_mgr Q st : Q (Ok (mgr st)) st -> wp get_mgr Q st.
Proof. exact (fun H => H). Qed.

Lemma wp_logger l m Q st :
  Q (Ok tt) (put_log (log st ++ [(l, m)]) st) -> wp (logger l m) Q st.
Proof. exact (fun H => H). Qed.

Lemma wp_host {A} (f : W -> A * W) Q st :
  (forall a w, f (world st) = (a, w) -> Q (Ok a) (put_world w st)) ->
  wp (host f) Q st.
Proof.
  unfold wp, host. intros H. destruct (f (world st)) as [a w] eqn:E.
  simpl. now apply H.
Qed.

Lemma wp_get_service name s Q st :
  Dict.get name (services (mgr st)) = Some s ->
  Q (Ok s) st -> wp (get_service name) Q st.
Proof.
  intros Hs HQ. unfold wp, get_service, mbind, get_mgr. cbn. rewrite Hs. exact HQ.
Qed.

Lemma wp_upd_service name f s Q st :
  Dict.get name (services (mgr st)) = Some s ->
  Q (Ok tt) (put_services (Dict.set name (f s) (services (mgr st))) st) ->
  wp (upd_service name f) Q st.
Proof.
  intros Hs HQ. unfold wp, upd_service, mbind, get_service, get_mgr.
  cbn. rewrite Hs. exact HQ.
Qed.

Lemma wp_keeps_mgr {A} (m : @M W A) Q st :
  @keeps_mgr W _ m ->
  (forall r st', mgr st' = mgr st -> Q r st') -> wp m Q st.
Proof. intros Hk H. apply H, Hk. Qed.

Lemma keeps_mgr_host {A} (f : W -> A * W) : @keeps_mgr W _ (host f).
Proof. intros st. unfold host. now destruct (f (world st)). Qed.

Lemma keeps_mgr_logger l m : @keeps_mgr W _ (logger l m).
Proof. now intros st. Qed.

Lemma keeps_mgr_ret {A} (a : A) : @keeps_mgr W _ (ret a).
Proof. now intros st. Qed.

Lemma keeps_mgr_raise {A} e : @keeps_mgr W A (raise e).
Proof. now intros st. Qed.

Lemma keeps_mgr_bind {A B} (m : @M W A) (f : A -> @M W B) :
  @keeps_mgr W _ m -> (forall a, @keeps_mgr W _ (f a)) -> @keeps_mgr W _ (mbind m f).
Proof.
  intros Hm Hf st. unfold mbind. specialize (Hm st).
  destruct (m st) as [[a|e] st']; simpl in *; [|assumption].
  now rewrite Hf.
Qed.

Lemma keeps_mgr_try {A} (body : @M W A) handler :
  @keeps_mgr W _ body -> (forall e, @keeps_mgr W _ (handler e)) ->
  @keeps_mgr W _ (try_catch body handler).
Proof.
  intros Hm Hf st. unfold try_catch. specialize (Hm st).
  destruct (body st) as [[a|e] st']; simpl in *; [assumption|].
  now rewrite Hf.
Qed.

Lemma keeps_mgr_get_service name : @keeps_mgr W _ (get_service name).
Proof.
  intros st. unfold get_service, mbind, get_mgr. cbn.
  now destruct (Dict.get name (services (mgr st))).
Qed.

Lemma keeps_mgr_process_exists p : @keeps_mgr W _ (_process_exists os p).
Proof.
  apply keeps_mgr_bind; [apply keeps_mgr_host|].
  intros [|e|e]; first [apply keeps_mgr_raise|apply keeps_mgr_ret].
Qed.

Lemma keeps_mgr_kill p sig : @keeps_mgr W _ (kill os p sig).
Proof.
  apply keeps_mgr_bind; [apply keeps_mgr_host|].
  intros [|e|e]; first [apply keeps_mgr_raise|apply keeps_mgr_ret].
Qed.

Lemma keeps_mgr_wait_exit n p : @keeps_mgr W _ (wait_exit os n p).
Proof.
  induction n as [|n IH]; simpl; [apply keeps_mgr_ret|].
  apply keeps_mgr_bind; [apply keeps_mgr_process_exists|].
  intros [|]; [|apply keeps_mgr_ret].
  apply keeps_mgr_bind; [apply keeps_mgr_host|intros; exact IH].
Qed.

Lemma keeps_mgr_remove_cgroup name : @keeps_mgr W _ (_remove_service_cgroup os name).
Proof.
  apply keeps_mgr_try; [|intros; apply keeps_mgr_logger].
  apply keeps_mgr_bind; [apply keeps_mgr_get_service|].
  intros s. destruct (String.eqb (cgroup s) ""); [apply keeps_mgr_ret|].
  apply keeps_mgr_bind; [apply keeps_mgr_host|].
  intros [|]; [|apply keeps_mgr_ret].
  apply keeps_mgr_bind; [apply keeps_mgr_host|].
  intros [e|]; [apply keeps_mgr_raise|apply keeps_mgr_ret].
Qed.

(** [kill] and [wait_exit] ask the host what the protocol asks. *)
Lemma put_world_id st : put_world (world st) st = st.
Proof. now destruct st. Qed.

Lemma kill_signal_sent p sig st :
  kill os p sig st
  = (match fst (signal_sent os p sig (world st)) with
     | None => Ok tt
     | Some e => Raise e
     end,
     put_world (snd (signal_sent os p sig (world st))) st).
Proof.
  unfold kill, signal_sent, mbind, host.
  destruct (os_kill os p sig (world st)) as [[|e|e] w]; reflexivity.
Qed.

Lemma wait_exit_poll_exit n p :
  forall st,
    wait_exit os n p st
    = (fst (poll_exit os n p (world st)),
       put_world (snd (poll_exit os n p (world st))) st).
Proof.
  induction n as [|n IH]; intros st; cbn [wait_exit poll_exit].
  - unfold ret. cbn [fst snd]. now rewrite put_world_id.
  - cbv [mbind _process_exists host ret raise].
    destruct (os_kill os p SIG0 (world st)) as [[|e|e] w]; cbn [fst snd];
      [|reflexivity|reflexivity].
    rewrite IH. reflexivity.
Qed.

(** [_remove_service_cgroup] never raises, and releases the quota handle
    of the record. *)
Lemma remove_cgroup_returns name st :
  fst (_remove_service_cgroup os name st) = Ok tt.
Proof.
  unfold _remove_service_cgroup, try_catch, mbind, get_service, get_mgr. cbn.
  destruct (Dict.get name (services (mgr st))) as [s|]; simpl; [|reflexivity].
  destruct (String.eqb (cgroup s) ""); simpl; [reflexivity|].
  unfold host. destruct (os_path_exists os (cgroup s) (world st)) as [[|] w];
    cbn; [|reflexivity].
  destruct (os_rmdir os (cgroup s) w) as [[e|] w']; reflexivity.
Qed.

Lemma remove_cgroup_world name s st :
  Dict.get name (services (mgr st)) = Some s ->
  world (snd (_remove_service_cgroup os name st))
  = release_quota os (cgroup s) (world st).
Proof.
  intros Hs.
  unfold _remove_service_cgroup, release_quota, try_catch, mbind, get_service,
    get_mgr. cbn. rewrite Hs. cbn.
  destruct (String.eqb (cgroup s) ""); cbn; [reflexivity|].
  unfold host. destruct (os_path_exists os (cgroup s) (world st)) as [[|] w];
    cbn; [|reflexivity].
  destruct (os_rmdir os (cgroup s) w) as [[e|] w']; reflexivity.
Qed.

Ltac wp_step :=
  lazymatch goal with
  | |- wp (mbind _ _) _ _ => apply wp_bind
  | |- wp (try_catch _ _) _ _ => apply wp_try
  | |- wp (ret _) _ _ => apply wp_ret
  | |- wp (raise _) _ _ => apply wp_raise
  | |- wp (logger _ _) _ _ => apply wp_logger
  | |- wp get_mgr _ _ => apply wp_get_mgr
  end; cbn beta iota.

Lemma wp_kill p sig (Q : exc unit -> state -> Prop) st :
  Q (match fst (signal_sent os p sig (world st)) with
     | None => Ok tt
     | Some e => Raise e
     end)
    (put_world (snd (signal_sent os p sig (world st))) st) ->
  wp (kill os p sig) Q st.
Proof. intros H. unfold wp. rewrite kill_signal_sent. exact H. Qed.

Lemma wp_wait_exit n p (Q : exc bool -> state -> Prop) st :
  Q (fst (poll_exit os n p (world st)))
    (put_world (snd (poll_exit os n p (world st))) st) ->
  wp (wait_exit os n p) Q st.
Proof. intros H. unfold wp. rewrite wait_exit_poll_exit. exact H. Qed.

Lemma wp_remove_cgroup name s (Q : exc unit -> state -> Prop) st :
  Dict.get name (services (mgr st)) = Some s ->
  (forall st', mgr st' = mgr st ->
               world st' = release_quota os (cgroup s) (world st) ->
               Q (Ok tt) st') ->
  wp (_remove_service_cgroup os name) Q st.
Proof.
  intros Hs H. unfold wp. rewrite remove_cgroup_returns.
  apply H; [apply keeps_mgr_remove_cgroup|now apply remove_cgroup_world].
Qed.

Ltac mgr_simpl :=
  cbn [mgr services kvm_resources sentinel_cgroup running
       put_services put_log put_world].

Ltac mgr_rw :=
  repeat (mgr_simpl;
          match goal with
          | H : mgr ?x = _ |- context [mgr ?x] => rewrite H
          end);
  mgr_simpl.

Ltac wp_upd :=
  eapply wp_upd_service;
  [ mgr_rw; apply get_set_same | cbn beta iota ].

(** [stop_service] on a registered service: it asks of the host what
    the termination protocol asks, and ends with the record stopped or, if
    the protocol was ended by an exception, failed. *)
Ltac world_simpl :=
  cbn [world mgr log services kvm_resources sentinel_cgroup running
       put_services put_log put_world fst snd].

Lemma stop_service_protocol name s st :
  Dict.get name (services (mgr st)) = Some s ->
  wp (stop_service os name)
    (fun r st' =>
       match fst (stop_outcome os s (world st)) with
       | None =>
           r = Ok true
           /\ world st' = release_quota os (cgroup s)
                            (snd (stop_outcome os s (world st)))
           /\ services (mgr st')
              = Dict.set name (stopped_record s) (services (mgr st))
       | Some e =>
           r = Ok false
           /\ world st' = snd (stop_outcome os s (world st))
           /\ services (mgr st')
              = Dict.set name (stop_failed_record e s) (services (mgr st))
       end) st.
Proof.
  intros Hs. unfold stop_service.
  wp_step. wp_step. unfold Dict.has. cbn [mgr put_log]. rewrite Hs. cbn [negb].
  wp_step. wp_step. wp_step. eapply wp_upd_service; [exact Hs|]. cbn beta iota.
  wp_step. wp_step.
  eapply wp_get_service; [mgr_simpl; apply get_set_same|]. cbn beta iota.
  change (pid_set (with_status Stopping s)) with (pid_set s).
  assert (Htail : forall st1 : state,
    services (mgr st1) = Dict.set name (with_status Stopping s) (services (mgr st)) ->
    wp (mbind (_remove_service_cgroup os name)
          (fun _ => mbind (upd_service name (with_status Stopped))
             (fun _ => mbind (upd_service name (with_pid None))
                (fun _ => mbind (upd_service name (with_start_time None))
                   (fun _ => mbind (logger INFO (StoppedService name))
                      (fun _ => ret true))))))
       (fun r st' =>
          match r with
          | Ok b =>
              Ok b = Ok true
              /\ world st' = release_quota os (cgroup s) (world st1)
              /\ services (mgr st')
                 = Dict.set name (stopped_record s) (services (mgr st))
          | Raise e => False
          end) st1).
  { intros st1 H1.
    wp_step.
    apply (wp_remove_cgroup name (with_status Stopping s));
      [rewrite H1; apply get_set_same|].
    intros st2 H2 Hw2.
    wp_step. eapply wp_upd_service; [rewrite H2, H1; apply get_set_same|].
    cbn beta iota. wp_step. wp_upd. wp_step. wp_upd.
    wp_step. wp_step. wp_step. world_simpl.
    split; [reflexivity|]. split; [exact Hw2|].
    rewrite H2, H1, !set_set. reflexivity. }
  assert (Hhandler : forall e (st1 : state),
    services (mgr st1) = Dict.set name (with_status Stopping s) (services (mgr st)) ->
    wp (mbind (upd_service name (with_status Error))
          (fun _ => mbind (upd_service name (with_last_error (Some e)))
             (fun _ => mbind (logger ERROR (StopError name e))
                (fun _ => ret false))))
       (fun r st' =>
          r = Ok false
          /\ world st' = world st1
          /\ services (mgr st')
             = Dict.set name (stop_failed_record e s) (services (mgr st))) st1).
  { intros e st1 H1.
    wp_step. eapply wp_upd_service; [rewrite H1; apply get_set_same|].
    cbn beta iota. wp_step. wp_upd. wp_step. wp_step. wp_step. world_simpl.
    split; [reflexivity|]. split; [reflexivity|].
    rewrite H1, !set_set. reflexivity. }
  unfold stop_outcome.
  destruct (pid_set s) as [p|] eqn:Hp.
  - unfold terminate.
    wp_step. wp_step. apply wp_kill. world_simpl.
    destruct (signal_sent os p SIGTERM (world st)) as [[e|] w1]; world_simpl.
    { apply Hhandler. reflexivity. }
    wp_step. apply wp_wait_exit. world_simpl.
    destruct (poll_exit os 10 p w1) as [[[|]|e] w2]; world_simpl.
    + wp_step. eapply wp_conseq; [|apply Htail; reflexivity].
      cbn beta. intros [b|e] st'; [now intros (-> & ? & ?)|intros []].
    + apply wp_kill. world_simpl.
      destruct (signal_sent os p SIGKILL w2) as [[e|] w3]; world_simpl.
      { apply Hhandler. reflexivity. }
      eapply wp_conseq; [|apply Htail; reflexivity].
      cbn beta. intros [b|e] st'; [now intros (-> & ? & ?)|intros []].
    + apply Hhandler. reflexivity.
  - world_simpl. wp_step. wp_step.
    eapply wp_conseq; [|apply Htail; reflexivity].
    cbn beta. intros [b|e] st'; [|intros []].
    intros (Hb & Hw & Hsv). injection Hb as ->. auto.
Qed.

Lemma stop_outcome_without_pid s (w : W) :
  pid_set s = None -> stop_outcome os s w = (None, w).
Proof. intros H. unfold stop_outcome. now rewrite H. Qed.

Lemma stop_service_outcome name s st :
  Dict.get name (services (mgr st)) = Some s ->
  wp (stop_service os name)
    (fun r st' =>
       (r = Ok true
        /\ services (mgr st')
           = Dict.set name (stopped_record s) (services (mgr st)))
       \/ (exists e, r = Ok false /\ pid_set s <> None
           /\ services (mgr st')
              = Dict.set name (stop_failed_record e s) (services (mgr st)))) st.
Proof.
  intros Hs. eapply wp_conseq; [|apply (stop_service_protocol name s st Hs)].
  cbn beta. intros r st' H.
  destruct (fst (stop_outcome os s (world st))) as [e|] eqn:E.
  - right. exists e. destruct H as (H1 & _ & H3).
    repeat split; [exact H1| |exact H3].
    intros Hp. rewrite (stop_outcome_without_pid s _ Hp) in E. discriminate.
  - left. destruct H as (H1 & _ & H3). split; assumption.
Qed.









Lemma keys_registered {V} (d : list (string * V)) n :
  In n (map fst d) -> Dict.has n d = true.
Proof.
  unfold Dict.has. induction d as [|[k v] d IH]; cbn; [intros []|].
  intros [->|Hin]; [now rewrite String.eqb_refl|].
  destruct (String.eqb k n); [reflexivity|auto].
Qed.


(** *** The status query, record by record *)






(** *** Admission control and start *)

Lemma wp_any {A} (m : @M W A) (Q : exc A -> state -> Prop) st :
  (forall r st', Q r st') -> wp m Q st.
Proof. intros H. apply H. Qed.

Lemma wp_upd_service_any name f (Q : exc unit -> state -> Prop) st :
  (forall s, Dict.get name (services (mgr st)) = Some s ->
             Q (Ok tt) (put_services (Dict.set name (f s) (services (mgr st))) st)) ->
  (forall e, Q (Raise e) st) ->
  wp (upd_service name f) Q st.
Proof.
  intros Hok Hraise. unfold wp, upd_service, mbind, get_service, get_mgr. cbn.
  destruct (Dict.get name (services (mgr st))) as [s|] eqn:Hs; cbn.
  - now apply Hok.
  - apply Hraise.
Qed.

Lemma keeps_mgr_write_file path content : @keeps_mgr W _ (write_file os path content).
Proof.
  apply keeps_mgr_bind; [apply keeps_mgr_host|].
  intros [e|]; [apply keeps_mgr_raise|apply keeps_mgr_ret].
Qed.

Lemma keeps_mgr_apply_limits name : @keeps_mgr W _ (_apply_resource_limits os name).
Proof.
  apply keeps_mgr_bind; [apply keeps_mgr_get_service|]. intros s.
  destruct (pid_set s) as [p|]; [|apply keeps_mgr_ret].
  destruct (String.eqb (cgroup s) ""); [apply keeps_mgr_ret|].
  apply keeps_mgr_try; [|intros; apply keeps_mgr_logger].
  apply keeps_mgr_bind.
  { destruct (one_of (type s) _); [|apply keeps_mgr_ret].
    apply keeps_mgr_bind; [apply keeps_mgr_write_file|].
    intros; apply keeps_mgr_logger. }
  intros _. apply keeps_mgr_bind; [|intros; apply keeps_mgr_write_file].
  destruct (String.eqb (type s) "tor"); [apply keeps_mgr_write_file|apply keeps_mgr_ret].
Qed.

(** Whoever calls it, a [start_service] that succeeds leaves the service
    [Running] with a restart count of 0. *)
Lemma start_service_success_resets name st :
  wp (start_service os name)
    (fun r st' =>
       r = Ok true ->
       exists s, Dict.get name (services (mgr st')) = Some s
                 /\ status_of s = Running /\ restart_count s = 0%Z) st.
Proof.
  unfold start_service. wp_step. wp_step.
  destruct (negb (Dict.has name (services (mgr st)))).
  { wp_step. wp_step. wp_step. discriminate. }
  wp_step. apply wp_any. intros [[|]|e] st1; [| |discriminate]; cbn [negb].
  2:{ wp_step. apply wp_upd_service_any; [intros s _|discriminate].
      wp_step. discriminate. }
  wp_step. wp_step. wp_step.
  apply wp_upd_service_any; [intros s0 _|discriminate].
  wp_step.
  assert (Hhandler : forall e st2,
    wp (mbind (upd_service name (with_status Error))
          (fun _ => mbind (upd_service name (with_last_error (Some e)))
             (fun _ => mbind (logger ERROR (StartError name e))
                (fun _ => ret false))))
       (fun (r : exc bool) st' =>
          r = Ok true ->
          exists s, Dict.get name (services (mgr st')) = Some s
                    /\ status_of s = Running /\ restart_count s = 0%Z) st2).
  { intros e st2. wp_step.
    apply wp_upd_service_any; [intros s _|discriminate].
    wp_step. apply wp_upd_service_any; [intros s' _|discriminate].
    wp_step. wp_step. wp_step. discriminate. }
  wp_step. apply wp_any. intros [[]|e] st2; [|apply Hhandler].
  wp_step. apply wp_any. intros [[|]|e] st3; [| |apply Hhandler].
  2:{ wp_step. apply wp_upd_service_any; [intros s _|intros; apply Hhandler].
      wp_step. apply wp_upd_service_any; [intros s' _|intros; apply Hhandler].
      wp_step. discriminate. }
  wp_step. apply wp_upd_service_any; [intros s1 Hs1|intros; apply Hhandler].
  wp_step. apply wp_host. intros now w _.
  wp_step. apply wp_upd_service_any; [intros s2 Hs2|intros; apply Hhandler].
  wp_step. apply wp_upd_service_any; [intros s3 Hs3|intros; apply Hhandler].
  revert Hs3. mgr_simpl. rewrite !get_set_same. intros [= <-].
  revert Hs2. mgr_simpl. rewrite !get_set_same. intros [= <-].
  wp_step. apply wp_keeps_mgr; [apply keeps_mgr_apply_limits|].
  intros [[]|e] st4 H4; [|apply Hhandler].
  wp_step. wp_step. wp_step. intros _. mgr_rw.
  eexists. split; [apply get_set_same|]. split; reflexivity.
Qed.

(** A memory-heavy service on a host short of memory: [start_service]
    returns [False], logs the denial and records the diagnostic; nothing
    else changes, the status in particular. *)
Lemma start_service_denied name s st (m : Z) :
  Dict.get name (services (mgr st)) = Some s ->
  one_of (type s) ["xray"; "adguardhome"; "hysteria2"] = true ->
  Dict.get "memory_available_mb" (kvm_resources (mgr st)) = Some (VInt m) ->
  (m < 512)%Z ->
  start_service os name st
  = (Ok false,
     put_services
       (Dict.set name (with_last_error (Some "Insufficient resources") s)
          (services (mgr st)))
       (put_log (log st ++ [(ERROR, LowMemory name)]) st)).
Proof.
  intros Hs Hheavy Hmem Hlt.
  unfold start_service, _check_resources, upd_service, get_service, mbind,
    get_mgr, logger, ret, set_services, py_lt, Dict.has.
  apply Z.ltb_lt in Hlt.
  repeat (progress (cbn -[one_of]; rewrite ?Hs, ?Hheavy, ?Hmem, ?Hlt)).
  reflexivity.
Qed.

(** For a service outside the memory-heavy class, admission never denies,
    whatever the CPU load: [_check_resources] returns [True] and leaves
    the manager alone. *)
Lemma check_resources_cpu_never_denies name s st :
  Dict.get name (services (mgr st)) = Some s ->
  one_of (type s) ["xray"; "adguardhome"; "hysteria2"] = false ->
  fst (_check_resources os name st) = Ok true
  /\ mgr (snd (_check_resources os name st)) = mgr st.
Proof.
  intros Hs Hlight.
  unfold _check_resources, get_service, mbind, get_mgr, ret.
  repeat (progress (cbn -[one_of]; rewrite ?Hs, ?Hlight)).
  destruct (one_of (type s) ["xray"; "sing-box"]); [|split; reflexivity].
  unfold host. destruct (os_cpu_percent os (world st)) as [cpu w]. cbn -[one_of].
  destruct (negb (Qle_bool cpu 80)); split; reflexivity.
Qed.

(** *** The registry is fixed

    Apart from [register_service], no method adds, removes or reorders a
    registered name, and none changes the resource figures. *)

Lemma has_keys {V} (k : string) (d d' : list (string * V)) :
  map fst d' = map fst d -> Dict.has k d' = Dict.has k d.
Proof.
  unfold Dict.has. revert d'.
  induction d as [|[k0 v0] d IH]; intros [|[k1 v1] d'] H; cbn in *;
    try discriminate; [reflexivity|].
  injection H as -> H. destruct (String.eqb k0 k); [reflexivity|]. now apply IH.
Qed.

Lemma keeps_registry_of_mgr {A} (m : @M W A) :
  @keeps_mgr W _ m -> @keeps_registry W _ m.
Proof. intros H st. now rewrite H. Qed.

Lemma keeps_registry_bind {A B} (m : @M W A) (f : A -> @M W B) :
  @keeps_registry W _ m -> (forall a, @keeps_registry W _ (f a)) ->
  @keeps_registry W _ (mbind m f).
Proof.
  intros Hm Hf st. unfold mbind. specialize (Hm st).
  destruct (m st) as [[a|e] st']; cbn [fst snd] in *; [|assumption].
  destruct (Hf a st') as [H1 H2]. destruct Hm as [H3 H4]. split; congruence.
Qed.

Lemma keeps_registry_try {A} (body : @M W A) handler :
  @keeps_registry W _ body -> (forall e, @keeps_registry W _ (handler e)) ->
  @keeps_registry W _ (try_catch body handler).
Proof.
  intros Hm Hf st. unfold try_catch. specialize (Hm st).
  destruct (body st) as [[a|e] st']; cbn [fst snd] in *; [assumption|].
  destruct (Hf e st') as [H1 H2]. destruct Hm as [H3 H4]. split; congruence.
Qed.

Lemma keeps_registry_upd_service name f : @keeps_registry W _ (upd_service name f).
Proof.
  intros st. unfold upd_service, mbind, get_service, get_mgr. cbn.
  destruct (Dict.get name (services (mgr st))) as [s|] eqn:Hs; cbn; [|now split].
  split; [|reflexivity]. apply keys_set. unfold Dict.has. now rewrite Hs.
Qed.

Lemma keeps_mgr_get_mgr : @keeps_mgr W _ get_mgr.
Proof. now intros st. Qed.

Ltac kr_step :=
  lazymatch goal with
  | |- keeps_registry (upd_service _ _) => apply keeps_registry_upd_service
  | |- keeps_registry (mbind _ _) => apply keeps_registry_bind; [|intros ?]
  | |- keeps_registry (try_catch _ _) => apply keeps_registry_try; [|intros ?]
  | |- keeps_registry (ret _) => apply keeps_registry_of_mgr, keeps_mgr_ret
  | |- keeps_registry (raise _) => apply keeps_registry_of_mgr, keeps_mgr_raise
  | |- keeps_registry (logger _ _) => apply keeps_registry_of_mgr, keeps_mgr_logger
  | |- keeps_registry (host _) => apply keeps_registry_of_mgr, keeps_mgr_host
  | |- keeps_registry get_mgr => apply keeps_registry_of_mgr, keeps_mgr_get_mgr
  | |- keeps_registry (get_service _) =>
      apply keeps_registry_of_mgr, keeps_mgr_get_service
  | |- keeps_registry (kill _ _ _) => apply keeps_registry_of_mgr, keeps_mgr_kill
  | |- keeps_registry (wait_exit _ _ _) =>
      apply keeps_registry_of_mgr, keeps_mgr_wait_exit
  | |- keeps_registry (_process_exists _ _) =>
      apply keeps_registry_of_mgr, keeps_mgr_process_exists
  | |- keeps_registry (_remove_service_cgroup _ _) =>
      apply keeps_registry_of_mgr, keeps_mgr_remove_cgroup
  | |- keeps_registry (_apply_resource_limits _ _) =>
      apply keeps_registry_of_mgr, keeps_mgr_apply_limits
  | |- keeps_registry (if ?c then _ else _) => destruct c
  | |- keeps_registry (match ?x with _ => _ end) => destruct x
  end.

Ltac kr := repeat kr_step.

Lemma keeps_registry_launch kind name : @keeps_registry W _ (launch os kind name).
Proof. unfold launch. kr. Qed.

Lemma keeps_registry_start_backend name :
  @keeps_registry W _ (start_backend os name).
Proof.
  unfold start_backend, _start_wireguard, _start_openvpn, _start_xray,
    _start_shadowsocks, _start_tor, _start_dpi_bypass, _start_generic.
  kr; apply keeps_registry_launch.
Qed.

Lemma keeps_registry_check_resources name :
  @keeps_registry W _ (_check_resources os name).
Proof. unfold _check_resources, py_lt. kr. Qed.

Lemma keeps_registry_start_service name :
  @keeps_registry W _ (start_service os name).
Proof.
  unfold start_service, _create_service_cgroup.
  kr; first [apply keeps_registry_check_resources|apply keeps_registry_start_backend].
Qed.

Lemma keeps_registry_stop_service name :
  @keeps_registry W _ (stop_service os name).
Proof. unfold stop_service. kr. Qed.

Lemma keeps_registry_status_loop names :
  @keeps_registry W _ (status_loop os names).
Proof.
  induction names as [|n names IH]; cbn [status_loop]; [kr|].
  unfold status_of_service, refresh_usage. kr. exact IH.
Qed.

Lemma keeps_registry_get_status : @keeps_registry W _ (get_status os).
Proof. unfold get_status. kr. apply keeps_registry_status_loop. Qed.

Lemma keeps_registry_monitor_service name :
  @keeps_registry W _ (monitor_service os name).
Proof. unfold monitor_service. kr; apply keeps_registry_start_service. Qed.

Lemma keeps_registry_for_each {A} (l : list A) (f : A -> @M W unit) :
  (forall a, @keeps_registry W _ (f a)) -> @keeps_registry W _ (for_each l f).
Proof.
  intros Hf. induction l as [|a l IH]; cbn [for_each]; [kr|].
  apply keeps_registry_bind; [apply Hf|intros _; exact IH].
Qed.

Lemma keeps_registry_monitor_round : @keeps_registry W _ (monitor_round os).
Proof.
  unfold monitor_round. kr.
  apply keeps_registry_for_each. intros n. apply keeps_registry_monitor_service.
Qed.

Lemma keeps_registry_monitor_loop rounds :
  @keeps_registry W _ (_monitor_loop os rounds).
Proof.
  induction rounds as [|k IH]; cbn [_monitor_loop]; [kr|].
  kr; [apply keeps_registry_monitor_round|exact IH].
Qed.

(** *** Methods that never raise *)

Lemma wp_exact {A} (m : @M W A) (Q : exc A -> state -> Prop) st :
  Q (fst (m st)) (snd (m st)) -> wp m Q st.
Proof. exact (fun H => H). Qed.

Lemma wp_keeps_registry {A} (m : @M W A) (Q : exc A -> state -> Prop) st :
  @keeps_registry W _ m ->
  (forall r st',
     map fst (services (mgr st')) = map fst (services (mgr st)) ->
     kvm_resources (mgr st') = kvm_resources (mgr st) -> Q r st') ->
  wp m Q st.
Proof. intros Hk H. destruct (Hk st) as [H1 H2]. now apply H. Qed.

(** Admission is decided by the memory figure alone. *)
Lemma check_resources_decided name s st (m : Z) :
  Dict.get name (services (mgr st)) = Some s ->
  Dict.get "memory_available_mb" (kvm_resources (mgr st)) = Some (VInt m) ->
  fst (_check_resources os name st)
  = Ok (negb (one_of (type s) ["xray"; "adguardhome"; "hysteria2"] && (m <? 512)%Z))
  /\ mgr (snd (_check_resources os name st)) = mgr st.
Proof.
  intros Hs Hmem.
  unfold _check_resources, get_service, mbind, get_mgr, ret, py_lt.
  repeat (progress (cbn -[one_of]; rewrite ?Hs, ?Hmem)).
  destruct (one_of (type s) ["xray"; "adguardhome"; "hysteria2"]);
    repeat (progress (cbn -[one_of]; rewrite ?Hmem)).
  - destruct (m <? 512)%Z; cbn -[one_of]; [split; reflexivity|].
    destruct (one_of (type s) ["xray"; "sing-box"]); [|split; reflexivity].
    unfold host. destruct (os_cpu_percent os (world st)) as [cpu w]. cbn -[one_of].
    destruct (negb (Qle_bool cpu 80)); split; reflexivity.
  - destruct (one_of (type s) ["xray"; "sing-box"]); [|split; reflexivity].
    unfold host. destruct (os_cpu_percent os (world st)) as [cpu w]. cbn -[one_of].
    destruct (negb (Qle_bool cpu 80)); split; reflexivity.
Qed.

Lemma start_service_returns name st (m : Z) :
  Dict.get "memory_available_mb" (kvm_resources (mgr st)) = Some (VInt m) ->
  exists b, fst (start_service os name st) = Ok b.
Proof.
  intros Hmem.
  change (wp (start_service os name) (fun r _ => exists b, r = Ok b) st).
  unfold start_service. wp_step. wp_step.
  destruct (Dict.has name (services (mgr st))) eqn:Hreg; cbn [negb].
  2:{ wp_step. wp_step. wp_step. now exists false. }
  destruct (has_true _ _ Hreg) as [s Hs].
  wp_step. apply wp_exact.
  destruct (check_resources_decided name s st m Hs Hmem) as [Hr Hm].
  rewrite Hr. cbn beta iota.
  set (st1 := snd (_check_resources os name st)) in *.
  destruct (negb (negb _)).
  { wp_step. eapply wp_upd_service; [rewrite Hm; exact Hs|].
    wp_step. now exists false. }
  wp_step. wp_step. wp_step.
  eapply wp_upd_service; [mgr_rw; exact Hs|]. cbn beta iota.
  wp_step. apply wp_keeps_registry.
  { unfold _create_service_cgroup. kr. apply keeps_registry_start_backend. }
  intros [b|e] st2 Hkeys _; [now exists b|].
  assert (Hreg2 : Dict.has name (services (mgr st2)) = true).
  { rewrite (has_keys _ _ _ Hkeys). mgr_simpl. unfold Dict.has.
    now rewrite get_set_same. }
  destruct (has_true _ _ Hreg2) as [s2 Hs2].
  wp_step. eapply wp_upd_service; [exact Hs2|]. cbn beta iota.
  wp_step. wp_upd. wp_step. wp_step. wp_step. now exists false.
Qed.

(** *** The recorded PIDs stay within the range of [pid_t] *)

Lemma keeps_pids_of_mgr {A} (m : @M W A) : @keeps_mgr W _ m -> @keeps_pids W _ m any.
Proof. intros H st Hfit. rewrite H. split; [exact Hfit|intros; exact I]. Qed.

Lemma keeps_pids_bind {A B} (m : @M W A) (f : A -> @M W B) P Q :
  @keeps_pids W _ m P -> (forall a, P a -> @keeps_pids W _ (f a) Q) ->
  @keeps_pids W _ (mbind m f) Q.
Proof.
  intros Hm Hf st Hfit. unfold mbind. destruct (Hm st Hfit) as [H1 H2].
  destruct (m st) as [[a|e] st']; cbn [fst snd] in *.
  - apply (Hf a (H2 a eq_refl) st' H1).
  - split; [exact H1|discriminate].
Qed.

Lemma keeps_pids_try {A} (body : @M W A) handler P Q :
  @keeps_pids W _ body P -> (forall e, @keeps_pids W _ (handler e) Q) ->
  (forall a, P a -> Q a) ->
  @keeps_pids W _ (try_catch body handler) Q.
Proof.
  intros Hm Hf HPQ st Hfit. unfold try_catch. destruct (Hm st Hfit) as [H1 H2].
  destruct (body st) as [[a|e] st']; cbn [fst snd] in *.
  - split; [exact H1|]. intros a' [= <-]. apply HPQ, H2. reflexivity.
  - apply (Hf e st' H1).
Qed.

Lemma keeps_pids_any {A} (m : @M W A) P :
  @keeps_pids W _ m P -> @keeps_pids W _ m any.
Proof.
  intros H st Hfit. destruct (H st Hfit) as [H1 _]. split; [exact H1|intros; exact I].
Qed.

Lemma keeps_pids_upd_service name f :
  (forall s, record_fits s -> record_fits (f s)) ->
  @keeps_pids W _ (upd_service name f) any.
Proof.
  intros Hf st Hfit. unfold upd_service, mbind, get_service, get_mgr. cbn.
  destruct (Dict.get name (services (mgr st))) as [s|] eqn:Hs; cbn;
    (split; [|intros; exact I]); [|exact Hfit].
  intros n s' Hs'. cbn in Hs'.
  destruct (String.eqb_spec name n) as [->|Hne].
  - rewrite get_set_same in Hs'. injection Hs' as <-. apply Hf, (Hfit n s Hs).
  - rewrite (get_set_other _ _ _ _ Hne) in Hs'. apply (Hfit n s' Hs').
Qed.

Lemma keeps_pids_launch kind name :
  launches_report_pids os -> @keeps_pids W _ (launch os kind name) obs_fits.
Proof.
  intros Hl st Hfit. unfold launch, mbind, get_service, get_mgr, host. cbn.
  destruct (Dict.get name (services (mgr st))) as [s|]; cbn;
    [|split; [exact Hfit|discriminate]].
  pose proof (Hl kind name (config s) (world st)) as Hobs.
  destruct (os_launch os kind name (config s) (world st)) as [obs w]. cbn in *.
  destruct (setup_error obs); cbn; (split; [exact Hfit|]); [discriminate|].
  now intros a [= <-].
Qed.

Lemma record_fits_with_pid (obs : launch_obs) (s : service) :
  obs_fits obs -> record_fits (with_pid (pid_found obs) s).
Proof. intros H p Hp. exact (H p Hp). Qed.

Ltac kp_step :=
  lazymatch goal with
  | |- keeps_pids (upd_service _ (with_pid (pid_found _))) _ =>
      apply keeps_pids_upd_service; intros ? _; now apply record_fits_with_pid
  | |- keeps_pids (upd_service _ (with_pid None)) _ =>
      apply keeps_pids_upd_service; intros ? _ ? ?; discriminate
  | |- keeps_pids (upd_service _ _) _ =>
      apply keeps_pids_upd_service; intros ? ?; assumption
  | |- keeps_pids (mbind (launch _ _ _) _) _ =>
      eapply keeps_pids_bind; [apply keeps_pids_launch; assumption|intros ? ?]
  | |- keeps_pids (mbind _ _) _ =>
      eapply keeps_pids_bind with (P := any); [|intros ? _]
  | |- keeps_pids (try_catch _ _) _ =>
      eapply keeps_pids_try with (P := any); [|intros ?|intros; exact I]
  | |- keeps_pids (ret _) _ => apply keeps_pids_of_mgr, keeps_mgr_ret
  | |- keeps_pids (raise _) _ => apply keeps_pids_of_mgr, keeps_mgr_raise
  | |- keeps_pids (logger _ _) _ => apply keeps_pids_of_mgr, keeps_mgr_logger
  | |- keeps_pids (host _) _ => apply keeps_pids_of_mgr, keeps_mgr_host
  | |- keeps_pids get_mgr _ => apply keeps_pids_of_mgr, keeps_mgr_get_mgr
  | |- keeps_pids (get_service _) _ =>
      apply keeps_pids_of_mgr, keeps_mgr_get_service
  | |- keeps_pids (_process_exists _ _) _ =>
      apply keeps_pids_of_mgr, keeps_mgr_process_exists
  | |- keeps_pids (_apply_resource_limits _ _) _ =>
      apply keeps_pids_of_mgr, keeps_mgr_apply_limits
  | |- keeps_pids (if ?c then _ else _) _ => destruct c
  | |- keeps_pids (match ?x with _ => _ end) _ => destruct x
  end.

Ltac kp := repeat kp_step.

Lemma keeps_pids_start_backend name :
  launches_report_pids os -> @keeps_pids W _ (start_backend os name) any.
Proof.
  intros Hl.
  unfold start_backend, _start_wireguard, _start_openvpn, _start_xray,
    _start_shadowsocks, _start_tor, _start_dpi_bypass, _start_generic.
  kp.
Qed.

Lemma keeps_pids_check_resources name :
  @keeps_pids W _ (_check_resources os name) any.
Proof. unfold _check_resources, py_lt. kp. Qed.

Lemma keeps_pids_start_service name :
  launches_report_pids os -> @keeps_pids W _ (start_service os name) any.
Proof.
  intros Hl. unfold start_service, _create_service_cgroup.
  kp; first [apply keeps_pids_check_resources
            |now apply keeps_pids_start_backend].
Qed.

Lemma keeps_pids_monitor_service name :
  launches_report_pids os -> @keeps_pids W _ (monitor_service os name) any.
Proof.
  intros Hl. unfold monitor_service. kp; now apply keeps_pids_start_service.
Qed.

Lemma pid_set_pid (s : service) (p : Z) : pid_set s = Some p -> pid s = Some p.
Proof.
  unfold pid_set. destruct (pid s) as [[|q|q]|]; intros H;
    first [discriminate|exact H].
Qed.

Lemma monitor_service_returns name st (m : Z) :
  kill_raises_oserror_only os ->
  pids_fit (mgr st) ->
  Dict.has name (services (mgr st)) = true ->
  Dict.get "memory_available_mb" (kvm_resources (mgr st)) = Some (VInt m) ->
  fst (monitor_service os name st) = Ok tt.
Proof.
  intros Hkill Hfit Hreg Hmem. destruct (has_true _ _ Hreg) as [s Hs].
  change (wp (monitor_service os name) (fun r _ => r = Ok tt) st).
  unfold monitor_service. wp_step. eapply wp_get_service; [exact Hs|].
  cbn beta iota.
  destruct (status_of s); try (wp_step; reflexivity).
  destruct (pid_set s) as [p|] eqn:Hp; [|wp_step; reflexivity].
  assert (Hrange : fits_pid_t p) by (apply (Hfit name s Hs), pid_set_pid, Hp).
  unfold _process_exists. wp_step. wp_step. apply wp_host. intros r w Hw.
  destruct r as [|e|e]; wp_step;
    [reflexivity|
    |exfalso; apply (Hkill p SIG0 (world st) e Hrange); now rewrite Hw].
  wp_step. wp_step. wp_step.
  eapply wp_upd_service; [mgr_simpl; exact Hs|]. cbn beta iota.
  wp_step. eapply wp_get_service; [mgr_simpl; apply get_set_same|].
  cbn beta iota.
  match goal with |- context [if ?c then _ else _] => destruct c end.
  - wp_step. wp_step. wp_step. apply wp_exact.
    match goal with
    | |- context [start_service os name ?x] =>
        destruct (start_service_returns name x m Hmem) as [b Hb]
    end.
    rewrite Hb. cbn beta iota. wp_step. reflexivity.
  - wp_step. wp_upd. wp_upd. reflexivity.
Qed.

Lemma monitor_pass_returns names :
  kill_raises_oserror_only os ->
  launches_report_pids os ->
  forall st (m : Z),
    pids_fit (mgr st) ->
    (forall n, In n names -> Dict.has n (services (mgr st)) = true) ->
    Dict.get "memory_available_mb" (kvm_resources (mgr st)) = Some (VInt m) ->
    fst (for_each names (monitor_service os) st) = Ok tt
    /\ pids_fit (mgr (snd (for_each names (monitor_service os) st))).
Proof.
  intros Hkill Hl.
  induction names as [|n names IH]; intros st m Hfit Hreg Hmem;
    [split; [reflexivity|exact Hfit]|].
  cbn [for_each]. unfold mbind.
  pose proof (monitor_service_returns n st m Hkill Hfit
                (Hreg n (or_introl eq_refl)) Hmem) as Hr.
  destruct (keeps_registry_monitor_service n st) as [Hk Hv].
  destruct (keeps_pids_monitor_service n Hl st Hfit) as [Hfit1 _].
  destruct (monitor_service os n st) as [[[]|e] st1]; cbn [fst snd] in *;
    [|discriminate].
  apply (IH st1 m).
  - exact Hfit1.
  - intros k Hin. rewrite (has_keys _ _ _ Hk). apply Hreg. now right.
  - now rewrite Hv.
Qed.

Lemma monitor_round_returns st (m : Z) :
  kill_raises_oserror_only os ->
  launches_report_pids os ->
  pids_fit (mgr st) ->
  Dict.get "memory_available_mb" (kvm_resources (mgr st)) = Some (VInt m) ->
  fst (monitor_round os st) = Ok tt /\ pids_fit (mgr (snd (monitor_round os st))).
Proof.
  intros Hkill Hl Hfit Hmem. unfold monitor_round, mbind, get_mgr. cbn [fst snd].
  pose proof (monitor_pass_returns (map fst (services (mgr st))) Hkill Hl st m
                Hfit (fun n Hn => keys_registered _ n Hn) Hmem) as [Hr Hfit1].
  destruct (for_each _ _ st) as [[[]|e] st1]; cbn [fst snd] in *; [|discriminate].
  unfold host. split; [reflexivity|exact Hfit1].
Qed.

Lemma monitor_loop_returns rounds :
  kill_raises_oserror_only os ->
  launches_report_pids os ->
  forall st (m : Z),
    pids_fit (mgr st) ->
    Dict.get "memory_available_mb" (kvm_resources (mgr st)) = Some (VInt m) ->
    fst (_monitor_loop os rounds st) = Ok tt.
Proof.
  intros Hkill Hl.
  induction rounds as [|k IH]; intros st m Hfit Hmem; [reflexivity|].
  cbn [_monitor_loop]. unfold mbind, get_mgr. cbn [fst snd].
  destruct (running (mgr st)); [|reflexivity].
  pose proof (monitor_round_returns st m Hkill Hl Hfit Hmem) as [Hr Hfit1].
  destruct (keeps_registry_monitor_round st) as [_ Hv].
  destruct (monitor_round os st) as [[[]|e] st1]; cbn [fst snd] in *;
    [|discriminate].
  apply (IH st1 m); [exact Hfit1|]. now rewrite Hv.
Qed.

(** A [start_service] that succeeds leaves the service [Running], with a
    start time and a restart count of 0. *)
Lemma start_service_success_record name st :
  wp (start_service os name)
    (fun r st' =>
       r = Ok true ->
       exists s, Dict.get name (services (mgr st')) = Some s
                 /\ status_of s = Running /\ restart_count s = 0%Z
                 /\ start_time s <> None) st.
Proof.
  unfold start_service. wp_step. wp_step.
  destruct (negb (Dict.has name (services (mgr st)))).
  { wp_step. wp_step. wp_step. discriminate. }
  wp_step. apply wp_any. intros [[|]|e] st1; [| |discriminate]; cbn [negb].
  2:{ wp_step. apply wp_upd_service_any; [intros s _|discriminate].
      wp_step. discriminate. }
  wp_step. wp_step. wp_step.
  apply wp_upd_service_any; [intros s0 _|discriminate].
  wp_step.
  assert (Hhandler : forall e st2,
    wp (mbind (upd_service name (with_status Error))
          (fun _ => mbind (upd_service name (with_last_error (Some e)))
             (fun _ => mbind (logger ERROR (StartError name e))
                (fun _ => ret false))))
       (fun (r : exc bool) st' =>
          r = Ok true ->
          exists s, Dict.get name (services (mgr st')) = Some s
                    /\ status_of s = Running /\ restart_count s = 0%Z
                    /\ start_time s <> None) st2).
  { intros e st2. wp_step.
    apply wp_upd_service_any; [intros s _|discriminate].
    wp_step. apply wp_upd_service_any; [intros s' _|discriminate].
    wp_step. wp_step. wp_step. discriminate. }
  wp_step. apply wp_any. intros [[]|e] st2; [|apply Hhandler].
  wp_step. apply wp_any. intros [[|]|e] st3; [| |apply Hhandler].
  2:{ wp_step. apply wp_upd_service_any; [intros s _|intros; apply Hhandler].
      wp_step. apply wp_upd_service_any; [intros s' _|intros; apply Hhandler].
      wp_step. discriminate. }
  wp_step. apply wp_upd_service_any; [intros s1 Hs1|intros; apply Hhandler].
  wp_step. apply wp_host. intros now w _.
  wp_step. apply wp_upd_service_any; [intros s2 Hs2|intros; apply Hhandler].
  wp_step. apply wp_upd_service_any; [intros s3 Hs3|intros; apply Hhandler].
  revert Hs3. mgr_simpl. rewrite !get_set_same. intros [= <-].
  revert Hs2. mgr_simpl. rewrite !get_set_same. intros [= <-].
  wp_step. apply wp_keeps_mgr; [apply keeps_mgr_apply_limits|].
  intros [[]|e] st4 H4; [|apply Hhandler].
  wp_step. wp_step. wp_step. intros _. mgr_rw.
  eexists. split; [apply get_set_same|]. repeat split. discriminate.
Qed.

(** *** One pass of the monitor over a service *)

Lemma monitor_service_healthy name s st :
  Dict.get name (services (mgr st)) = Some s ->
  (status_of s <> Running
   \/ pid_set s = None
   \/ exists p, pid_set s = Some p
                /\ fst (os_kill os p SIG0 (world st)) = Delivered) ->
  wp (monitor_service os name)
    (fun r st' => r = Ok tt /\ mgr st' = mgr st /\ log st' = log st) st.
Proof.
  intros Hs H. unfold monitor_service.
  wp_step. eapply wp_get_service; [exact Hs|]. cbn beta iota.
  destruct (status_of s) eqn:E; try (wp_step; repeat split; fail).
  destruct (pid_set s) as [p|] eqn:Hp; [|wp_step; repeat split].
  destruct H as [H|[H|(q & Hq & Hk)]]; [congruence|discriminate|].
  injection Hq as <-. unfold _process_exists.
  wp_step. wp_step. apply wp_host. intros r w Hw.
  rewrite Hw in Hk. cbn in Hk. subst r.
  wp_step. wp_step. repeat split.
Qed.

Lemma monitor_service_threshold name s p e w st :
  Dict.get name (services (mgr st)) = Some s ->
  status_of s = Running ->
  pid_set s = Some p ->
  os_kill os p SIG0 (world st) = (KillOSError e, w) ->
  (2 <= restart_count s)%Z ->
  wp (monitor_service os name)
    (fun r st' =>
       r = Ok tt /\ world st' = w
       /\ services (mgr st')
          = Dict.set name
              (with_last_error (Some "Max restarts exceeded")
                 (with_status Error
                    (with_restart_count (restart_count s + 1) s)))
              (services (mgr st))) st.
Proof.
  intros Hs Hrun Hp Hk Hcount. unfold monitor_service.
  wp_step. eapply wp_get_service; [exact Hs|]. cbn beta iota.
  rewrite Hrun, Hp. unfold _process_exists.
  wp_step. wp_step. apply wp_host. intros r w' Hw.
  rewrite Hk in Hw. injection Hw as <- <-.
  wp_step. wp_step. wp_step. wp_step.
  eapply wp_upd_service; [mgr_simpl; exact Hs|]. cbn beta iota.
  wp_step. eapply wp_get_service; [mgr_simpl; apply get_set_same|].
  cbn beta iota.
  change (restart_count (with_restart_count (restart_count s + 1) s))
    with (restart_count s + 1)%Z.
  replace (restart_count s + 1 <? 3)%Z with false
    by (symmetry; apply Z.ltb_ge; lia).
  wp_step. wp_upd. wp_upd.
  mgr_simpl. rewrite !set_set. repeat split.
Qed.

Lemma start_backend_background name s st :
  Dict.get name (services (mgr st)) = Some s ->
  type s = "xray" \/ type s = "tor" ->
  wp (start_backend os name)
    (fun r st' =>
       r = Ok true ->
       exists p, option_map pid (Dict.get name (services (mgr st')))
                 = Some (Some p)) st.
Proof.
  intros Hs Ht. unfold start_backend.
  wp_step. eapply wp_get_service; [exact Hs|]. cbn beta iota.
  assert (Hrun : forall (kind : string) (d : Q),
    wp (mbind (launch os kind name)
          (fun obs =>
             mbind (host (fun w => (tt, os_sleep os d w)))
               (fun _ => mbind (upd_service name (with_pid (pid_found obs)))
                  (fun _ => ret (is_some (pid_found obs))))))
       (fun r st' =>
          r = Ok true ->
          exists p, option_map pid (Dict.get name (services (mgr st')))
                    = Some (Some p)) st).
  { intros kind d. unfold launch. wp_step. wp_step.
    eapply wp_get_service; [exact Hs|]. cbn beta iota.
    wp_step. apply wp_host. intros obs w _.
    destruct (setup_error obs); wp_step; [discriminate|].
    wp_step. apply wp_host. intros [] w' _.
    wp_step. eapply wp_upd_service; [mgr_simpl; exact Hs|]. cbn beta iota.
    wp_step. destruct (pid_found obs) as [p|]; [|discriminate].
    intros _. exists p. mgr_simpl. now rewrite get_set_same. }
  destruct Ht as [-> | ->]; cbn [String.eqb Ascii.eqb Bool.eqb]; apply Hrun.
Qed.

(** *** The uptime of the status report *)

Lemma uptime_seconds_range (now : Z) (start : option Z) :
  (0 <= uptime_seconds now start < 86400)%Z.
Proof.
  unfold uptime_seconds. destruct start; [apply Z.mod_pos_bound|]; lia.
Qed.

Lemma status_of_service_uptime name st :
  wp (status_of_service os name)
    (fun r _ => forall x, r = Ok x -> (0 <= e_uptime (snd x) < 86400)%Z) st.
Proof.
  unfold status_of_service.
  wp_step. apply wp_any. intros [s|e] st1; [|discriminate].
  wp_step. apply wp_any. intros [[]|e] st2; [|discriminate].
  wp_step. apply wp_any. intros [s'|e] st3; [|discriminate].
  wp_step. apply wp_host. intros now w _.
  wp_step. intros x [= <-]. apply uptime_seconds_range.
Qed.

Lemma status_loop_uptime names :
  forall st,
    wp (status_loop os names)
      (fun r _ =>
         forall entries, r = Ok entries ->
           forall n e, In (n, e) entries -> (0 <= e_uptime e < 86400)%Z) st.
Proof.
  induction names as [|k names IH]; intros st; cbn [status_loop].
  - wp_step. intros entries [= <-] n e [].
  - wp_step. eapply wp_conseq; [|apply status_of_service_uptime].
    cbn beta. intros [x|e] st1 H1; [|discriminate].
    wp_step. eapply wp_conseq; [|apply IH].
    cbn beta. intros [rest|e] st2 H2; [|discriminate].
    wp_step. intros entries [= <-] n e [Heq|Hin].
    + specialize (H1 x eq_refl). now rewrite Heq in H1.
    + exact (H2 rest eq_refl n e Hin).
Qed.

Lemma get_status_uptime st :
  wp (get_status os)
    (fun r _ =>
       forall report, r = Ok report ->
         forall n e, In (n, e) (r_services report) ->
           (0 <= e_uptime e < 86400)%Z) st.
Proof.
  unfold get_status. wp_step. wp_step. wp_step. apply wp_host. intros sys w _.
  wp_step. eapply wp_conseq; [|apply status_loop_uptime].
  cbn beta. intros [entries|e] st1 H1; [|discriminate].
  wp_step. intros report [= <-]. exact (H1 entries eq_refl).
Qed.

End Wp.

(** C10. [register_service name type config] returns without touching the
    host, and installs under [name] a record with status [Stopped], no
    PID, no start time, restart count 0 and no error, whatever was
    registered under that name before; the other records are kept. *)
Theorem register_service_installs_fresh_record :
  forall (W : Type) (st : @state W) (name type : string) (config : pydict),
    let r := register_service name type config st in
    fst r = Ok tt
    /\ world (snd r) = world st
    /\ Dict.get name (services (mgr (snd r)))
       = Some {| Service.name := name; Service.type := type;
                 Service.config := config;
                 status_of := Stopped; pid := None; start_time := None;
                 memory_usage := 0; cpu_usage := 0; restart_count := 0;
                 last_error := None;
                 cgroup := cgroup_path (mgr st) name |}
    /\ forall other, name <> other ->
         Dict.get other (services (mgr (snd r)))
         = Dict.get other (services (mgr st)).
Proof.
  intros W st name type config r. subst r.
  unfold register_service, mbind, get_mgr, set_services, logger; simpl.
  repeat split.
  - apply get_set_same.
  - intros other Hne. now apply get_set_other.
Qed.

(** The theorem at a registry that already holds [relay] and [proxy]:
    registering [proxy] again resets its record and keeps that of [relay]. *)
Lemma register_service_witness :
  let st := {| world := [100%Z]; mgr := two_service_manager; log := [] |} in
  let st' := snd (register_service "proxy" "xray" [] st) in
  "proxy" <> "relay"
  /\ Dict.get "relay" (services (mgr st')) = Dict.get "relay" (services (mgr st))
  /\ option_map status_of (Dict.get "proxy" (services (mgr st'))) = Some Stopped.
Proof.
  intros st st'.
  pose proof (register_service_installs_fresh_record _ st "proxy" "xray" [])
    as (_ & _ & Hp & Ho).
  assert (Hne : "proxy" <> "relay") by discriminate.
  split; [exact Hne|]. split; [exact (Ho "relay" Hne)|].
  subst st'. now rewrite Hp.
Defined.

(** Re-registration discards the runtime state of a running service and
    sends no signal: the process table of the host is unchanged. *)
Example register_service_replaces_running_record :
  let st := {| world := [100%Z];
               mgr := manager_with [("relay", running_service "relay" "tor" 100)];
               log := [] |} in
  let st' := snd (register_service "relay" "tor" [] st) in
  world st' = [100%Z]
  /\ option_map pid (Dict.get "relay" (services (mgr st'))) = Some None
  /\ option_map status_of (Dict.get "relay" (services (mgr st'))) = Some Stopped.
Proof. repeat split. Qed.

(** C3. A service of the memory-heavy class [xray], registered on a host
    that reports 256 MB of available memory: [start_service] returns
    [False] and records "Insufficient resources", no PID is recorded and the
    host is not touched, but the status stays [Stopped]; it does not
    become [Error]. *)
Theorem start_service_denied_keeps_status :
  forall (W : Type) (os : OS W) (w : W),
    let st0 := {| world := w; mgr := empty_manager 256; log := [] |} in
    let st1 := snd (register_service "proxy" "xray" [] st0) in
    let r := start_service os "proxy" st1 in
    fst r = Ok false
    /\ world (snd r) = w
    /\ option_map status_of (Dict.get "proxy" (services (mgr (snd r)))) = Some Stopped
    /\ option_map pid (Dict.get "proxy" (services (mgr (snd r)))) = Some None
    /\ option_map last_error (Dict.get "proxy" (services (mgr (snd r))))
       = Some (Some "Insufficient resources").
Proof. intros W os w. repeat split. Qed.

(** A launch failure, by contrast, is recorded as [Error] with the
    diagnostic "Start failed". *)
Example start_service_launch_failure_is_error :
  let failing :=
    {| os_kill := os_kill dying_backend; os_sleep := os_sleep dying_backend;
       os_now := os_now dying_backend;
       os_cpu_percent := os_cpu_percent dying_backend;
       os_proc_stats := os_proc_stats dying_backend;
       os_path_exists := os_path_exists dying_backend;
       os_makedirs := os_makedirs dying_backend;
       os_rmdir := os_rmdir dying_backend;
       os_write_file := os_write_file dying_backend;
       os_launch := fun _ _ _ w =>
         ({| setup_error := None; returncode := 1; stderr := "boom";
             pid_found := None |}, w);
       os_sys_info := os_sys_info dying_backend |} in
  let st0 := {| world := O; mgr := empty_manager 2048; log := [] |} in
  let st1 := snd (register_service "proxy" "xray" [] st0) in
  let r := start_service failing "proxy" st1 in
  fst r = Ok false
  /\ option_map status_of (Dict.get "proxy" (services (mgr (snd r)))) = Some Error
  /\ option_map last_error (Dict.get "proxy" (services (mgr (snd r))))
     = Some (Some "Start failed").
Proof. repeat split. Qed.

Lemma monitor_loop_step {W : Type} (os : OS W) (n : nat) (st : @state W) :
  running (mgr st) = true ->
  _monitor_loop os (S n) st
  = match monitor_round os st with
    | (Ok _, st') => _monitor_loop os n st'
    | (Raise e, st') => (Raise e, st')
    end.
Proof.
  intros H. cbn [_monitor_loop]. unfold mbind, get_mgr. rewrite H.
  destruct (monitor_round os st) as [[[]|e] st']; reflexivity.
Qed.

Lemma monitor_round_dying_backend (w : nat) (l : list (level * log_msg)) :
  let r := monitor_round dying_backend
             {| world := w; mgr := relay_manager; log := l |} in
  fst r = Ok tt /\ world (snd r) = S w /\ mgr (snd r) = relay_manager.
Proof. vm_compute. repeat split. Qed.

Lemma monitor_loop_dying_backend (n : nat) :
  forall (w : nat) (l : list (level * log_msg)),
    let r := _monitor_loop dying_backend n
               {| world := w; mgr := relay_manager; log := l |} in
    fst r = Ok tt /\ world (snd r) = (n + w)%nat /\ mgr (snd r) = relay_manager.
Proof.
  induction n as [|n IH]; intros w l.
  - repeat split.
  - cbv zeta. rewrite monitor_loop_step by reflexivity.
    pose proof (monitor_round_dying_backend w l) as H. cbv zeta in H.
    destruct (monitor_round dying_backend _) as [[[]|e] [w' m' l']];
      cbn [fst snd world mgr] in H; destruct H as (H1 & H2 & H3);
      [|discriminate].
    subst w' m'. specialize (IH (S w) l'). cbv zeta in IH.
    destruct IH as (I1 & I2 & I3). repeat split; [assumption| |assumption].
    rewrite I2. lia.
Qed.

(** C1. On a host whose backend launches and then exits every time, the
    monitor restarts the service on every pass, without bound: after [n]
    passes it has launched the backend [n] times, and the service is again
    [Running] with a restart count of 0, the successful internal start
    having reset it. *)
Theorem monitor_restarts_without_bound :
  forall n : nat,
    let r := _monitor_loop dying_backend n
               {| world := O; mgr := relay_manager; log := [] |} in
    fst r = Ok tt
    /\ world (snd r) = n
    /\ option_map status_of (Dict.get "relay" (services (mgr (snd r)))) = Some Running
    /\ option_map restart_count (Dict.get "relay" (services (mgr (snd r)))) = Some 0%Z.
Proof.
  intros n r. subst r.
  pose proof (monitor_loop_dying_backend n O []) as H. cbv zeta in H.
  destruct H as (H1 & H2 & H3). rewrite H3. repeat split.
  - assumption.
  - rewrite H2. lia.
Qed.

(** The threshold does act when the restart itself is refused: with
    admission denied on every pass the counter reaches 3, the service
    becomes [Error] with "Max restarts exceeded", nothing was launched, and
    later passes leave it alone. *)
Example monitor_gives_up_when_start_is_denied :
  let st := {| world := O; mgr := starved_manager; log := [] |} in
  let after n := snd (_monitor_loop dying_backend n st) in
  let proxy n := Dict.get "proxy" (services (mgr (after n))) in
  option_map restart_count (proxy 2%nat) = Some 2%Z
  /\ option_map status_of (proxy 2%nat) = Some Running
  /\ option_map status_of (proxy 3%nat) = Some Error
  /\ option_map last_error (proxy 3%nat) = Some (Some "Max restarts exceeded")
  /\ world (after 3%nat) = O
  /\ proxy 7%nat = proxy 3%nat /\ world (after 7%nat) = O.
Proof. vm_compute. repeat split. Qed.





(** The protocol on a process that takes every signal and goes on: the
    graceful signal, ten polls each followed by half a second of sleep,
    the forced signal, and the release of the quota handle. *)
Example stop_service_forces_a_deaf_process :
  let st := {| world := []; mgr := relay_manager; log := [] |} in
  let r := stop_service deaf_process "relay" st in
  fst r = Ok true
  /\ world (snd r)
     = ([AskedKill 100 SIGTERM]
        ++ concat (repeat [AskedKill 100 SIG0; AskedSleep (1 # 2)] 10)
        ++ [AskedKill 100 SIGKILL;
            AskedPathExists "/sys/fs/cgroup/sentinel/relay";
            AskedRmdir "/sys/fs/cgroup/sentinel/relay"])%list.
Proof. vm_compute. split; reflexivity. Qed.



(** The uptime of the report is the seconds field of the elapsed time: it
    starts again from 0 after each full day. *)
Example uptime_seconds_wraps_daily :
  uptime_seconds (86405 * 1000000) (Some 0%Z) = 5%Z
  /\ uptime_seconds 12 None = 0%Z.
Proof. split; reflexivity. Qed.



(** *** Further properties of the service manager *)

(** X1. A name that was never registered is refused: [start_service] and
    [stop_service] return [False], log that the service was not found, and
    leave the manager and the host as they were. *)
Theorem unregistered_service_is_refused :
  forall (W : Type) (os : OS W) (st : @state W) (name : string),
    Dict.has name (services (mgr st)) = false ->
    start_service os name st
    = (Ok false, put_log (log st ++ [(ERROR, NotFound name)])%list st)
    /\ stop_service os name st
       = (Ok false, put_log (log st ++ [(ERROR, NotFound name)])%list st).
Proof.
  intros W os st name H.
  unfold start_service, stop_service, mbind, get_mgr, logger, ret.
  cbn. rewrite H. cbn. split; reflexivity.
Qed.

(** The theorem at a manager without services. *)
Lemma unregistered_service_witness :
  let st := {| world := [100%Z]; mgr := empty_manager 2048; log := [] |} in
  fst (start_service process_table "relay" st) = Ok false
  /\ fst (stop_service process_table "relay" st) = Ok false
  /\ world (snd (stop_service process_table "relay" st)) = [100%Z].
Proof.
  intros st.
  destruct (unregistered_service_is_refused _ process_table st "relay" eq_refl)
    as [H1 H2].
  rewrite H1, H2. repeat split.
Defined.

(** X2. Whenever [start_service] returns [True], it leaves the service
    [Running] with a start time recorded and the restart count set to 0,
    whatever the count was before. *)
Theorem start_service_success_leaves_running :
  forall (W : Type) (os : OS W) (st : @state W) (name : string),
    let r := start_service os name st in
    fst r = Ok true ->
    exists s, Dict.get name (services (mgr (snd r))) = Some s
              /\ status_of s = Running /\ restart_count s = 0%Z
              /\ start_time s <> None.
Proof.
  intros W os st name r H. exact (start_service_success_record os name st H).
Qed.

(** The theorem at a service whose backend launches. *)
Lemma start_service_success_witness :
  let st := {| world := []; mgr := relay_manager; log := [] |} in
  let r := start_service process_table "relay" st in
  fst r = Ok true
  /\ exists s, Dict.get "relay" (services (mgr (snd r))) = Some s
               /\ status_of s = Running /\ restart_count s = 0%Z
               /\ start_time s <> None.
Proof.
  intros st r.
  assert (H : fst r = Ok true) by (vm_compute; reflexivity).
  split; [exact H|].
  exact (start_service_success_leaves_running _ process_table st "relay" H).
Defined.

(** X3. Admission denied: for a registered service of a memory-heavy type
    on a manager whose available memory is below 512 MB, [start_service]
    returns [False] without touching the host; it replaces [last_error]
    by "Insufficient resources" and changes nothing else: the status, the
    PID and the restart count of the service, and the other records, are
    as before. *)
Theorem start_service_denial_sets_diagnostic_only :
  forall (W : Type) (os : OS W) (st : @state W) (name : string)
         (s : service) (m : Z),
    Dict.get name (services (mgr st)) = Some s ->
    one_of (type s) ["xray"; "adguardhome"; "hysteria2"] = true ->
    Dict.get "memory_available_mb" (kvm_resources (mgr st)) = Some (VInt m) ->
    (m < 512)%Z ->
    let r := start_service os name st in
    fst r = Ok false
    /\ world (snd r) = world st
    /\ Dict.get name (services (mgr (snd r)))
       = Some (with_last_error (Some "Insufficient resources") s)
    /\ forall other, name <> other ->
         Dict.get other (services (mgr (snd r)))
         = Dict.get other (services (mgr st)).
Proof.
  intros W os st name s m Hs Hheavy Hmem Hlt r. subst r.
  rewrite (start_service_denied os name s st m Hs Hheavy Hmem Hlt).
  cbn. repeat split.
  - apply get_set_same.
  - intros other Hne. now apply get_set_other.
Qed.

(** The theorem at a running [xray] service on a host with 256 MB. *)
Lemma start_service_denial_witness :
  let st := {| world := [100%Z]; mgr := starved_manager; log := [] |} in
  let r := start_service process_table "proxy" st in
  fst r = Ok false
  /\ world (snd r) = [100%Z]
  /\ option_map status_of (Dict.get "proxy" (services (mgr (snd r)))) = Some Running.
Proof.
  intros st r.
  destruct (start_service_denial_sets_diagnostic_only _ process_table st "proxy"
              (running_service "proxy" "xray" 100) 256 eq_refl eq_refl eq_refl
              eq_refl) as (H1 & H2 & H3 & _).
  fold r in H1, H2, H3. rewrite H3. repeat split; assumption.
Defined.

(** X4. Admission is decided by the cached memory figure alone: for a
    registered service, [_check_resources] returns [False] exactly when
    the type is memory-heavy and fewer than 512 MB are available. The CPU
    load that the host reports never changes the answer, and the manager
    is left as it was. *)
Theorem check_resources_decided_by_memory :
  forall (W : Type) (os : OS W) (st : @state W) (name : string)
         (s : service) (m : Z),
    Dict.get name (services (mgr st)) = Some s ->
    Dict.get "memory_available_mb" (kvm_resources (mgr st)) = Some (VInt m) ->
    let r := _check_resources os name st in
    fst r = Ok (negb (one_of (type s) ["xray"; "adguardhome"; "hysteria2"]
                      && (m <? 512)%Z))
    /\ mgr (snd r) = mgr st.
Proof.
  intros W os st name s m Hs Hmem. exact (check_resources_decided os name s st m Hs Hmem).
Qed.

(** The theorem at an idle [xray] service with 2048 MB available. *)
Lemma check_resources_witness :
  let st := {| world := [100%Z]; mgr := two_service_manager; log := [] |} in
  fst (_check_resources process_table "proxy" st) = Ok true.
Proof.
  intros st.
  exact (proj1 (check_resources_decided_by_memory _ process_table st "proxy"
                  (idle_service "proxy" "xray") 2048 eq_refl eq_refl)).
Defined.

(** X5. [stop_service] on a registered service never raises: it returns
    [True] or [False]. It returns [False] only for a service with a
    recorded PID, and then leaves it with status [Error], a diagnostic in
    [last_error], and the PID and start time still recorded. The other
    records are untouched in either case. *)
Theorem stop_service_failure_keeps_pid :
  forall (W : Type) (os : OS W) (st : @state W) (name : string) (s : service),
    Dict.get name (services (mgr st)) = Some s ->
    let r := stop_service os name st in
    (fst r = Ok true \/ fst r = Ok false)
    /\ (fst r = Ok false ->
        pid_set s <> None
        /\ exists s' e,
             Dict.get name (services (mgr (snd r))) = Some s'
             /\ status_of s' = Error /\ last_error s' = Some e
             /\ pid s' = pid s /\ start_time s' = start_time s)
    /\ forall other, name <> other ->
         Dict.get other (services (mgr (snd r)))
         = Dict.get other (services (mgr st)).
Proof.
  intros W os st name s Hs r.
  pose proof (stop_service_outcome os name s st Hs) as H.
  unfold wp in H. fold r in H.
  destruct H as [[Hr Hm]|(e & Hr & Hp & Hm)]; rewrite Hr, Hm; cbn.
  - split; [now left|]. split; [discriminate|].
    intros other Hne. now apply get_set_other.
  - split; [now right|]. split.
    + intros _. split; [exact Hp|].
      exists (stop_failed_record e s), e. split; [apply get_set_same|].
      repeat split.
    + intros other Hne. now apply get_set_other.
Qed.

(** The theorem at a running service whose process is gone. *)
Lemma stop_service_failure_witness :
  let st := {| world := O; mgr := relay_manager; log := [] |} in
  let r := stop_service dying_backend "relay" st in
  fst r = Ok false
  /\ pid_set (running_service "relay" "tor" 100) <> None
  /\ exists s' e,
       Dict.get "relay" (services (mgr (snd r))) = Some s'
       /\ status_of s' = Error /\ last_error s' = Some e
       /\ pid s' = Some 100%Z /\ start_time s' = Some 0%Z.
Proof.
  intros st r.
  destruct (stop_service_failure_keeps_pid _ dying_backend st "relay"
              (running_service "relay" "tor" 100) eq_refl) as (_ & H & _).
  assert (Hr : fst r = Ok false) by (vm_compute; reflexivity).
  split; [exact Hr|]. exact (H Hr).
Defined.

(** X6. The monitor leaves a healthy service alone: for a registered
    service that is not [Running], or has no PID, or whose process answers
    the probe, one pass over it returns, logs nothing and leaves the
    manager as it was. *)
Theorem monitor_service_leaves_healthy_alone :
  forall (W : Type) (os : OS W) (st : @state W) (name : string) (s : service),
    Dict.get name (services (mgr st)) = Some s ->
    (status_of s <> Running
     \/ pid_set s = None
     \/ exists p, pid_set s = Some p
                  /\ fst (os_kill os p SIG0 (world st)) = Delivered) ->
    let r := monitor_service os name st in
    fst r = Ok tt /\ mgr (snd r) = mgr st /\ log (snd r) = log st.
Proof.
  intros W os st name s Hs H. exact (monitor_service_healthy os name s st Hs H).
Qed.

(** The theorem at a running service whose process is alive. *)
Lemma monitor_service_healthy_witness :
  let st := {| world := [100%Z]; mgr := relay_manager; log := [] |} in
  let r := monitor_service process_table "relay" st in
  fst r = Ok tt /\ mgr (snd r) = relay_manager /\ log (snd r) = [].
Proof.
  intros st.
  apply (monitor_service_leaves_healthy_alone _ process_table st "relay"
           (running_service "relay" "tor" 100) eq_refl).
  right. right. exists 100%Z. split; reflexivity.
Defined.

(** X7. The restart threshold: for a [Running] service whose process no
    longer answers the probe and whose restart count is 2 or more, one
    pass of the monitor raises the count by one, sets the status to
    [Error] with "Max restarts exceeded", and starts nothing: the host
    has seen the probe only. The other records are untouched. *)
Theorem monitor_service_gives_up_at_threshold :
  forall (W : Type) (os : OS W) (st : @state W) (name : string) (s : service)
         (p : Z) (e : string) (w : W),
    Dict.get name (services (mgr st)) = Some s ->
    status_of s = Running ->
    pid_set s = Some p ->
    os_kill os p SIG0 (world st) = (KillOSError e, w) ->
    (2 <= restart_count s)%Z ->
    let r := monitor_service os name st in
    fst r = Ok tt
    /\ world (snd r) = w
    /\ Dict.get name (services (mgr (snd r)))
       = Some (with_last_error (Some "Max restarts exceeded")
                 (with_status Error
                    (with_restart_count (restart_count s + 1) s)))
    /\ forall other, name <> other ->
         Dict.get other (services (mgr (snd r)))
         = Dict.get other (services (mgr st)).
Proof.
  intros W os st name s p e w Hs Hrun Hp Hk Hcount r.
  destruct (monitor_service_threshold os name s p e w st Hs Hrun Hp Hk Hcount)
    as (H1 & H2 & H3).
  fold r in H1, H2, H3. rewrite H3. repeat split; try assumption.
  - apply get_set_same.
  - intros other Hne. now apply get_set_other.
Qed.

(** The theorem at a service that was already restarted twice. *)
Lemma monitor_service_threshold_witness :
  let worn := with_restart_count 2 (running_service "relay" "tor" 100) in
  let st := {| world := O; mgr := manager_with [("relay", worn)]; log := [] |} in
  let r := monitor_service dying_backend "relay" st in
  fst r = Ok tt
  /\ world (snd r) = O
  /\ option_map status_of (Dict.get "relay" (services (mgr (snd r)))) = Some Error
  /\ option_map restart_count (Dict.get "relay" (services (mgr (snd r)))) = Some 3%Z.
Proof.
  intros worn st r.
  destruct (monitor_service_gives_up_at_threshold _ dying_backend st "relay" worn
              100 "[Errno 3] No such process" O eq_refl eq_refl eq_refl eq_refl)
    as (H1 & H2 & H3 & _); [cbn; lia|].
  fold r in H1, H2, H3. rewrite H3. repeat split; assumption.
Defined.

(** X8. The registry is fixed outside [register_service]: starting or
    stopping a service, a status query and any number of monitor passes
    leave the registered names, in their order, and the resource figures
    as they were. (So the monitor never iterates over a registry that
    changes under it.) *)
Theorem registry_names_are_fixed :
  forall (W : Type) (os : OS W) (st : @state W) (name : string) (rounds : nat),
    let names st' := map fst (services (mgr st')) in
    let figures st' := kvm_resources (mgr st') in
    (names (snd (start_service os name st)) = names st
     /\ figures (snd (start_service os name st)) = figures st)
    /\ (names (snd (stop_service os name st)) = names st
        /\ figures (snd (stop_service os name st)) = figures st)
    /\ (names (snd (get_status os st)) = names st
        /\ figures (snd (get_status os st)) = figures st)
    /\ (names (snd (_monitor_loop os rounds st)) = names st
        /\ figures (snd (_monitor_loop os rounds st)) = figures st).
Proof.
  intros W os st name rounds names figures. subst names figures. cbv beta.
  split; [apply keeps_registry_start_service|].
  split; [apply keeps_registry_stop_service|].
  split; [apply keeps_registry_get_status|apply keeps_registry_monitor_loop].
Qed.

(** X9. [start_service] never raises: on a manager whose available-memory
    figure is an integer it returns [True] or [False] for every name and
    every behaviour of the host, exceptions of the launch included. *)
Theorem start_service_never_raises :
  forall (W : Type) (os : OS W) (st : @state W) (name : string) (m : Z),
    Dict.get "memory_available_mb" (kvm_resources (mgr st)) = Some (VInt m) ->
    exists b, fst (start_service os name st) = Ok b.
Proof.
  intros W os st name m Hmem. exact (start_service_returns os name st m Hmem).
Qed.

(** The theorem at a registered service with 2048 MB available. *)
Lemma start_service_never_raises_witness :
  let st := {| world := [100%Z]; mgr := two_service_manager; log := [] |} in
  exists b, fst (start_service process_table "proxy" st) = Ok b.
Proof.
  intros st.
  exact (start_service_never_raises _ process_table st "proxy" 2048 eq_refl).
Defined.

(** X10. The monitor loop has no handler of its own, and the probe
    catches [OSError] only, which is not what [os.kill] raises for a PID
    outside the range of [pid_t]. So the loop is safe as long as the PIDs
    are within the range: on a host where [os.kill] raises nothing but
    [OSError] for such PIDs and whose launches report such PIDs only, and
    on a manager whose records hold such PIDs only and whose
    available-memory figure is an integer, any number of passes of
    [_monitor_loop] return normally, whatever the host answers to the
    probes and the restarts. *)
Theorem monitor_loop_never_raises :
  forall (W : Type) (os : OS W) (st : @state W) (rounds : nat) (m : Z),
    kill_raises_oserror_only os ->
    launches_report_pids os ->
    pids_fit (mgr st) ->
    Dict.get "memory_available_mb" (kvm_resources (mgr st)) = Some (VInt m) ->
    fst (_monitor_loop os rounds st) = Ok tt.
Proof.
  intros W os st rounds m Hkill Hl Hfit Hmem.
  exact (monitor_loop_returns os rounds Hkill Hl st m Hfit Hmem).
Qed.

(** The theorem at two services, one running, for five passes. *)
Lemma monitor_loop_never_raises_witness :
  let st := {| world := [100%Z]; mgr := two_service_manager; log := [] |} in
  fst (_monitor_loop process_table 5 st) = Ok tt.
Proof.
  intros st.
  apply (monitor_loop_never_raises _ process_table st 5 2048); [| | |reflexivity].
  - intros p sig w e _. cbn. destruct (existsb (Z.eqb p) w); discriminate.
  - intros kind name config w p. cbn. intros [= <-]. unfold fits_pid_t. lia.
  - intros n s Hs p Hp. unfold st, two_service_manager, manager_with in Hs.
    cbn [mgr services Dict.get] in Hs.
    destruct (String.eqb "relay" n); [injection Hs as <-|].
    + injection Hp as <-. unfold fits_pid_t. lia.
    + destruct (String.eqb "proxy" n); [injection Hs as <-|]; discriminate.
Defined.

(** Beyond the range the loop is not safe: a record with the PID
    [2 ^ 31], as a PID file may give it, ends the monitor with the
    [OverflowError] of the probe, while [stop_service] catches it. *)
Example monitor_loop_dies_of_a_wide_pid :
  let st := {| world := tt;
               mgr := manager_with
                        [("relay", running_service "relay" "tor" (2 ^ 31))];
               log := [] |} in
  fst (_monitor_loop no_process 1 st)
  = Raise "signed integer is greater than maximum"
  /\ fst (stop_service no_process "relay" st) = Ok false.
Proof. vm_compute. split; reflexivity. Qed.

(** X11. For the types [xray] and [tor], whose backends are started in
    the background, the launch counts as successful only if a PID was
    found: whenever [start_backend] returns [True], the record holds a
    PID. *)
Theorem background_launch_success_records_pid :
  forall (W : Type) (os : OS W) (st : @state W) (name : string) (s : service),
    Dict.get name (services (mgr st)) = Some s ->
    type s = "xray" \/ type s = "tor" ->
    let r := start_backend os name st in
    fst r = Ok true ->
    exists p, option_map pid (Dict.get name (services (mgr (snd r))))
              = Some (Some p).
Proof.
  intros W os st name s Hs Ht. exact (start_backend_background os name s st Hs Ht).
Qed.

(** The theorem at a [tor] service whose backend launches. *)
Lemma background_launch_witness :
  let st := {| world := []; mgr := relay_manager; log := [] |} in
  let r := start_backend process_table "relay" st in
  fst r = Ok true
  /\ exists p, option_map pid (Dict.get "relay" (services (mgr (snd r))))
               = Some (Some p).
Proof.
  intros st r.
  assert (H : fst r = Ok true) by (vm_compute; reflexivity).
  split; [exact H|].
  apply (background_launch_success_records_pid _ process_table st "relay"
           (running_service "relay" "tor" 100) eq_refl); [now right|exact H].
Defined.

(** X23. The uptime that [get_status] reports is the seconds field of
    the elapsed time, not the elapsed time: for every service of every
    report it lies between 0 and 86399, however long ago the service was
    started. *)
Theorem get_status_uptime_below_one_day :
  forall (W : Type) (os : OS W) (st : @state W) (report : status_report)
         (n : string) (e : status_entry),
    fst (get_status os st) = Ok report ->
    In (n, e) (r_services report) ->
    (0 <= e_uptime e < 86400)%Z.
Proof.
  intros W os st report n e Hr Hin.
  exact (get_status_uptime os st report Hr n e Hin).
Qed.

(** The theorem at a service started two days and five seconds before
    the query, on a host whose clock reads 0. *)
Lemma get_status_uptime_witness :
  let early := with_start_time (Some (-172805000000)%Z)
                 (running_service "relay" "tor" 100) in
  let st := {| world := [100%Z]; mgr := manager_with [("relay", early)];
               log := [] |} in
  exists report e,
    fst (get_status process_table st) = Ok report
    /\ In ("relay", e) (r_services report)
    /\ e_uptime e = 5%Z
    /\ (0 <= e_uptime e < 86400)%Z.
Proof.
  intros early st.
  destruct (get_status process_table st) as [[report|err] st'] eqn:E;
    [|vm_compute in E; discriminate].
  vm_compute in E. injection E as <- _.
  eexists. eexists. split; [reflexivity|].
  split; [left; reflexivity|]. split; [reflexivity|].
  eapply (get_status_uptime_below_one_day _ process_table st);
    [vm_compute; reflexivity|left; reflexivity].
Defined.

End ServiceFacts.

(** ** Protocol parser *)

Module ParserFacts.
Import PyStr Text Parser DictFacts.

(** *** Strings *)

Lemma prefix_app (p s : string) :
  String.prefix p s = true -> exists r, s = p ++ r.
Proof.
  revert s. induction p as [|c p IH]; intros s H.
  - now exists s.
  - destruct s as [|c' s]; cbn in H; [discriminate|].
    destruct (ascii_dec c c') as [->|Hne]; [|discriminate].
    destruct (IH s H) as [r ->]. now exists r.
Qed.

(** *** Detection *)

(** C5. Detection does not depend on the parser object, and on the input
    stripped of surrounding whitespace it maps each URI scheme to its tag,
    whatever follows the scheme: [ss://] gives shadowsocks, [trojan://]
    trojan, [vless://] and [vmess://] xray, [wg://] wireguard,
    [hysteria://] and [hy2://] hysteria2. An input with no scheme, without
    both section names, without the OpenVPN words, that is no JSON object
    with an [outbounds] or [inbounds] key, and without the Tor words, is
    unknown. *)
Theorem detect_protocol_scheme_tags :
  forall (json_loads : string -> exc value) (self : parser) (data : string),
    let d := strip data in
    let detect := _detect_protocol json_loads self data in
    (forall self', _detect_protocol json_loads self' data = detect)
    /\ (startswith "ss://" d = true -> detect = "shadowsocks")
    /\ (startswith "trojan://" d = true -> detect = "trojan")
    /\ (startswith "vless://" d = true -> detect = "xray")
    /\ (startswith "vmess://" d = true -> detect = "xray")
    /\ (startswith "wg://" d = true -> detect = "wireguard")
    /\ (startswith "hysteria://" d = true -> detect = "hysteria2")
    /\ (startswith "hy2://" d = true -> detect = "hysteria2")
    /\ ((forall p, In p uri_schemes -> startswith p d = false) ->
        contains "[Interface]" d && contains "[Peer]" d = false ->
        contains "client" (lower d) && contains "dev tun" (lower d) = false ->
        (startswith "{" (strip d) = false
         \/ (exists e, json_loads d = Raise e)
         \/ (exists o, json_loads d = Ok (VDict o)
                       /\ Dict.has "outbounds" o = false
                       /\ Dict.has "inbounds" o = false)) ->
        contains "SOCKSPort" d || contains "torrc" (lower d) = false ->
        detect = "unknown").
Proof.
  intros json_loads self data d detect. subst detect.
  unfold _detect_protocol. fold d.
  split; [reflexivity|].
  repeat split.
  1-7: intros H; apply prefix_app in H; destruct H as [r ->]; destruct r; reflexivity.
  intros Hs Hwg Hvpn Hjson Htor.
  rewrite !Hs by (cbn; tauto). cbn [orb].
  rewrite Hwg, Hvpn, Htor.
  destruct Hjson as [-> | [[e He] | (o & Ho & Hout & Hin)]]; [reflexivity| |].
  - rewrite He. cbn. now destruct (startswith "{" (strip d)).
  - rewrite Ho. cbn. rewrite Hout, Hin. cbn.
    now destruct (startswith "{" (strip d)).
Qed.

(** The theorem at an [ss://] link, at a WireGuard link that also contains
    both section names, and at a text without any marker. *)
Lemma detect_protocol_witness :
  let json := fun _ : string => @Raise value "not JSON" in
  _detect_protocol json (init None) "  ss://YTpi@h:1#n" = "shadowsocks"
  /\ _detect_protocol json (init None) "wg://k@h:1?x=[Interface][Peer]" = "wireguard"
  /\ _detect_protocol json (init None) "hello" = "unknown".
Proof.
  intros json.
  pose proof (detect_protocol_scheme_tags json (init None) "  ss://YTpi@h:1#n")
    as (_ & H1 & _).
  pose proof (detect_protocol_scheme_tags json (init None)
                "wg://k@h:1?x=[Interface][Peer]")
    as (_ & _ & _ & _ & _ & H2 & _).
  pose proof (detect_protocol_scheme_tags json (init None) "hello")
    as (_ & _ & _ & _ & _ & _ & _ & _ & H3).
  split; [apply H1; reflexivity|].
  split; [apply H2; reflexivity|].
  apply H3.
  - intros p Hp. cbn in Hp.
    repeat (destruct Hp as [<-|Hp]; [reflexivity|]). destruct Hp.
  - reflexivity.
  - reflexivity.
  - left. reflexivity.
  - reflexivity.
Defined.

(** *** Concrete inputs *)

Section Evaluations.
Variable json_loads : string -> exc value.
Variable json_loads_wide : text -> exc value.
Variable unquote : string -> string.
Variable parse_qs : string -> list (string * list string).
Variable urlparse : string -> exc url.
Variable re_findall : string -> string -> list string.
Variable repr_list : list string -> string.

Local Abbreviation parse_with :=
  (parse json_loads json_loads_wide unquote parse_qs urlparse re_findall repr_list).

(** C6. A WireGuard configuration whose only AmneziaWG tunable is [Jmax]:
    auto-detection answers wireguard, since it looks for the substrings
    [Jc] and [Jmin] only, while the WireGuard decoder, which checks all
    nine keys, records the type amneziawg. [parse] with protocol "auto"
    returns both in one result. *)
Theorem jmax_config_detected_as_wireguard :
  forall (timestamp : string),
    _detect_protocol json_loads (init None) jmax_config = "wireguard"
    /\ field "type" (_parse_wireguard parse_qs (init None) jmax_config)
       = Some (VStr "amneziawg")
    /\ field "protocol" (parse_with (init None) timestamp "auto" jmax_config)
       = Some (VStr "wireguard")
    /\ field "type" (parse_with (init None) timestamp "auto" jmax_config)
       = Some (VStr "amneziawg")
    /\ field "parsed" (parse_with (init None) timestamp "auto" jmax_config)
       = Some (VBool true).
Proof.
  intros timestamp. repeat split; vm_compute; reflexivity.
Qed.

(** The same configuration with [Jc] in place of [Jmax] is detected as
    amneziawg. *)
Example jc_config_detected_as_amneziawg :
  _detect_protocol json_loads (init None)
    (join "010" ["[Interface]"; "PrivateKey = k"; "Jc = 4"; "[Peer]"; "PublicKey = p"])
  = "amneziawg".
Proof. vm_compute. reflexivity. Qed.

(** C2. A VMess link whose payload is not base64: the decoder catches the
    exception and returns a dictionary with an [error] entry; [parse] then
    reports [parsed = True] with an empty [errors] list. *)
Theorem malformed_vmess_reported_as_parsed :
  forall (timestamp : string),
    let r := parse_with (init None) timestamp "xray" "vmess://A" in
    returned r = true
    /\ field "parsed" r = Some (VBool true)
    /\ field "errors" r = Some (VList [])
    /\ field "error" r <> None.
Proof.
  intros timestamp. repeat split; vm_compute; try reflexivity. discriminate.
Qed.

(** A Hysteria2 link with a port that is not a number: the exception
    reaches [parse], which reports [parsed = False] with a diagnostic. *)
Example malformed_hysteria_port_not_parsed :
  forall (timestamp : string),
    let r := parse_with (init None) timestamp "hysteria2" "hy2://h:x?" in
    field "parsed" r = Some (VBool false)
    /\ exists e, field "errors" r = Some (VList [VStr e]).
Proof.
  intros timestamp. split; [vm_compute; reflexivity|].
  exists "invalid literal for int() with base 10: x". vm_compute. reflexivity.
Qed.

(** The two inputs on which the WireGuard and Shadowsocks decoders part
    from the specification give the same results whatever the library
    functions are: the decoders do not reach [parse_qs] on them, and
    [unquote] touches the name only. *)
Example wireguard_empty_peer_block_any_library :
  field "peers" (_parse_wireguard parse_qs (init None) empty_peer_config)
  = Some (VList [str_dict [("publickey", "b")]]).
Proof. vm_compute. reflexivity. Qed.

Example shadowsocks_ipv6_host_any_library :
  let r := _parse_shadowsocks unquote parse_qs (init None)
             "ss://YWVzLTI1Ni1nY206cHc=@::1:8388#home" in
  field "server" r = Some (VStr "") /\ field "port" r = Some VNone.
Proof. vm_compute. split; reflexivity. Qed.

End Evaluations.

(** *** Lines, and the WireGuard loop *)

Lemma split_all_no_sep (c : ascii) (s : string) :
  has_char c s = false -> split_all c s = [s].
Proof.
  induction s as [|a s IH]; cbn; [reflexivity|].
  destruct (Ascii.eqb a c); cbn; [discriminate|].
  intros H. now rewrite (IH H).
Qed.

Lemma split_all_app (c : ascii) (a b : string) :
  has_char c a = false ->
  split_all c (a ++ String c b) = a :: split_all c b.
Proof.
  induction a as [|x a IH]; cbn.
  - now rewrite Ascii.eqb_refl.
  - destruct (Ascii.eqb x c); cbn; [discriminate|].
    intros H. now rewrite (IH H).
Qed.

Lemma split_all_join (c : ascii) (lines : list string) :
  lines <> [] ->
  (forall l, In l lines -> has_char c l = false) ->
  split_all c (join c lines) = lines.
Proof.
  induction lines as [|x lines IH]; [congruence|]. intros _ H.
  destruct lines as [|y lines].
  - cbn. apply split_all_no_sep, H. now left.
  - change (join c (x :: y :: lines)) with (x ++ String c (join c (y :: lines))).
    rewrite split_all_app by (apply H; now left).
    f_equal. apply IH; [discriminate|]. intros l Hl. apply H. now right.
Qed.

Lemma wg_line_body (st : wg_state) (l : string) :
  is_header l = false ->
  wg_line st l
  = if section_is st "Interface" then
      {| current_section := current_section st;
         current_peer := current_peer st;
         interface := add_kv (interface st) l;
         peers := peers st |}
    else if section_is st "Peer" then
      {| current_section := current_section st;
         current_peer := add_kv (current_peer st) l;
         interface := interface st;
         peers := peers st |}
    else st.
Proof.
  unfold is_header, wg_line, add_kv, kv_of_line. intros H.
  destruct st as [sec cp ifc prs]. cbn [current_section current_peer interface peers].
  assert (Hsame :
    {| current_section := sec; current_peer := cp; interface := ifc; peers := prs |}
    = if section_is {| current_section := sec; current_peer := cp;
                       interface := ifc; peers := prs |} "Interface"
      then {| current_section := sec; current_peer := cp;
              interface := ifc; peers := prs |}
      else if section_is {| current_section := sec; current_peer := cp;
                            interface := ifc; peers := prs |} "Peer"
           then {| current_section := sec; current_peer := cp;
                   interface := ifc; peers := prs |}
           else {| current_section := sec; current_peer := cp;
                   interface := ifc; peers := prs |}).
  { unfold section_is; cbn [current_section].
    destruct sec as [s0|];
      [destruct (String.eqb s0 "Interface"), (String.eqb s0 "Peer")|]; reflexivity. }
  destruct (String.eqb (strip l) "" || startswith "#" (strip l)) eqn:E1;
    [exact Hsame|].
  cbn in H. rewrite H.
  destruct (has_char "=" (strip l)); [|exact Hsame].
  destruct (split_once "=" (strip l)) as [[k v]|]; [reflexivity|exact Hsame].
Qed.

Lemma wg_block_interface (lines : list string) :
  forall st,
    (forall l, In l lines -> is_header l = false) ->
    section_is st "Interface" = true ->
    fold_left wg_line lines st
    = {| current_section := current_section st;
         current_peer := current_peer st;
         interface := fold_left add_kv lines (interface st);
         peers := peers st |}.
Proof.
  induction lines as [|l lines IH]; intros st H Hs; cbn [fold_left].
  - now destruct st.
  - rewrite (wg_line_body st l) by (apply H; now left). rewrite Hs.
    rewrite IH; [reflexivity| |exact Hs].
    intros x Hx. apply H. now right.
Qed.

Lemma wg_block_peer (lines : list string) :
  forall st,
    (forall l, In l lines -> is_header l = false) ->
    section_is st "Interface" = false ->
    section_is st "Peer" = true ->
    fold_left wg_line lines st
    = {| current_section := current_section st;
         current_peer := fold_left add_kv lines (current_peer st);
         interface := interface st;
         peers := peers st |}.
Proof.
  induction lines as [|l lines IH]; intros st H Hi Hs; cbn [fold_left].
  - now destruct st.
  - rewrite (wg_line_body st l) by (apply H; now left). rewrite Hi, Hs.
    rewrite IH; [reflexivity| |exact Hi|exact Hs].
    intros x Hx. apply H. now right.
Qed.

Lemma wg_block_outside (lines : list string) :
  forall st,
    (forall l, In l lines -> is_header l = false) ->
    section_is st "Interface" = false ->
    section_is st "Peer" = false ->
    fold_left wg_line lines st = st.
Proof.
  induction lines as [|l lines IH]; intros st H Hi Hs; cbn [fold_left].
  - reflexivity.
  - rewrite (wg_line_body st l) by (apply H; now left). rewrite Hi, Hs.
    apply IH; [|exact Hi|exact Hs]. intros x Hx. apply H. now right.
Qed.

Lemma wg_line_header (st : wg_state) (h : string) :
  is_header h = true ->
  wg_line st h
  = if String.eqb (section_of h) "Peer" then
      {| current_section := Some (section_of h);
         current_peer := [];
         interface := interface st;
         peers := wg_final_peers st |}
    else
      {| current_section := Some (section_of h);
         current_peer := current_peer st;
         interface := interface st;
         peers := peers st |}.
Proof.
  unfold is_header, wg_line, section_of, wg_final_peers. cbv zeta.
  intros H. apply andb_true_iff in H. destruct H as [H1 H2].
  apply negb_true_iff in H1. rewrite H1, H2. reflexivity.
Qed.

Lemma wg_lines_of_block (st : wg_state) (b : block) :
  is_header (fst b) = true ->
  (forall l, In l (snd b) -> is_header l = false) ->
  fold_left wg_line (fst b :: snd b) st = wg_block st b.
Proof.
  intros Hh Hbody. cbn [fold_left]. rewrite (wg_line_header st _ Hh).
  unfold wg_block.
  destruct (String.eqb (section_of (fst b)) "Peer") eqn:Ep.
  - apply String.eqb_eq in Ep.
    rewrite (wg_block_peer (snd b)); [reflexivity|exact Hbody| |];
      unfold section_is; cbn [current_section]; now rewrite Ep.
  - destruct (String.eqb (section_of (fst b)) "Interface") eqn:Ei.
    + rewrite (wg_block_interface (snd b)); [reflexivity|exact Hbody|].
      unfold section_is; cbn [current_section]. exact Ei.
    + rewrite (wg_block_outside (snd b)); [reflexivity|exact Hbody| |];
        unfold section_is; cbn [current_section]; assumption.
Qed.

Lemma wg_lines_of_blocks (blocks : list block) :
  forall st,
    (forall b, In b blocks ->
       is_header (fst b) = true
       /\ forall l, In l (snd b) -> is_header l = false) ->
    fold_left wg_line (concat (map (fun b : block => fst b :: snd b) blocks)) st
    = fold_left wg_block blocks st.
Proof.
  induction blocks as [|b blocks IH]; intros st H; [reflexivity|].
  cbn [map concat]. rewrite fold_left_app.
  destruct (H b (or_introl eq_refl)) as [Hh Hbody].
  rewrite (wg_lines_of_block st b Hh Hbody). cbn [fold_left].
  apply IH. intros b' Hb'. apply H. now right.
Qed.

Lemma wg_blocks_peers (blocks : list block) :
  forall st,
    wg_final_peers (fold_left wg_block blocks st)
    = (wg_final_peers st ++ peer_dicts blocks)%list.
Proof.
  unfold peer_dicts, blocks_of.
  induction blocks as [|b blocks IH]; intros st; cbn [fold_left filter map].
  - now rewrite app_nil_r.
  - rewrite IH. unfold wg_block.
    destruct (String.eqb (section_of (fst b)) "Peer"); cbn [map filter].
    + unfold wg_final_peers at 1. cbn [current_peer peers].
      destruct (nonempty (block_dict (snd b)));
        [now rewrite <- app_assoc|reflexivity].
    + reflexivity.
Qed.

Lemma wg_blocks_interface (blocks : list block) :
  forall st,
    interface (fold_left wg_block blocks st)
    = fold_left add_kv (concat (blocks_of "Interface" blocks)) (interface st).
Proof.
  unfold blocks_of.
  induction blocks as [|b blocks IH]; intros st; cbn [fold_left filter map concat];
    [reflexivity|].
  rewrite IH. unfold wg_block.
  destruct (String.eqb (section_of (fst b)) "Peer") eqn:Ep.
  - apply String.eqb_eq in Ep. rewrite Ep. reflexivity.
  - cbn [interface].
    destruct (String.eqb (section_of (fst b)) "Interface");
      cbn [map concat]; [now rewrite fold_left_app|reflexivity].
Qed.

Lemma wg_loop_blocks (pre : list string) (blocks : list block) :
  in_blocks pre blocks ->
  wg_final_peers (wg_loop (ini_lines pre blocks)) = peer_dicts blocks
  /\ interface (wg_loop (ini_lines pre blocks))
     = block_dict (concat (blocks_of "Interface" blocks)).
Proof.
  intros [Hpre Hblocks]. unfold wg_loop, ini_lines.
  rewrite fold_left_app.
  rewrite (wg_block_outside pre wg_init Hpre eq_refl eq_refl).
  rewrite (wg_lines_of_blocks blocks wg_init Hblocks).
  rewrite wg_blocks_peers, wg_blocks_interface. split; reflexivity.
Qed.

Lemma add_kv_nonempty (d : list (string * string)) (l : string) :
  d <> [] -> add_kv d l <> [].
Proof.
  unfold add_kv. destruct (kv_of_line l) as [[k v]|]; [|auto].
  intros _. apply set_nonempty.
Qed.

Lemma fold_add_kv_nonempty (lines : list string) :
  forall d, d <> [] -> fold_left add_kv lines d <> [].
Proof.
  induction lines as [|l lines IH]; intros d Hd; cbn; [exact Hd|].
  apply IH, add_kv_nonempty, Hd.
Qed.

Lemma fold_add_kv_some (lines : list string) :
  forall d,
    (exists l, In l lines /\ kv_of_line l <> None) ->
    fold_left add_kv lines d <> [].
Proof.
  induction lines as [|x lines IH]; intros d (l & Hin & Hkv); [destruct Hin|].
  cbn [fold_left]. destruct Hin as [->|Hin].
  - apply fold_add_kv_nonempty. unfold add_kv.
    destruct (kv_of_line l) as [[k v]|]; [apply set_nonempty|congruence].
  - apply IH. eauto.
Qed.

Lemma block_dict_nonempty (lines : list string) :
  (exists l, In l lines /\ kv_of_line l <> None) -> block_dict lines <> [].
Proof. apply fold_add_kv_some. Qed.

Lemma nonempty_true {A} (l : list A) : l <> [] -> nonempty l = true.
Proof. destruct l; [congruence|reflexivity]. Qed.

(** Every list of lines reads as lines before the first header and
    blocks. *)
Lemma every_text_in_blocks (lines : list string) :
  exists pre blocks, lines = ini_lines pre blocks /\ in_blocks pre blocks.
Proof.
  induction lines as [|l lines (pre & blocks & -> & Hpre & Hblocks)].
  - exists [], []. split; [reflexivity|]. split; [intros ? []|intros ? []].
  - destruct (is_header l) eqn:Hl.
    + exists [], ((l, pre) :: blocks). split; [reflexivity|].
      split; [intros ? []|].
      intros b [<-|Hb]; [split; [exact Hl|exact Hpre]|now apply Hblocks].
    + exists (l :: pre), blocks. split; [reflexivity|].
      split; [|exact Hblocks].
      intros x [<-|Hx]; [exact Hl|now apply Hpre].
Qed.

(** C7, as the code has it. A text that does not start with [wg://] or
    [wireguard://], read as the lines before the first section header and
    then the blocks, whatever their number and order: the decoder returns,
    without an error entry; its peers are the dictionaries of the [Peer]
    blocks that hold at least one key=value line, in source order, the
    block that ends with the text included; its interface is made of the
    key=value lines of the [Interface] blocks; the lines before the first
    header leave no trace. So a text with one [Interface] block and two
    [Peer] blocks, wherever the [Interface] block stands, gives exactly
    the two peer dictionaries, in source order, when each [Peer] block holds
    a key=value line. *)
Theorem wireguard_peer_blocks_in_order :
  forall (parse_qs : string -> list (string * list string)) (self : parser)
         (data : string) (pre : list string) (blocks : list block),
    cpu_count_ok self ->
    startswith "wg://" data || startswith "wireguard://" data = false ->
    split_all "010" data = ini_lines pre blocks ->
    in_blocks pre blocks ->
    let r := _parse_wireguard parse_qs self data in
    returned r = true
    /\ field "peers" r = Some (VList (map str_dict (peer_dicts blocks)))
    /\ field "interface" r
       = Some (str_dict (block_dict (concat (blocks_of "Interface" blocks))))
    /\ field "error" r = None
    /\ forall iface p1 p2 : list string,
         blocks_of "Interface" blocks = [iface] ->
         blocks_of "Peer" blocks = [p1; p2] ->
         has_key_value p1 -> has_key_value p2 ->
         field "peers" r
         = Some (VList [str_dict (block_dict p1); str_dict (block_dict p2)])
         /\ field "interface" r = Some (str_dict (block_dict iface)).
Proof.
  intros parse_qs self data pre blocks [c Hc] Hini Hlines Hwf r.
  destruct (wg_loop_blocks pre blocks Hwf) as [Hpeers Hiface].
  assert (Hr : r = Ok [("type",
                        VStr (wg_type (block_dict
                                         (concat (blocks_of "Interface" blocks)))));
                       ("interface",
                        str_dict (block_dict (concat (blocks_of "Interface" blocks))));
                       ("peers", VList (map str_dict (peer_dicts blocks)));
                       ("kvm_optimizations",
                        VDict [("multiqueue", VBool true);
                               ("rx_queues", if (8 <? c)%Z then VInt 8 else VInt c);
                               ("tx_queues", if (8 <? c)%Z then VInt 8 else VInt c);
                               ("vhost_net", VBool true)])]).
  { subst r. unfold _parse_wireguard. rewrite Hc. cbn [py_min bind].
    rewrite Hini, Hlines, Hpeers, Hiface. reflexivity. }
  rewrite Hr. do 4 (split; [reflexivity|]).
  intros iface p1 p2 Hi Hp K1 K2. cbn [field]. split.
  - cbn [Dict.get String.eqb Ascii.eqb Bool.eqb].
    unfold peer_dicts. rewrite Hp. cbn [map filter].
    rewrite (nonempty_true _ (block_dict_nonempty _ K1)).
    rewrite (nonempty_true _ (block_dict_nonempty _ K2)). reflexivity.
  - cbn [Dict.get String.eqb Ascii.eqb Bool.eqb].
    rewrite Hi. cbn [concat]. now rewrite app_nil_r.
Qed.

(** The theorem at a text with a stray key before the first header and
    the [Interface] block between the two [Peer] blocks. *)
Lemma wireguard_peer_blocks_witness :
  let data :=
    join "010" ["Stray = 1"; "[Peer]"; "PublicKey = b"; "[Interface]";
                "PrivateKey = a"; "[Peer]"; "PublicKey = c"; "Endpoint = h:1"] in
  field "peers" (_parse_wireguard (fun _ => []) (init None) data)
  = Some (VList [str_dict [("publickey", "b")];
                 str_dict [("publickey", "c"); ("endpoint", "h:1")]])
  /\ field "interface" (_parse_wireguard (fun _ => []) (init None) data)
     = Some (str_dict [("privatekey", "a")]).
Proof.
  intros data.
  pose proof (wireguard_peer_blocks_in_order (fun _ => []) (init None) data
                ["Stray = 1"]
                [("[Peer]", ["PublicKey = b"]);
                 ("[Interface]", ["PrivateKey = a"]);
                 ("[Peer]", ["PublicKey = c"; "Endpoint = h:1"])]
                (ex_intro _ 4%Z eq_refl) eq_refl eq_refl) as H.
  cbv zeta in H.
  destruct H as (_ & _ & _ & _ & H).
  - split.
    + intros l Hl. cbn in Hl.
      repeat (destruct Hl as [<-|Hl]; [reflexivity|]). destruct Hl.
    + intros b Hb. cbn in Hb.
      repeat (destruct Hb as [<-|Hb];
              [split; [reflexivity|];
               intros l Hl; cbn in Hl;
               repeat (destruct Hl as [<-|Hl]; [reflexivity|]); destruct Hl|]).
      destruct Hb.
  - apply (H ["PrivateKey = a"] ["PublicKey = b"]
             ["PublicKey = c"; "Endpoint = h:1"]); try reflexivity.
    + exists "PublicKey = b". split; [now left|discriminate].
    + exists "PublicKey = c". split; [now left|discriminate].
Defined.

(** C7 as stated fails: with an empty first [Peer] block, the text has one
    [Interface] section and two [Peer] blocks, and the decoder returns a
    single peer. (The query-string parser, not reached here, is replaced by
    a constant.) *)
Lemma wireguard_empty_peer_block_dropped :
  field "peers" (_parse_wireguard (fun _ => []) (init None) empty_peer_config)
  = Some (VList [str_dict [("publickey", "b")]]).
Proof. vm_compute. reflexivity. Qed.

(** *** base64 and UTF-8 round trips *)

Example b64_ex :
  Base64.b64encode (Utf8.encode "aes-256-gcm:pw") = "YWVzLTI1Ni1nY206cHc="
  /\ Base64.b64decode "YWVzLTI1Ni1nY206cHc=" = Ok (Utf8.encode "aes-256-gcm:pw")
  /\ Base64.b64decode "YWVzLTI1Ni1nY206cHc" = Raise "Incorrect padding".
Proof. repeat split; vm_compute; reflexivity. Qed.

Lemma in_all_bytes (a : ascii) : In a Base64.all_bytes.
Proof.
  rewrite <- (ascii_nat_embedding a). apply in_map, in_seq.
  pose proof (nat_ascii_bounded a). lia.
Qed.

Lemma forall_bytes (P : ascii -> bool) :
  forallb P Base64.all_bytes = true -> forall a, P a = true.
Proof. intros H a. exact (proj1 (forallb_forall P _) H a (in_all_bytes a)). Qed.

Lemma pair_ok_all (x y : ascii) : Base64.pair_ok x y = true.
Proof.
  revert y. apply forall_bytes. revert x.
  apply (forall_bytes (fun x => forallb (Base64.pair_ok x) Base64.all_bytes)).
  vm_compute. reflexivity.
Qed.

Lemma char_ok_all (c : ascii) : Utf8.char_ok c = true.
Proof. revert c. apply forall_bytes. vm_compute. reflexivity. Qed.

Lemma good6_facts (n : N) :
  Base64.good6 n = true ->
  Base64.a2b (Base64.b2a n) = Some n
  /\ Ascii.eqb (Base64.b2a n) "=" = false
  /\ (ord (Base64.b2a n) <? 128)%N = true
  /\ Base64.delimiter (Base64.b2a n) = false.
Proof.
  unfold Base64.good6. intros H.
  apply andb_true_iff in H. destruct H as [H H4].
  apply andb_true_iff in H. destruct H as [H H3].
  apply andb_true_iff in H. destruct H as [H1 H2].
  apply negb_true_iff in H2, H4.
  destruct (Base64.a2b (Base64.b2a n)) as [m|]; [|discriminate].
  apply N.eqb_eq in H1. subst m. auto.
Qed.

Lemma pair_facts (x y : ascii) :
  let X := ord x in
  let Y := ord y in
  Base64.good6 (Base64.sextet1 X) = true
  /\ Base64.good6 (Base64.sextet2 X Y) = true
  /\ Base64.good6 (Base64.sextet3 X Y) = true
  /\ Base64.good6 (Base64.sextet4 X) = true
  /\ Base64.byte_of (N.lor (N.shiftl (Base64.sextet1 X) 2)
                       (N.shiftr (Base64.sextet2 X Y) 4)) = x
  /\ N.land (Base64.sextet2 X Y) 15 = N.shiftr Y 4
  /\ Base64.byte_of (N.lor (N.shiftl (N.shiftr X 4) 4)
                       (N.shiftr (Base64.sextet3 X Y) 2)) = x
  /\ Base64.byte_of (N.lor (N.shiftl (N.land (Base64.sextet3 X Y) 3) 6)
                       (Base64.sextet4 Y)) = y.
Proof.
  intros X Y. pose proof (pair_ok_all x y) as H. unfold Base64.pair_ok in H.
  fold X Y in H.
  do 7 (apply andb_true_iff in H; destruct H as [H ?]).
  repeat match goal with
         | E : Ascii.eqb _ _ = true |- _ => apply Ascii.eqb_eq in E
         | E : N.eqb _ _ = true |- _ => apply N.eqb_eq in E
         end.
  repeat split; assumption.
Qed.

Lemma a2b_loop_good (n : N) (r : string) (qp : nat) (lc : N) (pads : nat) :
  Base64.good6 n = true ->
  Base64.a2b_loop (String (Base64.b2a n) r) qp lc pads
  = match qp with
    | O => Base64.a2b_loop r 1 n 0
    | S O =>
        out <- Base64.a2b_loop r 2 (N.land n 15) 0 ;;
        Ok (Base64.byte_of (N.lor (N.shiftl lc 2) (N.shiftr n 4)) :: out)
    | S (S O) =>
        out <- Base64.a2b_loop r 3 (N.land n 3) 0 ;;
        Ok (Base64.byte_of (N.lor (N.shiftl lc 4) (N.shiftr n 2)) :: out)
    | _ =>
        out <- Base64.a2b_loop r 0 0 0 ;;
        Ok (Base64.byte_of (N.lor (N.shiftl lc 6) n) :: out)
    end.
Proof.
  intros H. destruct (good6_facts n H) as (Ha & He & _).
  cbn [Base64.a2b_loop]. rewrite He, Ha. reflexivity.
Qed.

Lemma bytes_ind3 (P : bytes -> Prop) :
  P [] -> (forall x, P [x]) -> (forall x y, P [x; y]) ->
  (forall x y z r, P r -> P (x :: y :: z :: r)) ->
  forall b, P b.
Proof.
  intros H0 H1 H2 H3 b.
  assert (H : forall n b, (List.length b <= n)%nat -> P b).
  { clear b. induction n as [|n IH]; intros b Hb.
    - destruct b; [exact H0|cbn in Hb; lia].
    - destruct b as [|x [|y [|z r]]]; auto.
      apply H3, IH. cbn in Hb. lia. }
  exact (H _ b (le_n _)).
Qed.

(** Decoding undoes encoding. *)
Lemma a2b_loop_b64encode (b : bytes) :
  Base64.a2b_loop (Base64.b64encode b) 0 0 0 = Ok b.
Proof.
  induction b as [|x|x y|x y z r IH] using bytes_ind3.
  - reflexivity.
  - destruct (pair_facts x zero) as (G1 & G2 & _ & _ & B1 & _).
    cbn [Base64.b64encode].
    change (Base64.sextet2 (ord x) 0) with (Base64.sextet2 (ord x) (ord zero)).
    rewrite (a2b_loop_good _ _ _ _ _ G1), (a2b_loop_good _ _ _ _ _ G2).
    cbn [Base64.a2b_loop Ascii.eqb Bool.eqb Nat.leb Nat.add andb bind].
    now rewrite B1.
  - destruct (pair_facts x y) as (G1 & G2 & _ & _ & B1 & L2 & _).
    destruct (pair_facts y zero) as (_ & _ & G3 & _ & _ & _ & B2 & _).
    cbn [Base64.b64encode].
    change (Base64.sextet3 (ord y) 0) with (Base64.sextet3 (ord y) (ord zero)).
    rewrite (a2b_loop_good _ _ _ _ _ G1), (a2b_loop_good _ _ _ _ _ G2),
            (a2b_loop_good _ _ _ _ _ G3).
    cbn [Base64.a2b_loop Ascii.eqb Bool.eqb Nat.leb Nat.add andb bind].
    now rewrite L2, B2, B1.
  - destruct (pair_facts x y) as (G1 & G2 & _ & _ & B1 & L2 & _).
    destruct (pair_facts y z) as (_ & _ & G3 & _ & _ & _ & B2 & B3).
    destruct (pair_facts z zero) as (_ & _ & _ & G4 & _).
    cbn [Base64.b64encode].
    rewrite (a2b_loop_good _ _ _ _ _ G1), (a2b_loop_good _ _ _ _ _ G2),
            (a2b_loop_good _ _ _ _ _ G3), (a2b_loop_good _ _ _ _ _ G4).
    rewrite IH. cbn [bind]. now rewrite L2, B3, B2, B1.
Qed.

Lemma delimiter_differs (a c : ascii) :
  Base64.delimiter a = false -> Base64.delimiter c = true -> Ascii.eqb a c = false.
Proof.
  intros Ha Hc. destruct (Ascii.eqb a c) eqn:E; [|reflexivity].
  apply Ascii.eqb_eq in E. congruence.
Qed.

(** The encoding is ASCII and holds none of [#], [?] and [@]. *)
Lemma b64encode_clean (b : bytes) :
  Base64.all_ascii (Base64.b64encode b) = true
  /\ forall c, Base64.delimiter c = true -> has_char c (Base64.b64encode b) = false.
Proof.
  assert (Hpad : forall c, Base64.delimiter c = true -> Ascii.eqb "=" c = false).
  { intros c Hc. now apply delimiter_differs. }
  induction b as [|x|x y|x y z r [IH1 IH2]] using bytes_ind3.
  - split; [reflexivity|]. intros c _. reflexivity.
  - destruct (pair_facts x zero) as (G1 & G2 & _).
    apply good6_facts in G1, G2.
    destruct G1 as (_ & _ & A1 & D1), G2 as (_ & _ & A2 & D2).
    cbn [Base64.b64encode].
    change (Base64.sextet2 (ord x) 0) with (Base64.sextet2 (ord x) (ord zero)).
    split.
    + cbn [Base64.all_ascii]. now rewrite A1, A2.
    + intros c Hc. cbn [has_char].
      now rewrite (delimiter_differs _ _ D1 Hc), (delimiter_differs _ _ D2 Hc),
                  (Hpad c Hc).
  - destruct (pair_facts x y) as (G1 & G2 & _).
    destruct (pair_facts y zero) as (_ & _ & G3 & _).
    apply good6_facts in G1, G2, G3.
    destruct G1 as (_ & _ & A1 & D1), G2 as (_ & _ & A2 & D2),
             G3 as (_ & _ & A3 & D3).
    cbn [Base64.b64encode].
    change (Base64.sextet3 (ord y) 0) with (Base64.sextet3 (ord y) (ord zero)).
    split.
    + cbn [Base64.all_ascii]. now rewrite A1, A2, A3.
    + intros c Hc. cbn [has_char].
      now rewrite (delimiter_differs _ _ D1 Hc), (delimiter_differs _ _ D2 Hc),
                  (delimiter_differs _ _ D3 Hc), (Hpad c Hc).
  - destruct (pair_facts x y) as (G1 & G2 & _).
    destruct (pair_facts y z) as (_ & _ & G3 & _).
    destruct (pair_facts z zero) as (_ & _ & _ & G4 & _).
    apply good6_facts in G1, G2, G3, G4.
    destruct G1 as (_ & _ & A1 & D1), G2 as (_ & _ & A2 & D2),
             G3 as (_ & _ & A3 & D3), G4 as (_ & _ & A4 & D4).
    cbn [Base64.b64encode]. split.
    + cbn [Base64.all_ascii]. now rewrite A1, A2, A3, A4, IH1.
    + intros c Hc. cbn [has_char].
      now rewrite (delimiter_differs _ _ D1 Hc), (delimiter_differs _ _ D2 Hc),
                  (delimiter_differs _ _ D3 Hc), (delimiter_differs _ _ D4 Hc),
                  (IH2 c Hc).
Qed.

Lemma b64decode_b64encode (b : bytes) :
  Base64.b64decode (Base64.b64encode b) = Ok b.
Proof.
  unfold Base64.b64decode. rewrite (proj1 (b64encode_clean b)).
  apply a2b_loop_b64encode.
Qed.

Lemma points_cons (c : ascii) (s : string) :
  points (String c s) = ord c :: points s.
Proof. reflexivity. Qed.

Lemma utf8_decode_encode (s : string) :
  Utf8.decode (Utf8.encode s) = Ok (points s).
Proof.
  induction s as [|c s IH]; [reflexivity|].
  pose proof (char_ok_all c) as H. unfold Utf8.char_ok in H.
  rewrite points_cons. cbn [Utf8.encode]. cbv zeta in H |- *.
  destruct (ord c <? 128)%N eqn:E.
  - cbn [Utf8.decode]. cbv zeta. rewrite E, IH. reflexivity.
  - apply andb_true_iff in H. destruct H as [H H4].
    apply andb_true_iff in H. destruct H as [H H3].
    apply andb_true_iff in H. destruct H as [H1 H2].
    apply negb_true_iff in H1. apply N.eqb_eq in H4.
    cbn [Utf8.decode]. cbv zeta. rewrite H1, H2, H3, IH. cbn [bind].
    now rewrite H4.
Qed.

(** *** Latin-1 strings as texts *)

Lemma point_ok_all (a : ascii) : point_ok a = true.
Proof. revert a. apply forall_bytes. vm_compute. reflexivity. Qed.

Lemma ord_eqb (a c : ascii) : (ord a =? ord c)%N = Ascii.eqb a c.
Proof.
  pose proof (point_ok_all a) as H. unfold point_ok in H.
  apply andb_true_iff in H. destruct H as [_ H].
  apply Bool.eqb_prop.
  exact (proj1 (forallb_forall _ _) H c (in_all_bytes c)).
Qed.

Lemma narrow_points (s : string) : narrow (points s) = Some s.
Proof.
  induction s as [|c s IH]; [reflexivity|].
  pose proof (point_ok_all c) as H. unfold point_ok in H.
  apply andb_true_iff in H. destruct H as [H _].
  apply andb_true_iff in H. destruct H as [H1 H2].
  apply Ascii.eqb_eq in H2.
  rewrite points_cons. cbn [narrow]. now rewrite H1, IH, H2.
Qed.

Lemma text_value_points (s : string) : text_value (points s) = VStr s.
Proof. unfold text_value. now rewrite narrow_points. Qed.

Lemma has_point_points (c : ascii) (s : string) :
  has_point (ord c) (points s) = has_char c s.
Proof.
  unfold has_point. induction s as [|a s IH]; [reflexivity|].
  rewrite points_cons. cbn [existsb has_char]. rewrite IH.
  now rewrite N.eqb_sym, ord_eqb.
Qed.

Lemma split_point_points (c : ascii) (s : string) :
  split_point (ord c) (points s)
  = match split_once c s with
    | Some (a, b) => Some (points a, points b)
    | None => None
    end.
Proof.
  induction s as [|a s IH]; [reflexivity|].
  rewrite points_cons. cbn [split_point split_once]. rewrite ord_eqb, IH.
  destruct (Ascii.eqb a c); [reflexivity|].
  now destruct (split_once c s) as [[x y]|].
Qed.

(** *** Splitting at a delimiter *)

Lemma has_char_app (c : ascii) (a b : string) :
  has_char c (a ++ b) = has_char c a || has_char c b.
Proof.
  induction a as [|x a IH]; cbn; [reflexivity|].
  rewrite IH. now rewrite orb_assoc.
Qed.

Lemma has_char_here (c : ascii) (a b : string) :
  has_char c (a ++ String c b) = true.
Proof.
  rewrite has_char_app. cbn. rewrite Ascii.eqb_refl. cbn. apply orb_true_r.
Qed.

Lemma split_once_app (c : ascii) (a b : string) :
  has_char c a = false -> split_once c (a ++ String c b) = Some (a, b).
Proof.
  induction a as [|x a IH]; cbn.
  - now rewrite Ascii.eqb_refl.
  - destruct (Ascii.eqb x c); cbn; [discriminate|].
    intros H. now rewrite (IH H).
Qed.

(** The authority part: base64 of [method:password] is decoded. *)
Lemma ss_auth_base64 (method password : string) :
  has_char ":" method = false ->
  ss_auth (Base64.b64encode (Utf8.encode (method ++ String ":" password)))
  = Some (VStr method, VStr password).
Proof.
  intros Hm. unfold ss_auth.
  rewrite b64decode_b64encode. cbn [bind].
  rewrite utf8_decode_encode. cbn [bind try_except].
  change 58%N with (ord ":").
  rewrite has_point_points, split_point_points.
  rewrite has_char_here, split_once_app by exact Hm.
  now rewrite !text_value_points.
Qed.

(** The authority part: the plain reading is used once decoding raised. *)
Lemma ss_auth_plain (method password e : string) :
  has_char ":" method = false ->
  (raw <- Base64.b64decode (method ++ String ":" password) ;; Utf8.decode raw)
  = Raise e ->
  ss_auth (method ++ String ":" password) = Some (VStr method, VStr password).
Proof.
  intros Hm He. unfold ss_auth.
  destruct (Base64.b64decode (method ++ String ":" password)) as [raw|e'];
    cbn [bind] in He |- *.
  - rewrite He. cbn [bind try_except].
    now rewrite has_char_here, split_once_app.
  - cbn [try_except]. now rewrite has_char_here, split_once_app.
Qed.

(** *** Decimal ports *)

Lemma digit_ok_all (c : ascii) : digit_ok c = true.
Proof. revert c. apply forall_bytes. vm_compute. reflexivity. Qed.

Lemma digit_facts (c : ascii) :
  is_digit c = true ->
  isspace c = false /\ Ascii.eqb c "+" = false /\ Ascii.eqb c "-" = false
  /\ Ascii.eqb c "_" = false /\ Ascii.eqb c ":" = false
  /\ Ascii.eqb c "@" = false /\ Ascii.eqb c "#" = false
  /\ Ascii.eqb c "?" = false.
Proof.
  intros Hd. pose proof (digit_ok_all c) as H. unfold digit_ok in H.
  rewrite Hd in H. cbn [implb] in H.
  do 7 (apply andb_true_iff in H; destruct H as [H ?]).
  repeat match goal with
         | E : negb _ = true |- _ => apply negb_true_iff in E
         end.
  repeat split; assumption.
Qed.

Lemma digit_plain_all (c : ascii) : digit_plain c = true.
Proof. revert c. apply forall_bytes. vm_compute. reflexivity. Qed.

Lemma digit_plain_facts (c : ascii) :
  is_digit c = true -> c_isspace c = false /\ (ord c <? 127)%N = true.
Proof.
  intros Hd. pose proof (digit_plain_all c) as H. unfold digit_plain in H.
  rewrite Hd in H. cbn [implb] in H.
  apply andb_true_iff in H. destruct H as [H1 H2].
  now apply negb_true_iff in H1.
Qed.

Lemma c_lstrip_digits (s : string) : all_digits s = true -> c_lstrip s = s.
Proof.
  destruct s as [|c r]; [reflexivity|]. cbn. intros H.
  apply andb_true_iff in H. destruct H as [Hc _].
  destruct (digit_plain_facts c Hc) as (-> & _). reflexivity.
Qed.

Lemma c_rstrip_digits (s : string) : all_digits s = true -> c_rstrip s = s.
Proof.
  induction s as [|c r IH]; [reflexivity|]. cbn. intros H.
  apply andb_true_iff in H. destruct H as [Hc Hr].
  rewrite (IH Hr). destruct (digit_plain_facts c Hc) as (-> & _).
  now destruct r.
Qed.

Lemma to_ascii_digits (s : string) :
  all_digits s = true -> to_ascii (points s) = Some s.
Proof.
  induction s as [|c r IH]; [reflexivity|]. cbn [all_digits]. intros H.
  apply andb_true_iff in H. destruct H as [Hc Hr].
  destruct (digit_plain_facts c Hc) as (_ & Hlt).
  rewrite points_cons. cbn [to_ascii]. rewrite Hlt, (IH Hr). cbn.
  pose proof (point_ok_all c) as H. unfold point_ok in H.
  apply andb_true_iff in H. destruct H as [H _].
  apply andb_true_iff in H. destruct H as [_ H].
  apply Ascii.eqb_eq in H. now rewrite H.
Qed.

Lemma count_digits_all (s : string) :
  all_digits s = true -> count_digits s = N.of_nat (String.length s).
Proof.
  induction s as [|c r IH]; [reflexivity|]. cbn [all_digits]. intros H.
  apply andb_true_iff in H. destruct H as [Hc Hr].
  cbn [count_digits String.length]. rewrite Hc, (IH Hr). lia.
Qed.

Lemma int_digits_all (s : string) :
  forall acc after,
    all_digits s = true -> (s <> "" \/ after = true) ->
    int_digits s acc after = Some (dec_value_from acc s).
Proof.
  induction s as [|c r IH]; intros acc after Hd Hne; cbn.
  - destruct Hne as [Hne| ->]; [congruence|reflexivity].
  - cbn in Hd. apply andb_true_iff in Hd. destruct Hd as [Hc Hr].
    rewrite Hc. apply IH; [exact Hr|now right].
Qed.

(** [int] reads a string of at most 4300 decimal digits as its value. *)
Lemma py_int_digits (s : string) :
  all_digits s = true -> s <> "" -> (String.length s <= 4300)%nat ->
  py_int s = Some (Z.of_N (dec_value s)).
Proof.
  intros Hd Hne Hlen. unfold py_int, int_of_text.
  rewrite (to_ascii_digits s Hd). unfold long_from_string.
  rewrite (c_lstrip_digits s Hd), (c_rstrip_digits s Hd). cbv zeta.
  destruct s as [|c r]; [congruence|].
  pose proof Hd as Hd'. cbn in Hd'. apply andb_true_iff in Hd'.
  destruct Hd' as [Hc _].
  destruct (digit_facts c Hc) as (_ & -> & -> & _).
  unfold literal. rewrite (count_digits_all _ Hd).
  replace (max_str_digits <? N.of_nat (String.length (String c r)))%N
    with false by (symmetry; apply N.ltb_ge; unfold max_str_digits; lia).
  rewrite (int_digits_all (String c r) 0 false Hd) by (left; discriminate).
  reflexivity.
Qed.

Lemma has_char_digits (c : ascii) (s : string) :
  is_digit c = false -> all_digits s = true -> has_char c s = false.
Proof.
  intros Hc. induction s as [|a r IH]; [reflexivity|]. cbn. intros H.
  apply andb_true_iff in H. destruct H as [Ha Hr]. rewrite (IH Hr).
  destruct (Ascii.eqb a c) eqn:E; [|reflexivity].
  apply Ascii.eqb_eq in E. congruence.
Qed.

Lemma prefix_here (p r : string) : String.prefix p (p ++ r) = true.
Proof.
  induction p as [|c p IH]; cbn.
  - now destruct r.
  - destruct (ascii_dec c c) as [_|Hne]; [exact IH|congruence].
Qed.

Lemma append_assoc (a b c : string) : (a ++ b) ++ c = a ++ (b ++ c).
Proof. induction a as [|x a IH]; cbn; [reflexivity|now rewrite IH]. Qed.

(** *** Shadowsocks links *)

Ltac free_of_facts H :=
  cbn [free_of] in H;
  repeat (apply andb_true_iff in H; let H1 := fresh "F" in destruct H as [H1 H];
          apply negb_true_iff in H1).

Lemma parse_shadowsocks_link
  (unquote : string -> string) (parse_qs : string -> list (string * list string))
  (self : parser) (auth method password host pt name : string) :
  free_of "@#?" auth = true ->
  ss_auth auth = Some (VStr method, VStr password) ->
  free_of ":@#?" host = true ->
  all_digits pt = true -> pt <> "" -> (String.length pt <= 4300)%nat ->
  _parse_shadowsocks unquote parse_qs self
    ("ss://" ++ auth ++ "@" ++ host ++ ":" ++ pt ++ "#" ++ name)
  = Ok [("type", VStr "shadowsocks");
        ("method", VStr method);
        ("password", VStr password);
        ("server", VStr host);
        ("port", VInt (Z.of_N (dec_value pt)));
        ("plugin", VNone);
        ("kvm_optimizations",
         VDict [("tcp_fastopen", VBool true); ("reuse_port", VBool true)]);
        ("name", VStr (unquote name))].
Proof.
  intros Ha Hauth Hh Hd Hne Hlen.
  free_of_facts Ha. free_of_facts Hh.
  assert (P1 : has_char "#" pt = false) by (now apply has_char_digits).
  assert (P2 : has_char "?" pt = false) by (now apply has_char_digits).
  set (server_part := host ++ String ":" pt).
  set (body := auth ++ String "@" server_part).
  assert (Hdata : "ss://" ++ auth ++ "@" ++ host ++ ":" ++ pt ++ "#" ++ name
                  = "ss://" ++ (body ++ String "#" name)).
  { unfold body, server_part. cbn [append].
    do 5 f_equal. rewrite append_assoc. cbn [append]. f_equal. f_equal.
    now rewrite append_assoc. }
  rewrite Hdata. unfold _parse_shadowsocks, startswith.
  rewrite prefix_here.
  change (drop 5 ("ss://" ++ (body ++ String "#" name))) with (body ++ String "#" name).
  assert (B1 : has_char "#" body = false).
  { unfold body, server_part. rewrite has_char_app. cbn.
    rewrite has_char_app. cbn. rewrite F0, F4, P1. reflexivity. }
  assert (B2 : has_char "?" body = false).
  { unfold body, server_part. rewrite has_char_app. cbn.
    rewrite has_char_app. cbn. rewrite F1, F5, P2. reflexivity. }
  rewrite has_char_here, (split_once_app _ _ _ B1). rewrite B2. cbn [bind].
  unfold body at 1 2. rewrite has_char_here, (split_once_app _ _ _ F).
  unfold server_part. rewrite has_char_here, (split_once_app _ _ _ F2).
  rewrite (py_int_digits pt Hd Hne Hlen), Hauth. reflexivity.
Qed.

(** C8, as the code has it. For a method without [:], a host without
    [:], [@], [#] and [?], a port written in at most 4300 decimal digits
    (the longest literal that [int] converts), and any password and name:
    the link whose authority is the padded base64 of the UTF-8 of
    [method:password] parses to that method and password, the host, the
    value of the port and the percent-decoded name, without an error
    entry; and so does the link whose authority is [method:password] in
    plain, free of [@], [#] and [?], whenever reading it as the base64 of
    UTF-8 text raises. (A plain authority that happens to be the base64 of
    some text is read as that text.) *)
Theorem shadowsocks_link_round_trip :
  forall (unquote : string -> string)
         (parse_qs : string -> list (string * list string)) (self : parser)
         (method password host pt name : string),
    free_of ":" method = true ->
    free_of ":@#?" host = true ->
    all_digits pt = true -> pt <> "" -> (String.length pt <= 4300)%nat ->
    let link auth := "ss://" ++ auth ++ "@" ++ host ++ ":" ++ pt ++ "#" ++ name in
    let expected :=
      ss_fields method password host (Z.of_N (dec_value pt)) (unquote name) in
    expected (_parse_shadowsocks unquote parse_qs self
                (link (Base64.b64encode (Utf8.encode (method ++ ":" ++ password)))))
    /\ (forall e,
          free_of "@#?" (method ++ ":" ++ password) = true ->
          (raw <- Base64.b64decode (method ++ ":" ++ password) ;; Utf8.decode raw)
          = Raise e ->
          expected (_parse_shadowsocks unquote parse_qs self
                      (link (method ++ ":" ++ password)))).
Proof.
  intros unquote parse_qs self method password host pt name Hm Hh Hd Hne Hlen
         link expected.
  assert (Hcolon : has_char ":" method = false).
  { cbn [free_of] in Hm. apply andb_true_iff in Hm. destruct Hm as [Hm _].
    now apply negb_true_iff in Hm. }
  split.
  - unfold expected, link.
    rewrite (parse_shadowsocks_link unquote parse_qs self _ method password
               host pt name); [repeat split| |now apply ss_auth_base64|exact Hh
               |exact Hd|exact Hne|exact Hlen].
    cbn [free_of].
    rewrite !(proj2 (b64encode_clean _)) by reflexivity. reflexivity.
  - intros e Hfree He. unfold expected, link.
    rewrite (parse_shadowsocks_link unquote parse_qs self _ method password
               host pt name); [repeat split|exact Hfree| |exact Hh|exact Hd
               |exact Hne|exact Hlen].
    exact (ss_auth_plain method password e Hcolon He).
Qed.

(** The theorem at [aes-256-gcm:pw], host [example.com], port 8443. *)
Lemma shadowsocks_link_round_trip_witness :
  ss_fields "aes-256-gcm" "pw" "example.com" 8443 "home"
    (_parse_shadowsocks (fun s => s) (fun _ => []) (init None)
       "ss://YWVzLTI1Ni1nY206cHc=@example.com:8443#home")
  /\ ss_fields "aes-256-gcm" "pw" "example.com" 8443 "home"
       (_parse_shadowsocks (fun s => s) (fun _ => []) (init None)
          "ss://aes-256-gcm:pw@example.com:8443#home").
Proof.
  pose proof (shadowsocks_link_round_trip (fun s => s) (fun _ => []) (init None)
                "aes-256-gcm" "pw" "example.com" "8443" "home"
                eq_refl eq_refl eq_refl) as H.
  cbv zeta in H. destruct H as [H1 H2]; [discriminate|cbn; lia|].
  split; [exact H1|].
  apply (H2 "Incorrect padding"); [reflexivity|vm_compute; reflexivity].
Defined.

(** C8 as stated fails: with the IPv6 host [::1] the server part is cut
    at the first colon, so the server is empty, no port is stored and
    the result carries an error entry. (The library functions are replaced
    by the identity and a constant; the fields below do not depend on
    them.) *)
Lemma shadowsocks_ipv6_host_not_round_tripped :
  let r := _parse_shadowsocks (fun s => s) (fun _ => []) (init None)
             "ss://YWVzLTI1Ni1nY206cHc=@::1:8388#home" in
  field "method" r = Some (VStr "aes-256-gcm")
  /\ field "server" r = Some (VStr "")
  /\ field "port" r = Some VNone
  /\ field "error" r <> None.
Proof. vm_compute. repeat split. discriminate. Qed.

(** The link of the repository's own test, whose base64 carries no
    padding: decoding raises, the plain reading finds no colon, and method
    and password stay unset. *)
Example shadowsocks_unpadded_authority_not_decoded :
  let r := _parse_shadowsocks (fun s => s) (fun _ => []) (init None)
             "ss://Y2hhY2hhMjAtaWV0Zi1wb2x5MTMwNTpwYXNzd29yZA@example.com:8443#MySS" in
  field "method" r = Some VNone /\ field "password" r = Some VNone
  /\ field "server" r = Some (VStr "example.com")
  /\ field "port" r = Some (VInt 8443).
Proof. vm_compute. repeat split. Qed.

(** *** The keys of the decoders' results

    No decoder returns an entry named [errors]: the list that [parse]
    keeps under that name survives [result.update(parsed)]. *)

Lemma lacks_set (k k' : string) (v : value) (d : pydict) :
  k' <> k -> lacks k d -> lacks k (Dict.set k' v d).
Proof. unfold lacks. intros Hne H. now rewrite get_set_other. Qed.

Lemma elacks_ok (k : string) (d : pydict) : lacks k d -> elacks k (Ok d).
Proof. exact (fun H => H). Qed.

Lemma elacks_raise (k e : string) : elacks k (Raise e).
Proof. reflexivity. Qed.

Lemma elacks_bind {A} (k : string) (m : exc A) (f : A -> exc pydict) :
  (forall a, m = Ok a -> elacks k (f a)) -> elacks k (bind m f).
Proof. destruct m as [a|e]; cbn; [auto|reflexivity]. Qed.

Lemma elacks_inv (k : string) (m : exc pydict) (d : pydict) :
  elacks k m -> m = Ok d -> lacks k d.
Proof. intros H ->. exact H. Qed.

Lemma lacks_try (k : string) (body : exc pydict) (handler : string -> pydict) :
  elacks k body -> (forall e, lacks k (handler e)) ->
  lacks k (try_except body handler).
Proof. destruct body as [d|e]; cbn; auto. Qed.

Lemma elacks_list_append (k k' : string) (v : value) (d : pydict) :
  k' <> k -> lacks k d -> elacks k (list_append k' v d).
Proof.
  intros Hne H. unfold list_append.
  destruct (Dict.get k' d) as [[| | | | |l| |]|]; try reflexivity.
  now apply lacks_set.
Qed.

Lemma elacks_sub_set (k k' k2 : string) (v : value) (d : pydict) :
  k' <> k -> lacks k d -> elacks k (sub_set k' k2 v d).
Proof.
  intros Hne H. unfold sub_set.
  destruct (Dict.get k' d) as [[| | | | | |e|]|]; try reflexivity.
  now apply lacks_set.
Qed.

Lemma bind_ok_inv {A B} (m : exc A) (f : A -> exc B) (b : B) :
  bind m f = Ok b -> exists a, m = Ok a /\ f a = Ok b.
Proof. destruct m as [a|e]; cbn; [eauto|discriminate]. Qed.

Ltac lacks_step :=
  match goal with
  | |- lacks _ _ => assumption
  | |- elacks _ (list_append _ _ _) => apply elacks_list_append; [discriminate|]
  | |- elacks _ (sub_set _ _ _ _) => apply elacks_sub_set; [discriminate|]
  | |- elacks _ (bind _ _) => apply elacks_bind; intros ? ?
  | |- elacks _ (Ok _) => apply elacks_ok
  | |- elacks _ (Raise _) => apply elacks_raise
  | |- lacks _ (try_except _ _) => apply lacks_try; [|intros ?]
  | |- lacks _ (Dict.set _ _ _) => apply lacks_set; [discriminate|]
  | |- lacks _ (set_opt _ _ _) => unfold set_opt
  | |- elacks _ (if ?c then _ else _) => destruct c
  | |- lacks _ (if ?c then _ else _) => destruct c
  | |- elacks _ (match ?x with _ => _ end) => destruct x
  | |- lacks _ (match ?x with _ => _ end) => destruct x
  | |- lacks _ (_ :: _) => reflexivity
  | |- lacks _ [] => reflexivity
  | H : ?m = Ok ?a |- lacks _ ?a => refine (elacks_inv _ m a _ H)
  | |- elacks _ _ => progress cbv zeta
  | |- lacks _ _ => progress cbv zeta
  end.

Ltac lacks_auto := repeat lacks_step.

Section Keys.
Variable json_loads : string -> exc value.
Variable json_loads_wide : text -> exc value.
Variable unquote : string -> string.
Variable parse_qs : string -> list (string * list string).
Variable urlparse : string -> exc url.
Variable re_findall : string -> string -> list string.
Variable repr_list : list string -> string.

Lemma keys_wireguard_url self u :
  elacks "errors" (_parse_wireguard_url parse_qs self u).
Proof. unfold _parse_wireguard_url. lacks_auto. Qed.

Lemma keys_wireguard self data :
  elacks "errors" (_parse_wireguard parse_qs self data).
Proof. unfold _parse_wireguard. lacks_auto. apply keys_wireguard_url. Qed.

Lemma keys_amneziawg self data :
  elacks "errors" (_parse_amneziawg parse_qs self data).
Proof.
  unfold _parse_amneziawg. lacks_auto; apply keys_wireguard.
Qed.

Lemma keys_vless self u :
  elacks "errors" (_parse_vless_url parse_qs urlparse self u).
Proof. unfold _parse_vless_url. lacks_auto. Qed.

Lemma keys_trojan_url self u :
  elacks "errors" (_parse_trojan_url parse_qs urlparse self u).
Proof. unfold _parse_trojan_url. lacks_auto. Qed.

Lemma keys_vmess self u : lacks "errors" (_parse_vmess_url json_loads json_loads_wide self u).
Proof. unfold _parse_vmess_url. lacks_auto. Qed.

Lemma keys_xray_json self config : elacks "errors" (_parse_xray_json self config).
Proof. unfold _parse_xray_json. lacks_auto. Qed.

Lemma keys_xray self data :
  elacks "errors" (_parse_xray json_loads json_loads_wide parse_qs urlparse self data).
Proof.
  unfold _parse_xray.
  destruct (startswith "{" (strip data)).
  - destruct (json_loads data) as [cfg|e]; cbn [bind try_except].
    + pose proof (keys_xray_json self cfg) as H.
      destruct (_parse_xray_json self cfg) as [r|e]; cbn [bind try_except].
      * exact H.
      * lacks_auto; first [apply keys_vless|apply keys_vmess|apply keys_trojan_url].
    + lacks_auto; first [apply keys_vless|apply keys_vmess|apply keys_trojan_url].
  - lacks_auto; first [apply keys_vless|apply keys_vmess|apply keys_trojan_url].
Qed.

Lemma keys_shadowsocks self data :
  elacks "errors" (_parse_shadowsocks unquote parse_qs self data).
Proof. unfold _parse_shadowsocks. lacks_auto. Qed.

Lemma keys_trojan self data :
  elacks "errors" (_parse_trojan json_loads parse_qs urlparse self data).
Proof. unfold _parse_trojan. lacks_auto. apply keys_trojan_url. Qed.

Lemma keys_hysteria2 self data :
  elacks "errors" (_parse_hysteria2 json_loads parse_qs self data).
Proof. unfold _parse_hysteria2. lacks_auto. Qed.

Lemma keys_tor self data : elacks "errors" (_parse_tor self data).
Proof. unfold _parse_tor. lacks_auto. Qed.

Lemma keys_dpi_bypass self protocol data :
  lacks "errors" (_parse_dpi_bypass self protocol data).
Proof. reflexivity. Qed.

Lemma keys_generic self data :
  lacks "errors" (_parse_generic re_findall repr_list self data).
Proof. reflexivity. Qed.

Lemma keys_ovpn_directive parts result :
  lacks "errors" result -> elacks "errors" (ovpn_directive parts result).
Proof. intros H. unfold ovpn_directive. lacks_auto. Qed.

Lemma keys_ovpn_line st line st' :
  ovpn_line st line = Ok st' ->
  lacks "errors" (ovpn_result st) -> lacks "errors" (ovpn_result st').
Proof.
  unfold ovpn_line. intros H L.
  destruct (String.eqb (strip line) "" || startswith "#" (strip line));
    [now injection H as <-|].
  destruct (startswith "<" (strip line) && endswith ">" (strip line));
    [now injection H as <-|].
  destruct (startswith "</" (strip line) && endswith ">" (strip line)).
  { destruct (current_inline st) as [[|c r]|]; try (now injection H as <-).
    apply bind_ok_inv in H. destruct H as (res & Hres & [= <-]). cbn.
    refine (elacks_inv _ _ _ _ Hres). lacks_auto. }
  destruct (inline_open st); [now injection H as <-|].
  apply bind_ok_inv in H. destruct H as (res & Hres & [= <-]). cbn.
  exact (elacks_inv _ _ _ (keys_ovpn_directive _ _ L) Hres).
Qed.

Lemma keys_ovpn_loop lines :
  forall st st',
    ovpn_loop lines st = Ok st' ->
    lacks "errors" (ovpn_result st) -> lacks "errors" (ovpn_result st').
Proof.
  induction lines as [|l lines IH]; intros st st' H L; cbn in H.
  - now injection H as <-.
  - apply bind_ok_inv in H. destruct H as (st1 & H1 & H2).
    exact (IH _ _ H2 (keys_ovpn_line _ _ _ H1 L)).
Qed.

Lemma keys_openvpn self data : elacks "errors" (_parse_openvpn self data).
Proof.
  unfold _parse_openvpn. apply elacks_bind. intros st Hst. apply elacks_ok.
  apply (keys_ovpn_loop _ _ _ Hst). reflexivity.
Qed.

Lemma keys_singbox_body result data :
  lacks "errors" result ->
  lacks "errors" (fst (singbox_body json_loads result data)).
Proof.
  intros H. unfold singbox_body.
  destruct (json_loads data) as [cfg|e]; [|exact H].
  destruct (py_in "outbounds" cfg) as [has_out|e]; [|cbn; lacks_auto].
  destruct has_out.
  - destruct (ob <- json_item "outbounds" cfg ;; iter_value ob) as [items|e];
      [|cbn; lacks_auto].
    destruct (outbound_loop items []) as [acc [e|]]; [cbn; lacks_auto|].
    destruct (py_in "inbounds" cfg) as [[|]|e]; try (cbn; lacks_auto).
    destruct (ib <- json_item "inbounds" cfg ;; json_len ib) as [n|e];
      cbn; lacks_auto.
  - destruct (py_in "inbounds" cfg) as [[|]|e]; try (cbn; lacks_auto).
    destruct (ib <- json_item "inbounds" cfg ;; json_len ib) as [n|e];
      cbn; lacks_auto.
Qed.

Lemma keys_singbox self data : lacks "errors" (_parse_singbox json_loads self data).
Proof.
  unfold _parse_singbox.
  match goal with
  | |- context [singbox_body json_loads ?r data] =>
      pose proof (keys_singbox_body r data eq_refl) as H;
      destruct (singbox_body json_loads r data) as [res [e|]]
  end; cbn [fst] in H; lacks_auto.
Qed.

Lemma keys_decode self protocol data :
  elacks "errors"
    (decode json_loads json_loads_wide unquote parse_qs urlparse re_findall repr_list
       self protocol data).
Proof.
  unfold decode.
  repeat match goal with
         | |- elacks _ (if ?c then _ else _) => destruct c
         end;
    first [ apply keys_wireguard | apply keys_amneziawg | apply keys_openvpn
          | apply keys_xray | apply keys_shadowsocks | apply keys_trojan
          | apply keys_hysteria2 | apply keys_tor
          | apply elacks_ok;
            first [apply keys_singbox | apply keys_dpi_bypass | apply keys_generic] ].
Qed.

Lemma update_keeps (k : string) (e d : pydict) :
  lacks k e -> Dict.get k (Dict.update d e) = Dict.get k d.
Proof.
  unfold lacks, Dict.update. revert d.
  induction e as [|[k' v] e IH]; intros d H; cbn in *; [reflexivity|].
  destruct (String.eqb k' k) eqn:E; [discriminate|].
  rewrite (IH _ H). apply get_set_other.
  intros ->. now rewrite String.eqb_refl in E.
Qed.

Lemma list_append_keeps (k k' : string) (v : value) (d d' : pydict) :
  k' <> k -> list_append k' v d = Ok d' -> Dict.get k d' = Dict.get k d.
Proof.
  intros Hne. unfold list_append.
  destruct (Dict.get k' d) as [[| | | | |l| |]|]; try discriminate.
  intros [= <-]. now apply get_set_other.
Qed.

Lemma warn_if_keeps (k : string) cond msg (p : progress) :
  "warnings" <> k ->
  Dict.get k (fst (warn_if cond msg p)) = Dict.get k (fst p).
Proof.
  intros Hne. unfold warn_if. destruct p as [config [e|]]; [reflexivity|].
  destruct (cond config); [|reflexivity].
  destruct (list_append "warnings" (VStr msg) config) as [c'|e] eqn:E;
    [|reflexivity].
  cbn. exact (list_append_keeps _ _ _ _ _ Hne E).
Qed.

Lemma validate_keeps (k protocol : string) (config : pydict) :
  "warnings" <> k ->
  Dict.get k (fst (_validate_config protocol config)) = Dict.get k config.
Proof.
  intros Hne. unfold _validate_config.
  repeat match goal with
         | |- context [if ?c then _ else _] => destruct c
         end;
    rewrite ?(warn_if_keeps k) by exact Hne; reflexivity.
Qed.

(** The [try] block keeps the [errors] list empty, and ends without an
    exception only after it set [parsed] to [True]. *)
Lemma parse_body_spec self protocol data result :
  Dict.get "errors" result = Some (VList []) ->
  let p := parse_body json_loads json_loads_wide unquote parse_qs urlparse re_findall repr_list
             self protocol data result in
  Dict.get "errors" (fst p) = Some (VList [])
  /\ (snd p = None -> Dict.get "parsed" (fst p) = Some (VBool true)).
Proof.
  intros He. unfold parse_body.
  pose proof (keys_decode self protocol data) as Hk.
  destruct (decode _ _ _ _ _ _ _ self protocol data) as [parsed|e];
    [|split; [exact He|discriminate]].
  assert (H3e : Dict.get "errors"
                  (Dict.set "parsed" (VBool true) (Dict.update result parsed))
                = Some (VList [])).
  { rewrite get_set_other by discriminate. now rewrite (update_keeps _ _ _ Hk). }
  destruct (_get_protocol_kvm_optimizations self protocol parsed) as [hints|e];
    [|split; [exact H3e|discriminate]].
  cbv zeta. split.
  - rewrite validate_keeps by discriminate.
    now rewrite get_set_other by discriminate.
  - intros _. rewrite validate_keeps by discriminate.
    rewrite get_set_other by discriminate. apply get_set_same.
Qed.

(** X22. [parse] always returns; its result either has [parsed = True]
    and an empty [errors] list, or [parsed = False] and one diagnostic in
    [errors]. In particular a result with errors is never reported as
    parsed. *)
Lemma parse_returns self timestamp protocol data :
  exists r,
    parse json_loads json_loads_wide unquote parse_qs urlparse re_findall repr_list
      self timestamp protocol data = Ok r
    /\ ((Dict.get "parsed" r = Some (VBool true)
         /\ Dict.get "errors" r = Some (VList []))
        \/ (exists e, Dict.get "parsed" r = Some (VBool false)
                      /\ Dict.get "errors" r = Some (VList [VStr e]))).
Proof.
  unfold parse.
  set (result0 := [("timestamp", VStr timestamp); ("protocol", VStr protocol);
                   ("parsed", VBool false);
                   ("kvm_optimizations", _get_kvm_optimizations self);
                   ("warnings", VList []); ("errors", VList [])]).
  assert (Hfinish : forall proto result,
    Dict.get "errors" result = Some (VList []) ->
    exists r,
      match parse_body json_loads json_loads_wide unquote parse_qs urlparse re_findall repr_list
              self proto data result with
      | (result, None) => Ok result
      | (result, Some e) =>
          result <- list_append "errors" (VStr e) result ;;
          Ok (Dict.set "parsed" (VBool false) result)
      end = Ok r
      /\ ((Dict.get "parsed" r = Some (VBool true)
           /\ Dict.get "errors" r = Some (VList []))
          \/ (exists e, Dict.get "parsed" r = Some (VBool false)
                        /\ Dict.get "errors" r = Some (VList [VStr e])))).
  { intros proto result He.
    pose proof (parse_body_spec self proto data result He) as H. cbv zeta in H.
    destruct (parse_body _ _ _ _ _ _ _ self proto data result) as [res [e|]];
      cbn [fst snd] in H; destruct H as [H1 H2].
    - unfold list_append. rewrite H1. cbn [bind].
      eexists. split; [reflexivity|]. right. exists e. split.
      + apply get_set_same.
      + rewrite get_set_other by discriminate. apply get_set_same.
    - eexists. split; [reflexivity|]. left. split; [now apply H2|exact H1]. }
  destruct (String.eqb protocol "auto" || String.eqb protocol "").
  - destruct (one_of (_detect_protocol json_loads self data)
                (supported_protocols self)); cbn [bind list_append];
      apply Hfinish; reflexivity.
  - destruct (one_of protocol (supported_protocols self)); cbn [bind];
      apply Hfinish; reflexivity.
Qed.

End Keys.
(** *** Further properties of the parser *)

(** X12. Auto-detection answers with one of ten tags, and every tag but
    [unknown] names a protocol that the parser supports: a detected
    protocol never draws the warning for unsupported protocols unless it
    is [unknown]. *)
Theorem detect_protocol_tag_is_supported_or_unknown :
  forall (json_loads : string -> exc value) (self : parser) (data : string)
         (res : option pydict),
    let tag := _detect_protocol json_loads self data in
    In tag detection_tags
    /\ (tag = "unknown" \/ one_of tag (supported_protocols (init res)) = true).
Proof.
  intros json_loads self data res tag. subst tag. unfold _detect_protocol.
  set (d := strip data).
  assert (Hleaf : forall t, In t ["shadowsocks"; "trojan"; "xray"; "wireguard";
                                  "amneziawg"; "hysteria2"; "openvpn"; "sing-box";
                                  "tor"] ->
            In t detection_tags
            /\ (t = "unknown" \/ one_of t (supported_protocols (init res)) = true)).
  { intros t Ht. cbn in Ht.
    repeat (destruct Ht as [<-|Ht]; [split; [cbn; tauto|right; reflexivity]|]).
    destruct Ht. }
  assert (Hunknown : In "unknown" detection_tags
            /\ ("unknown" = "unknown"
                \/ one_of "unknown" (supported_protocols (init res)) = true)).
  { split; [cbn; tauto|now left]. }
  repeat match goal with
         | |- context [if ?c then _ else _] =>
             lazymatch c with
             | context [json_loads] => fail
             | _ => destruct c; try (apply Hleaf; cbn; tauto)
             end
         end.
  all: try exact Hunknown.
  all: destruct (json_loads d) as [j|e]; cbn [bind try_except];
    try (destruct (py_in "outbounds" j) as [[|]|e]; cbn [bind try_except]);
    try (destruct (py_in "inbounds" j) as [[|]|e]; cbn [bind try_except]);
    repeat match goal with
           | |- context [if ?c then _ else _] => destruct c
           end;
    first [exact Hunknown | apply Hleaf; cbn; tauto].
Qed.

Lemma lower_not_capital_all (c : ascii) : lower_not_capital c = true.
Proof. revert c. apply forall_bytes. vm_compute. reflexivity. Qed.

Lemma lower_differs (x r : string) :
  lower x <> String "S" r /\ lower x <> String "C" r.
Proof.
  destruct x as [|c x]; cbn; [split; discriminate|].
  pose proof (lower_not_capital_all c) as H. unfold lower_not_capital in H.
  apply andb_true_iff in H. destruct H as [H1 H2].
  apply negb_true_iff in H1, H2.
  split; intros [= E _]; rewrite E in *; discriminate.
Qed.

Lemma get_tor_line (k : string) (settings : sdict) (line : string) :
  (forall x, lower x <> k) ->
  Dict.get k (tor_line settings line) = Dict.get k settings.
Proof.
  intros Hk. unfold tor_line.
  destruct (String.eqb (strip line) "" || startswith "#" (strip line));
    [reflexivity|].
  destruct (has_char " " (strip line)); [|reflexivity].
  destruct (split_once " " (strip line)) as [[key val]|]; [|reflexivity].
  apply get_set_other. apply Hk.
Qed.

Lemma get_tor_lines (k : string) (lines : list string) :
  (forall x, lower x <> k) ->
  forall settings,
    Dict.get k (fold_left tor_line lines settings) = Dict.get k settings.
Proof.
  intros Hk. induction lines as [|l lines IH]; intros settings; cbn;
    [reflexivity|].
  rewrite IH. now apply get_tor_line.
Qed.

(** X13. The Tor decoder writes its port defaults whatever the input
    says: whenever it returns, the settings hold [SOCKSPort] = 9050 and
    [ControlPort] = 9051. The keys read from the input are stored in lower
    case, so a [SOCKSPort] line of the input never counts as present. *)
Theorem tor_port_defaults_always_written :
  forall (self : parser) (data : string),
    returned (_parse_tor self data) = true ->
    exists settings,
      field "settings" (_parse_tor self data) = Some (str_dict settings)
      /\ Dict.get "SOCKSPort" settings = Some "9050"
      /\ Dict.get "ControlPort" settings = Some "9051".
Proof.
  intros self data. unfold _parse_tor.
  destruct (py_min _ 2) as [cpus|e]; [intros _|discriminate]. cbn [bind].
  set (s0 := fold_left tor_line (split_all "010" data) []).
  assert (H1 : Dict.get "SOCKSPort" s0 = None).
  { unfold s0. rewrite get_tor_lines; [reflexivity|].
    intros x. apply (lower_differs x). }
  assert (H2 : Dict.get "ControlPort" s0 = None).
  { unfold s0. rewrite get_tor_lines; [reflexivity|].
    intros x. apply (lower_differs x). }
  unfold Dict.has. rewrite H1.
  rewrite (get_set_other "SOCKSPort" "ControlPort") by discriminate.
  rewrite H2.
  eexists. split; [reflexivity|]. split.
  - rewrite get_set_other by discriminate. apply get_set_same.
  - apply get_set_same.
Qed.

(** The theorem at a configuration with its own [SOCKSPort] line: the
    line is kept under [socksport], beside the default. *)
Lemma tor_port_defaults_witness :
  exists settings,
    field "settings" (_parse_tor (init None) torrc_with_socks_port)
    = Some (str_dict settings)
    /\ Dict.get "SOCKSPort" settings = Some "9050"
    /\ Dict.get "socksport" settings = Some "9150".
Proof.
  destruct (tor_port_defaults_always_written (init None) torrc_with_socks_port)
    as (settings & H1 & H2 & _); [vm_compute; reflexivity|].
  exists settings. split; [exact H1|]. split; [exact H2|].
  vm_compute in H1. injection H1 as H1.
  assert (E : settings = [("socksport", "9150"); ("exitnodes", "{de}");
                          ("SOCKSPort", "9050"); ("ControlPort", "9051")]).
  { revert H1. clear. revert settings.
    intros [|[k1 v1] [|[k2 v2] [|[k3 v3] [|[k4 v4] [|? ?]]]]]; cbn;
      try discriminate.
    intros [= <- <- <- <- <- <- <- <-]. reflexivity. }
  rewrite E. reflexivity.
Defined.

Lemma sub_set_keeps (k k' k2 : string) (v : value) (d d' : pydict) :
  k' <> k -> sub_set k' k2 v d = Ok d' -> Dict.get k d' = Dict.get k d.
Proof.
  intros Hne. unfold sub_set.
  destruct (Dict.get k' d) as [[| | | | | |e|]|]; try discriminate.
  intros [= <-]. now apply get_set_other.
Qed.

Lemma ovpn_directive_keeps_inline parts result result' :
  ovpn_directive parts result = Ok result' ->
  Dict.get "inline_keys" result' = Dict.get "inline_keys" result.
Proof.
  unfold ovpn_directive. destruct parts as [|d args]; [now intros [= <-]|].
  repeat match goal with
         | |- context [if ?c then _ else _] => destruct c
         end;
    try (intros [= <-]; first [reflexivity|now apply get_set_other]).
  - destruct args as [|server more]; [now intros [= <-]|].
    intros H. apply bind_ok_inv in H. destruct H as (prt & _ & H).
    now apply (list_append_keeps "inline_keys") in H.
  - intros H. apply bind_ok_inv in H. destruct H as (r1 & H1 & H).
    apply (sub_set_keeps "inline_keys") in H1; [|discriminate].
    destruct args as [|f ?].
    + injection H as <-. exact H1.
    + apply (sub_set_keeps "inline_keys") in H; [|discriminate]. congruence.
Qed.

Lemma closing_tag_is_a_tag (line : string) :
  startswith "</" line = true -> startswith "<" line = true.
Proof.
  intros H. apply prefix_app in H. destruct H as [r ->]. now destruct r.
Qed.

Lemma ovpn_line_keeps_inline st line st' :
  ovpn_line st line = Ok st' ->
  Dict.get "inline_keys" (ovpn_result st')
  = Dict.get "inline_keys" (ovpn_result st).
Proof.
  unfold ovpn_line.
  destruct (String.eqb (strip line) "" || startswith "#" (strip line));
    [now intros [= <-]|].
  destruct (startswith "<" (strip line)) eqn:Hopen; cbn [andb].
  - destruct (endswith ">" (strip line)); [now intros [= <-]|].
    rewrite andb_false_r.
    destruct (inline_open st); [now intros [= <-]|].
    intros H. apply bind_ok_inv in H. destruct H as (res & Hres & [= <-]). cbn.
    exact (ovpn_directive_keeps_inline _ _ _ Hres).
  - destruct (startswith "</" (strip line)) eqn:Hclose.
    { apply closing_tag_is_a_tag in Hclose. congruence. }
    cbn [andb].
    destruct (inline_open st); [now intros [= <-]|].
    intros H. apply bind_ok_inv in H. destruct H as (res & Hres & [= <-]). cbn.
    exact (ovpn_directive_keeps_inline _ _ _ Hres).
Qed.

Lemma ovpn_loop_keeps_inline lines :
  forall st st',
    ovpn_loop lines st = Ok st' ->
    Dict.get "inline_keys" (ovpn_result st')
    = Dict.get "inline_keys" (ovpn_result st).
Proof.
  induction lines as [|l lines IH]; intros st st' H; cbn in H.
  - now injection H as <-.
  - apply bind_ok_inv in H. destruct H as (st1 & H1 & H2).
    rewrite (IH _ _ H2). exact (ovpn_line_keeps_inline _ _ _ H1).
Qed.

(** X14. The OpenVPN decoder never stores an inline key: a closing tag
    such as [</ca>] also starts with [<] and ends with [>], so it is read
    as another opening tag and the branch that would store the block is
    never reached. Whenever the decoder returns, [inline_keys] is the
    empty dictionary. *)
Theorem openvpn_inline_keys_never_stored :
  forall (self : parser) (data : string),
    returned (_parse_openvpn self data) = true ->
    field "inline_keys" (_parse_openvpn self data) = Some (VDict []).
Proof.
  intros self data. unfold _parse_openvpn.
  match goal with
  | |- context [ovpn_loop ?l ?s] =>
      pose proof (ovpn_loop_keeps_inline l s) as H;
      destruct (ovpn_loop l s) as [st|e]
  end; [intros _|discriminate].
  cbn [bind field]. now rewrite (H st eq_refl).
Qed.

(** The theorem at a configuration with an inline [ca] block. *)
Lemma openvpn_inline_keys_witness :
  returned (_parse_openvpn (init None) ovpn_with_inline_ca) = true
  /\ field "inline_keys" (_parse_openvpn (init None) ovpn_with_inline_ca)
     = Some (VDict []).
Proof.
  assert (H : returned (_parse_openvpn (init None) ovpn_with_inline_ca) = true)
    by (vm_compute; reflexivity).
  split; [exact H|].
  exact (openvpn_inline_keys_never_stored (init None) ovpn_with_inline_ca H).
Defined.

Lemma wireguard_url_has_interface
  (parse_qs : string -> list (string * list string)) self u r :
  _parse_wireguard_url parse_qs self u = Ok r ->
  exists iface, Dict.get "interface" r = Some (VDict iface).
Proof.
  unfold _parse_wireguard_url. cbv zeta.
  repeat match goal with
         | |- context [if ?c then _ else _] => destruct c
         | |- context [match ?x with _ => _ end] => destruct x
         end;
    intros H; apply bind_ok_inv in H; destruct H as (i0 & _ & H);
    repeat match type of H with
           | context [if ?c then _ else _] => destruct c
           | context [match ?x with _ => _ end] => destruct x
           end;
    injection H as <-; eexists; reflexivity.
Qed.

Lemma wireguard_has_interface
  (parse_qs : string -> list (string * list string)) self data r :
  _parse_wireguard parse_qs self data = Ok r ->
  exists iface, Dict.get "interface" r = Some (VDict iface).
Proof.
  unfold _parse_wireguard. intros H.
  apply bind_ok_inv in H. destruct H as (rx & _ & H).
  apply bind_ok_inv in H. destruct H as (tx & _ & H).
  destruct (startswith "wg://" data || startswith "wireguard://" data).
  - exact (wireguard_url_has_interface _ _ _ _ H).
  - injection H as <-. eexists. reflexivity.
Qed.

Lemma set_missing_get (k : string) (iface : pydict) (kv : string * string) :
  Dict.get k (set_missing iface kv)
  = if String.eqb (fst kv) k
    then Some (get_default k iface (VStr (snd kv)))
    else Dict.get k iface.
Proof.
  unfold set_missing, Dict.has, get_default.
  destruct (String.eqb_spec (fst kv) k) as [->|Hne].
  - destruct (Dict.get k iface) eqn:E; [exact E|apply get_set_same].
  - destruct (Dict.get (fst kv) iface); [reflexivity|now apply get_set_other].
Qed.

Lemma set_missing_keeps (k : string) (v : value) (iface : pydict)
  (kv : string * string) :
  Dict.get k iface = Some v -> Dict.get k (set_missing iface kv) = Some v.
Proof.
  intros H. rewrite set_missing_get. unfold get_default. rewrite H.
  now destruct (String.eqb (fst kv) k).
Qed.

Lemma awg_defaults_filled (iface : pydict) :
  let iface' := fold_left set_missing awg_defaults iface in
  (forall k v, Dict.get k iface = Some v -> Dict.get k iface' = Some v)
  /\ (forall k d, In (k, d) awg_defaults ->
        Dict.get k iface' = Some (get_default k iface (VStr d))).
Proof.
  cbv zeta. split.
  - intros k v H. cbn. now do 5 apply set_missing_keeps.
  - intros k d Hin. cbn in Hin |- *.
    repeat (destruct Hin as [[= <- <-]|Hin];
            [repeat (rewrite set_missing_get; cbn [fst snd String.eqb Ascii.eqb Bool.eqb]);
             unfold get_default;
             repeat (rewrite set_missing_get;
                     cbn [fst snd String.eqb Ascii.eqb Bool.eqb]);
             reflexivity|]).
    destruct Hin.
Qed.

(** X15. The AmneziaWG decoder is the WireGuard decoder with the five
    junk-packet tunables filled in: whenever the WireGuard decoder
    returns, so does the AmneziaWG decoder; its result has the type
    [amneziawg]; its interface keeps every entry of the WireGuard
    interface and holds [jc], [jmin], [jmax], [s1] and [s2], each with the
    value of the input when it gave one and with the default otherwise;
    every other entry of the result is that of the WireGuard decoder. *)
Theorem amneziawg_fills_missing_tunables :
  forall (parse_qs : string -> list (string * list string)) (self : parser)
         (data : string) (r : pydict),
    _parse_wireguard parse_qs self data = Ok r ->
    exists iface iface' r',
      Dict.get "interface" r = Some (VDict iface)
      /\ _parse_amneziawg parse_qs self data = Ok r'
      /\ Dict.get "type" r' = Some (VStr "amneziawg")
      /\ Dict.get "interface" r' = Some (VDict iface')
      /\ (forall k v, Dict.get k iface = Some v -> Dict.get k iface' = Some v)
      /\ (forall k d, In (k, d) awg_defaults ->
            Dict.get k iface' = Some (get_default k iface (VStr d)))
      /\ (forall k, k <> "type" -> k <> "interface" ->
            Dict.get k r' = Dict.get k r).
Proof.
  intros parse_qs self data r H.
  destruct (wireguard_has_interface _ _ _ _ H) as [iface Hi].
  exists iface, (fold_left set_missing awg_defaults iface).
  unfold _parse_amneziawg. rewrite H. cbn [bind].
  rewrite (get_set_other "type" "interface") by discriminate. rewrite Hi.
  eexists. split; [reflexivity|]. split; [reflexivity|].
  split; [rewrite get_set_other by discriminate; apply get_set_same|].
  split; [apply get_set_same|].
  destruct (awg_defaults_filled iface) as [H1 H2].
  split; [exact H1|]. split; [exact H2|].
  intros k Hk1 Hk2. rewrite !get_set_other by congruence. reflexivity.
Qed.

(** The theorem at a configuration that sets [Jmax] only: the value 50
    of the input is kept, and [jc] gets its default. *)
Lemma amneziawg_fills_missing_witness :
  exists iface',
    field "interface" (_parse_amneziawg (fun _ => []) (init None) jmax_config)
    = Some (VDict iface')
    /\ Dict.get "jmax" iface' = Some (VStr "50")
    /\ Dict.get "jc" iface' = Some (VStr "4")
    /\ Dict.get "privatekey" iface' = Some (VStr "k").
Proof.
  destruct (_parse_wireguard (fun _ => []) (init None) jmax_config) as [r|e] eqn:E;
    [|vm_compute in E; discriminate].
  destruct (amneziawg_fills_missing_tunables (fun _ => []) (init None) jmax_config
              r E) as (iface & iface' & r' & Hi & Hr & _ & Hi' & Hkeep & Hdef & _).
  exists iface'. rewrite Hr. split; [exact Hi'|].
  vm_compute in E. injection E as <-. vm_compute in Hi. injection Hi as <-.
  split; [apply Hkeep; reflexivity|].
  split; [apply (Hdef "jc" "4"); cbn; tauto|apply Hkeep; reflexivity].
Defined.

Lemma warn_if_appends cond msg (p : progress) l :
  snd p = None ->
  Dict.get "warnings" (fst p) = Some (VList l) ->
  exists extra,
    snd (warn_if cond msg p) = None
    /\ Dict.get "warnings" (fst (warn_if cond msg p)) = Some (VList (l ++ extra)).
Proof.
  destruct p as [config o]. cbn [fst snd]. intros -> H.
  unfold warn_if, list_append.
  destruct (cond config).
  - rewrite H. cbn. exists [VStr msg]. split; [reflexivity|apply get_set_same].
  - exists []. cbn. now rewrite app_nil_r.
Qed.

Lemma validate_appends (protocol : string) (config : pydict) (l : list value) :
  Dict.get "warnings" config = Some (VList l) ->
  exists extra,
    snd (_validate_config protocol config) = None
    /\ Dict.get "warnings" (fst (_validate_config protocol config))
       = Some (VList (l ++ extra)).
Proof.
  intros H. unfold _validate_config.
  repeat match goal with
         | |- context [if ?c then _ else _] => destruct c
         end.
  - destruct (warn_if_appends (absent_or_empty "interface") msg_no_interface
                (config, None) l eq_refl H) as (e1 & A & B).
    destruct (warn_if_appends (absent_or_empty "peers") msg_no_peers
                _ _ A B) as (e2 & C & D).
    exists (e1 ++ e2)%list. rewrite app_assoc. now split.
  - exact (warn_if_appends _ _ (config, None) l eq_refl H).
  - destruct (warn_if_appends (absent_or_empty "server") msg_no_server
                (config, None) l eq_refl H) as (e1 & A & B).
    destruct (warn_if_appends (fun c => negb (Dict.has "port" c)) msg_no_port
                _ _ A B) as (e2 & C & D).
    exists (e1 ++ e2)%list. rewrite app_assoc. now split.
  - exists []. cbn. now rewrite app_nil_r.
Qed.

(** X16. Validation only adds warnings: on a configuration whose
    [warnings] entry is a list, [_validate_config] ends without an
    exception, leaves every other entry as it was, and leaves in
    [warnings] the list it found, followed by the warnings it added. It
    never turns a parsed result into a failed one. *)
Theorem validation_only_appends_warnings :
  forall (protocol : string) (config : pydict) (l : list value),
    Dict.get "warnings" config = Some (VList l) ->
    let p := _validate_config protocol config in
    snd p = None
    /\ (exists extra, Dict.get "warnings" (fst p) = Some (VList (l ++ extra)))
    /\ forall k, k <> "warnings" -> Dict.get k (fst p) = Dict.get k config.
Proof.
  intros protocol config l H p. subst p.
  destruct (validate_appends protocol config l H) as (extra & H1 & H2).
  split; [exact H1|]. split; [now exists extra|].
  intros k Hk. apply validate_keeps. congruence.
Qed.

(** The theorem at a WireGuard result without peers. *)
Lemma validation_witness :
  let config := [("type", VStr "wireguard"); ("interface", VDict [("a", VStr "b")]);
                 ("peers", VList []); ("warnings", VList [])] in
  snd (_validate_config "wireguard" config) = None
  /\ Dict.get "peers" (fst (_validate_config "wireguard" config)) = Some (VList [])
  /\ Dict.get "warnings" (fst (_validate_config "wireguard" config))
     = Some (VList [VStr msg_no_peers]).
Proof.
  intros config.
  destruct (validation_only_appends_warnings "wireguard" config [] eq_refl)
    as (H1 & _ & H3).
  split; [exact H1|]. split; [apply H3; discriminate|reflexivity].
Defined.

(** X17. A protocol name that the parser does not support is not
    refused: [parse] hands the input to the generic decoder and reports
    [parsed = True] with the type [unknown] and an empty [errors] list;
    the only trace is the first entry of [warnings]. *)
Theorem unsupported_protocol_parsed_as_unknown :
  forall (json_loads : string -> exc value)
         (json_loads_wide : text -> exc value) (unquote : string -> string)
         (parse_qs : string -> list (string * list string))
         (urlparse : string -> exc url)
         (re_findall : string -> string -> list string)
         (repr_list : list string -> string)
         (res : option pydict) (timestamp protocol data : string),
    one_of protocol ("auto" :: "" :: supported_protocols (init res)) = false ->
    let r := parse json_loads json_loads_wide unquote parse_qs urlparse
               re_findall repr_list (init res) timestamp protocol data in
    returned r = true
    /\ field "parsed" r = Some (VBool true)
    /\ field "type" r = Some (VStr "unknown")
    /\ field "errors" r = Some (VList [])
    /\ exists more,
         field "warnings" r = Some (VList (VStr (msg_unsupported protocol) :: more)).
Proof.
  intros json_loads json_loads_wide unquote parse_qs urlparse re_findall
         repr_list res timestamp protocol data H r. subst r.
  unfold one_of in H. cbn [existsb supported_protocols init] in H.
  repeat match type of H with
         | (_ || _ = false) =>
             apply orb_false_iff in H; let E := fresh "E" in destruct H as [E H]
         end.
  unfold parse, parse_body, decode, _get_protocol_kvm_optimizations, one_of.
  cbn [existsb supported_protocols init].
  rewrite E, E0. cbn [orb].
  repeat (progress (rewrite ?E1, ?E2, ?E3, ?E4, ?E5, ?E6, ?E7, ?E8, ?E9, ?E10,
                      ?E11, ?E12;
                    cbn [orb bind list_append Dict.get String.eqb Ascii.eqb
                         Bool.eqb])).
  match goal with
  | |- context [_validate_config protocol ?c] =>
      destruct (validate_appends protocol c [VStr (msg_unsupported protocol)]
                  eq_refl) as (extra & H1 & H2);
      pose proof (fun k Hk => validate_keeps k protocol c Hk) as H3;
      destruct (_validate_config protocol c) as [c' o]
  end.
  cbn [fst snd] in *. subst o. cbn [returned field].
  split; [reflexivity|].
  split; [now rewrite H3 by discriminate|].
  split; [now rewrite H3 by discriminate|].
  split; [now rewrite H3 by discriminate|].
  exists extra. exact H2.
Qed.

(** The theorem at the protocol name [vless], which [_validate_config]
    knows but the parser does not list. *)
Lemma unsupported_protocol_witness :
  field "parsed"
    (parse (fun _ => Raise "not JSON") (fun _ => Raise "not JSON")
       (fun s => s) (fun _ => [])
       (fun _ => Raise "no URL") (fun _ _ => []) (fun _ => "[]")
       (init None) "2024-01-01T00:00:00" "vless" "vless://id@host:443")
  = Some (VBool true).
Proof.
  exact (proj1 (proj2
    (unsupported_protocol_parsed_as_unknown
       (fun _ => Raise "not JSON") (fun _ => Raise "not JSON")
       (fun s => s) (fun _ => [])
       (fun _ => Raise "no URL") (fun _ _ => []) (fun _ => "[]")
       None "2024-01-01T00:00:00" "vless" "vless://id@host:443" eq_refl))).
Defined.

Lemma cpu_count_min (self : parser) (k : Z) :
  cpu_count_ok self ->
  exists v, py_min (get_default "cpu_count" (kvm_resources self) (VInt 4)) k = Ok v.
Proof. intros [c ->]. cbn. eauto. Qed.

(** X18. WireGuard links round-trip: for a private key free of [#], [?],
    [@] and [+], a public key free of [#], [?] and [@], and an endpoint
    free of [#] and [?], the link [wg://private+public@endpoint#name]
    decodes to an interface with that private key, one peer with that
    public key and endpoint, and that name. *)
Theorem wireguard_link_round_trip :
  forall (parse_qs : string -> list (string * list string)) (self : parser)
         (private_key public_key endpoint name : string),
    cpu_count_ok self ->
    free_of "#?@+" private_key = true ->
    free_of "#?@" public_key = true ->
    free_of "#?" endpoint = true ->
    let r := _parse_wireguard parse_qs self
               ("wg://" ++ private_key ++ "+" ++ public_key ++ "@" ++ endpoint
                ++ "#" ++ name) in
    returned r = true
    /\ field "type" r = Some (VStr "wireguard")
    /\ field "interface" r = Some (str_dict [("privatekey", private_key)])
    /\ field "peers" r
       = Some (VList [str_dict [("publickey", public_key); ("endpoint", endpoint)]])
    /\ field "name" r = Some (VStr name).
Proof.
  intros parse_qs self priv pub endpoint name Hcpu Hpriv Hpub Hend r. subst r.
  free_of_facts Hpriv. free_of_facts Hpub. free_of_facts Hend.
  set (keys := priv ++ String "+" pub).
  set (body := keys ++ String "@" endpoint).
  assert (Hdata : "wg://" ++ priv ++ "+" ++ pub ++ "@" ++ endpoint ++ "#" ++ name
                  = "wg://" ++ (body ++ String "#" name)).
  { unfold body, keys. cbn [append]. do 5 f_equal.
    rewrite !append_assoc. reflexivity. }
  rewrite Hdata. clear Hdata.
  assert (K1 : has_char "#" keys = false).
  { unfold keys. rewrite has_char_app. cbn. now rewrite F, F3. }
  assert (K2 : has_char "?" keys = false).
  { unfold keys. rewrite has_char_app. cbn. now rewrite F0, F4. }
  assert (K3 : has_char "@" keys = false).
  { unfold keys. rewrite has_char_app. cbn. now rewrite F1, F5. }
  assert (B1 : has_char "#" body = false).
  { unfold body. rewrite has_char_app. cbn. now rewrite K1, F6. }
  assert (B2 : has_char "?" body = false).
  { unfold body. rewrite has_char_app. cbn. now rewrite K2, F7. }
  assert (E : exists hints,
            _parse_wireguard parse_qs self ("wg://" ++ (body ++ String "#" name))
            = Ok [("type", VStr "wireguard");
                  ("interface", str_dict [("privatekey", priv)]);
                  ("peers",
                   VList [str_dict [("publickey", pub); ("endpoint", endpoint)]]);
                  ("kvm_optimizations", hints);
                  ("name", VStr name)]).
  { unfold _parse_wireguard.
    destruct (cpu_count_min self 8 Hcpu) as [v ->]. cbn [bind].
    unfold startswith at 1. rewrite prefix_here. cbn [orb].
    unfold _parse_wireguard_url, strip_wg_scheme, startswith.
    rewrite prefix_here.
    change (drop 5 ("wg://" ++ (body ++ String "#" name)))
      with (body ++ String "#" name).
    rewrite has_char_here, (split_once_app _ _ _ B1). rewrite B2. cbn [bind].
    unfold body. rewrite has_char_here, (split_once_app _ _ _ K3).
    unfold keys. rewrite has_char_here, (split_once_app _ _ _ F2).
    eexists. reflexivity. }
  destruct E as [hints ->]. repeat split.
Qed.

(** The theorem at a link with short keys. *)
Lemma wireguard_link_round_trip_witness :
  let r := _parse_wireguard (fun _ => []) (init None)
             "wg://cHJpdg==+cHVi@198.51.100.7:51820#office" in
  returned r = true
  /\ field "interface" r = Some (str_dict [("privatekey", "cHJpdg==")])
  /\ field "name" r = Some (VStr "office").
Proof.
  intros r.
  destruct (wireguard_link_round_trip (fun _ => []) (init None)
              "cHJpdg==" "cHVi" "198.51.100.7:51820" "office")
    as (H1 & _ & H3 & _ & H5); try reflexivity.
  - exists 4%Z. reflexivity.
  - repeat split; assumption.
Defined.

Lemma append_nil_r (s : string) : s ++ "" = s.
Proof. induction s as [|c s IH]; cbn; [reflexivity|now rewrite IH]. Qed.

Lemma b64encode_length4 (b : bytes) :
  (String.length (Base64.b64encode b) mod 4 = 0)%nat.
Proof.
  induction b as [|x|x y|x y z r IH] using bytes_ind3; try reflexivity.
  cbn [Base64.b64encode String.length].
  replace (S (S (S (S (String.length (Base64.b64encode r))))))
    with (String.length (Base64.b64encode r) + 1 * 4)%nat by lia.
  now rewrite Nat.Div0.mod_add.
Qed.

Lemma pad4_b64encode (b : bytes) :
  pad4 (Base64.b64encode b) = Base64.b64encode b.
Proof.
  unfold pad4. rewrite b64encode_length4.
  change ((4 - 0) mod 4)%nat with 0%nat. apply append_nil_r.
Qed.

(** X19. VMess links round-trip: when the payload of the link is the
    padded base64 of a text that [json.loads] reads as an object, and the
    [port] and [aid] of the object convert to integers, the decoder returns
    the [id], [add], [port] and [aid] of the object (or their defaults),
    without an [error] entry. *)
Theorem vmess_link_round_trip :
  forall (json_loads : string -> exc value)
         (json_loads_wide : text -> exc value) (self : parser)
         (payload : string) (o : pydict) (p a : Z),
    json_loads payload = Ok (VDict o) ->
    int_of_value (get_default "port" o (VInt 443)) = Ok p ->
    int_of_value (get_default "aid" o (VInt 0)) = Ok a ->
    let r := _parse_vmess_url json_loads json_loads_wide self
               ("vmess://" ++ Base64.b64encode (Utf8.encode payload)) in
    Dict.get "protocol" r = Some (VStr "vmess")
    /\ Dict.get "uuid" r = Some (get_default "id" o (VStr ""))
    /\ Dict.get "server" r = Some (get_default "add" o (VStr ""))
    /\ Dict.get "port" r = Some (VInt p)
    /\ Dict.get "aid" r = Some (VInt a)
    /\ Dict.get "error" r = None.
Proof.
  intros json_loads json_loads_wide self payload o p a Hj Hp Ha r. subst r.
  unfold _parse_vmess_url.
  change (drop 8 ("vmess://" ++ Base64.b64encode (Utf8.encode payload)))
    with (Base64.b64encode (Utf8.encode payload)).
  cbv zeta. rewrite pad4_b64encode, b64decode_b64encode. cbn [bind].
  rewrite utf8_decode_encode. cbn [bind]. unfold json_of_text.
  rewrite narrow_points, Hj. cbn [bind json_get].
  rewrite Hp, Ha. cbn [bind py_in].
  destruct (Dict.has "path" o && _); cbn [bind try_except]; repeat split.
Qed.

(** The theorem at the link whose payload is the empty JSON object. *)
Lemma vmess_link_round_trip_witness :
  let json := fun s : string =>
                if String.eqb s "{}" then Ok (VDict []) else Raise "not JSON" in
  let r := _parse_vmess_url json (fun _ => Raise "not JSON") (init None)
             "vmess://e30=" in
  Dict.get "port" r = Some (VInt 443) /\ Dict.get "error" r = None.
Proof.
  intros json r.
  destruct (vmess_link_round_trip json (fun _ => Raise "not JSON")
              (init None) "{}" [] 443 0
              eq_refl eq_refl eq_refl) as (_ & _ & _ & H4 & _ & H6).
  split; [exact H4|exact H6].
Defined.

(** X20. Hysteria2 links are read only up to their query string. The link
    [hy2://host:port?query], with a host free of [:] and [?], a port in
    at most 4300 decimal digits (the longest literal that [int] converts)
    and a query without [up] and [down] parameters, decodes to that
    server, the value of the port and the [auth] parameter. The
    same link without a query string decodes to a result that has neither
    server nor port. *)
Theorem hysteria2_link_needs_query :
  forall (json_loads : string -> exc value)
         (parse_qs : string -> list (string * list string)) (self : parser)
         (host pt q : string) (auth : option string),
    free_of ":?" host = true ->
    all_digits pt = true -> pt <> "" -> (String.length pt <= 4300)%nat ->
    qs_first "auth" (parse_qs q) = Ok auth ->
    Dict.get "up" (parse_qs q) = None ->
    Dict.get "down" (parse_qs q) = None ->
    let with_query := _parse_hysteria2 json_loads parse_qs self
                        ("hy2://" ++ host ++ ":" ++ pt ++ "?" ++ q) in
    let bare := _parse_hysteria2 json_loads parse_qs self
                  ("hy2://" ++ host ++ ":" ++ pt) in
    (returned with_query = true
     /\ field "server" with_query = Some (VStr host)
     /\ field "port" with_query = Some (VInt (Z.of_N (dec_value pt)))
     /\ field "auth" with_query = option_map VStr auth)
    /\ (returned bare = true
        /\ field "server" bare = None /\ field "port" bare = None).
Proof.
  intros json_loads parse_qs self host pt q auth Hh Hd Hne Hlen Hauth Hup
         Hdown with_query bare.
  free_of_facts Hh.
  assert (P1 : has_char "?" pt = false) by (now apply has_char_digits).
  set (address := host ++ String ":" pt).
  assert (A1 : has_char "?" address = false).
  { unfold address. rewrite has_char_app. cbn. now rewrite F0, P1. }
  split.
  - assert (E : with_query
                = Ok (set_opt "auth" (option_map VStr auth)
                        (Dict.set "port" (VInt (Z.of_N (dec_value pt)))
                           (Dict.set "server" (VStr host)
                              [("type", VStr "hysteria2");
                               ("protocol", VStr "hysteria2");
                               ("kvm_optimizations",
                                VDict [("quic", VBool true); ("bbr", VBool true);
                                       ("fast_open", VBool true)])])))).
    { unfold with_query.
      replace ("hy2://" ++ host ++ ":" ++ pt ++ "?" ++ q)
        with ("hy2://" ++ (address ++ String "?" q))
        by (unfold address; cbn [append]; do 6 f_equal;
            rewrite append_assoc; reflexivity).
      unfold _parse_hysteria2, strip_hy_scheme, startswith.
      rewrite prefix_here, orb_true_r.
      replace (prefix "hysteria://" ("hy2://" ++ (address ++ String "?" q)))
        with false by (cbn; now destruct (address ++ String "?" q)).
      change (drop 6 ("hy2://" ++ (address ++ String "?" q)))
        with (address ++ String "?" q).
      rewrite has_char_here, (split_once_app _ _ _ A1).
      unfold address. rewrite has_char_here, (split_once_app _ _ _ F).
      unfold int_of_str. rewrite (py_int_digits pt Hd Hne Hlen). cbn [bind].
      unfold qs_first at 2 3. rewrite Hup, Hdown, Hauth. cbn [bind].
      reflexivity. }
    rewrite E. cbn [returned field].
    destruct auth as [x|]; cbn [set_opt option_map]; repeat split.
  - assert (E : bare
                = Ok [("type", VStr "hysteria2"); ("protocol", VStr "hysteria2");
                      ("kvm_optimizations",
                       VDict [("quic", VBool true); ("bbr", VBool true);
                              ("fast_open", VBool true)])]).
    { unfold bare.
      replace ("hy2://" ++ host ++ ":" ++ pt) with ("hy2://" ++ address)
        by reflexivity.
      unfold _parse_hysteria2, strip_hy_scheme, startswith.
      rewrite prefix_here, orb_true_r.
      replace (prefix "hysteria://" ("hy2://" ++ address))
        with false by (cbn; now destruct address).
      change (drop 6 ("hy2://" ++ address)) with address.
      now rewrite A1. }
    rewrite E. repeat split.
Qed.

(** The theorem at a link with an [auth] parameter. *)
Lemma hysteria2_link_witness :
  let qs := fun _ : string => [("auth", ["secret"])] in
  let json := fun _ : string => @Raise value "not JSON" in
  field "port" (_parse_hysteria2 json qs (init None) "hy2://vpn.example.org:8443?auth=secret")
  = Some (VInt 8443)
  /\ field "server" (_parse_hysteria2 json qs (init None) "hy2://vpn.example.org:8443")
     = None.
Proof.
  intros qs json.
  destruct (hysteria2_link_needs_query json qs (init None)
              "vpn.example.org" "8443" "auth=secret" (Some "secret")
              eq_refl eq_refl) as ((_ & _ & H3 & _) & (_ & H5 & _));
    try reflexivity; [discriminate|cbn; lia|].
  split; [exact H3|exact H5].
Defined.

Lemma dpi_args_sound (n : nat) :
  forall (args : list string) (acc : pydict) (k : string) (v : value),
    (List.length args <= n)%nat ->
    Dict.get k (dpi_args args acc) = Some v ->
    Dict.get k acc = Some v
    \/ (In ("--" ++ k) args
        /\ (v = VBool true
            \/ exists s, v = VStr s /\ In s args /\ startswith "--" s = false)).
Proof.
  induction n as [|n IH]; intros args acc k v Hlen H.
  { destruct args; [now left|cbn in Hlen; lia]. }
  destruct args as [|arg rest]; [now left|].
  cbn [dpi_args] in H. cbn [List.length] in Hlen.
  destruct (startswith "--" arg) eqn:Harg.
  2:{ destruct (IH rest acc k v ltac:(lia) H) as [Hk|(Hin & Hv)]; [now left|].
      right. split; [now right|].
      destruct Hv as [->|(s & -> & Hs & Hp)]; [now left|].
      right. exists s. repeat split; [now right|exact Hp]. }
  apply prefix_app in Harg. destruct Harg as [key ->].
  change (drop 2 ("--" ++ key)) with key in H.
  assert (Hset : forall x rest',
            (forall a, In a rest' -> In a rest) ->
            (x = VBool true
             \/ exists s, x = VStr s /\ In s rest /\ startswith "--" s = false) ->
            (List.length rest' <= n)%nat ->
            Dict.get k (dpi_args rest' (Dict.set key x acc)) = Some v ->
            Dict.get k acc = Some v
            \/ (In ("--" ++ k) (("--" ++ key) :: rest)
                /\ (v = VBool true
                    \/ exists s, v = VStr s /\ In s (("--" ++ key) :: rest)
                                 /\ startswith "--" s = false))).
  { intros x rest' Hsub Hx Hl Hget.
    destruct (IH rest' _ k v Hl Hget) as [Hk|(Hin & Hv)].
    - destruct (String.eqb_spec key k) as [->|Hne].
      + rewrite get_set_same in Hk. injection Hk as <-.
        right. split; [now left|].
        destruct Hx as [->|(s & -> & Hs & Hp)]; [now left|].
        right. exists s. repeat split; [now right|exact Hp].
      + rewrite get_set_other in Hk by exact Hne. now left.
    - right. split; [right; now apply Hsub|].
      destruct Hv as [->|(s & -> & Hs & Hp)]; [now left|].
      right. exists s. repeat split; [right; now apply Hsub|exact Hp]. }
  destruct rest as [|nxt rest'].
  - apply (Hset (VBool true) []); [intros a []|now left|cbn; lia|exact H].
  - destruct (startswith "--" nxt) eqn:Hnxt; cbn [negb] in H.
    + apply (Hset (VBool true) (nxt :: rest'));
        [auto|now left|cbn in *; lia|exact H].
    + apply (Hset (VStr nxt) rest');
        [intros a Ha; now right| |cbn in *; lia|exact H].
      right. exists nxt. repeat split; [now left|exact Hnxt].
Qed.

(** X21. The settings of a DPI-bypass tool come from the options of its
    command line: every key of [settings] is the name of a token [--key]
    of the input, and its value is [True] or the text of another token
    that is not itself an option. *)
Theorem dpi_settings_come_from_options :
  forall (self : parser) (protocol data k : string) (v : value) (settings : pydict),
    Dict.get "settings" (_parse_dpi_bypass self protocol data)
    = Some (VDict settings) ->
    Dict.get k settings = Some v ->
    In ("--" ++ k) (split_ws data)
    /\ (v = VBool true
        \/ exists s, v = VStr s /\ In s (split_ws data)
                     /\ startswith "--" s = false).
Proof.
  intros self protocol data k v settings Hs Hk.
  cbn in Hs. injection Hs as <-.
  destruct (dpi_args_sound _ (split_ws data) [] k v (le_n _) Hk) as [H|H];
    [discriminate|exact H].
Qed.

(** The theorem at a command line with a flag and an option with a value. *)
Lemma dpi_settings_witness :
  In "--port" (split_ws "--daemon --port 1080")
  /\ (VStr "1080" = VBool true
      \/ exists s, VStr "1080" = VStr s /\ In s (split_ws "--daemon --port 1080")
                   /\ startswith "--" s = false).
Proof.
  exact (dpi_settings_come_from_options (init None) "byedpi"
           "--daemon --port 1080" "port" (VStr "1080")
           [("daemon", VBool true); ("port", VStr "1080")] eq_refl eq_refl).
Defined.

Lemma outbound_info_object (d : pydict) :
  exists info,
    outbound_info (VDict d) = Ok (VDict info)
    /\ Dict.get "type" info = Some (get_default "type" d VNone)
    /\ Dict.get "tag" info = Some (get_default "tag" d VNone)
    /\ Dict.get "server" info = Dict.get "server" d
    /\ Dict.get "port" info = Dict.get "server_port" d.
Proof.
  unfold outbound_info. cbn [json_get bind py_in json_item]. unfold Dict.has.
  destruct (Dict.get "server" d) as [sv|] eqn:Hsv;
    destruct (Dict.get "server_port" d) as [pt|] eqn:Hpt;
    cbn [bind]; eexists; (split; [reflexivity|]); repeat split.
Qed.

Lemma outbound_loop_objects (items : list value) :
  forall acc,
    (forall x, In x items -> exists d, x = VDict d) ->
    exists infos,
      outbound_loop items acc = ((acc ++ infos)%list, None)
      /\ List.length infos = List.length items
      /\ forall i d,
           nth_error items i = Some (VDict d) ->
           exists info,
             nth_error infos i = Some (VDict info)
             /\ Dict.get "type" info = Some (get_default "type" d VNone)
             /\ Dict.get "tag" info = Some (get_default "tag" d VNone)
             /\ Dict.get "server" info = Dict.get "server" d
             /\ Dict.get "port" info = Dict.get "server_port" d.
Proof.
  induction items as [|x items IH]; intros acc Hall.
  - exists []. cbn. rewrite app_nil_r. repeat split.
    intros [|i] d H; discriminate.
  - destruct (Hall x (or_introl eq_refl)) as [d0 ->].
    destruct (outbound_info_object d0) as (info0 & E0 & P0).
    destruct (IH (acc ++ [VDict info0])%list
                (fun y Hy => Hall y (or_intror Hy))) as (infos & E & Hlen & Hnth).
    exists (VDict info0 :: infos). cbn [outbound_loop]. rewrite E0, E.
    rewrite <- app_assoc. cbn [app List.length]. split; [reflexivity|].
    split; [now rewrite Hlen|].
    intros [|i] d H; cbn [nth_error] in *.
    + injection H as <-. exists info0. split; [reflexivity|exact P0].
    + exact (Hnth i d H).
Qed.

(** X24. The sing-box decoder summarises every outbound: for a
    configuration that is a JSON object without [inbounds] whose
    [outbounds] is a list of objects, the result stores the configuration,
    has no [error] entry, and lists one summary per outbound, in order,
    with the [type] and [tag] of the outbound ([None] when absent), its
    [server] when it has one, and its [server_port] under [port]. *)
Theorem singbox_summarises_every_outbound :
  forall (json_loads : string -> exc value) (self : parser) (data : string)
         (o : pydict) (items : list value),
    json_loads data = Ok (VDict o) ->
    Dict.get "outbounds" o = Some (VList items) ->
    (forall x, In x items -> exists d, x = VDict d) ->
    Dict.has "inbounds" o = false ->
    let r := _parse_singbox json_loads self data in
    Dict.get "error" r = None
    /\ Dict.get "config" r = Some (VDict o)
    /\ exists infos,
         Dict.get "outbounds" r = Some (VList infos)
         /\ List.length infos = List.length items
         /\ forall i d,
              nth_error items i = Some (VDict d) ->
              exists info,
                nth_error infos i = Some (VDict info)
                /\ Dict.get "type" info = Some (get_default "type" d VNone)
                /\ Dict.get "tag" info = Some (get_default "tag" d VNone)
                /\ Dict.get "server" info = Dict.get "server" d
                /\ Dict.get "port" info = Dict.get "server_port" d.
Proof.
  intros json_loads self data o items Hj Hout Hall Hin r. subst r.
  destruct (outbound_loop_objects items [] Hall) as (infos & E & Hlen & Hnth).
  unfold _parse_singbox, singbox_body. rewrite Hj.
  assert (Hhas : Dict.has "outbounds" o = true)
    by (unfold Dict.has; now rewrite Hout).
  cbn [py_in json_item bind iter_value]. rewrite Hhas, Hout.
  cbn [bind iter_value]. rewrite E, Hin. cbn [app].
  split; [reflexivity|]. split; [reflexivity|].
  exists infos. split; [reflexivity|]. split; [exact Hlen|exact Hnth].
Qed.

(** The theorem at a configuration with one outbound. *)
Lemma singbox_summary_witness :
  let outbound := [("type", VStr "vless"); ("tag", VStr "proxy");
                   ("server", VStr "vpn.example.org"); ("server_port", VInt 443)] in
  let json := fun _ : string =>
                Ok (VDict [("outbounds", VList [VDict outbound])]) in
  let r := _parse_singbox json (init None) "{}" in
  Dict.get "error" r = None
  /\ exists infos, Dict.get "outbounds" r = Some (VList infos)
                   /\ List.length infos = 1%nat.
Proof.
  intros outbound json r.
  destruct (singbox_summarises_every_outbound json (init None) "{}"
              [("outbounds", VList [VDict outbound])] [VDict outbound]
              eq_refl eq_refl) as (H1 & _ & infos & H3 & H4 & _).
  - intros x [<-|[]]. now exists outbound.
  - reflexivity.
  - split; [exact H1|]. exists infos. split; [exact H3|exact H4].
Defined.

(** *** What [parse] keeps of the decoder's result *)

Lemma in_keys_set (x k : string) (v : value) (d : pydict) :
  In x (map fst (Dict.set k v d)) -> x = k \/ In x (map fst d).
Proof.
  induction d as [|[k' v'] d IH]; cbn.
  - intros [<-|[]]. now left.
  - destruct (String.eqb k' k) eqn:E; cbn.
    + apply String.eqb_eq in E. subst k'. intros [<-|H]; [now left|right; now right].
    + intros [<-|H]; [right; now left|].
      destruct (IH H) as [->|H']; [now left|right; now right].
Qed.

Lemma unique_set (k : string) (v : value) (d : pydict) :
  unique_keys d -> unique_keys (Dict.set k v d).
Proof.
  unfold unique_keys. induction d as [|[k' v'] d IH]; cbn; intros H.
  - constructor; [intros []|constructor].
  - inversion H as [|? ? Hnot Hd]; subst.
    destruct (String.eqb k' k) eqn:E; cbn.
    + apply String.eqb_eq in E. subst k'. now constructor.
    + constructor; [|now apply IH].
      intros Hin. destruct (in_keys_set _ _ _ _ Hin) as [->|Hin'];
        [now rewrite String.eqb_refl in E|contradiction].
Qed.

Lemma eunique_bind {A} (m : exc A) (f : A -> exc pydict) :
  (forall a, m = Ok a -> eunique (f a)) -> eunique (bind m f).
Proof. destruct m as [a|e]; cbn; [auto|exact (fun _ => I)]. Qed.

Lemma eunique_inv (m : exc pydict) (d : pydict) :
  eunique m -> m = Ok d -> unique_keys d.
Proof. intros H ->. exact H. Qed.

Lemma unique_try (body : exc pydict) (handler : string -> pydict) :
  eunique body -> (forall e, unique_keys (handler e)) ->
  unique_keys (try_except body handler).
Proof. destruct body as [d|e]; cbn; auto. Qed.

Lemma eunique_list_append (k : string) (v : value) (d : pydict) :
  unique_keys d -> eunique (list_append k v d).
Proof.
  intros H. unfold list_append.
  destruct (Dict.get k d) as [[| | | | |l| |]|]; try exact I.
  now apply unique_set.
Qed.

Lemma eunique_sub_set (k k2 : string) (v : value) (d : pydict) :
  unique_keys d -> eunique (sub_set k k2 v d).
Proof.
  intros H. unfold sub_set.
  destruct (Dict.get k d) as [[| | | | | |e|]|]; try exact I.
  now apply unique_set.
Qed.

Ltac unique_literal :=
  unfold unique_keys; cbn [map fst];
  repeat (constructor; [cbn; intuition discriminate|]); constructor.

Ltac unique_step :=
  match goal with
  | |- unique_keys _ => assumption
  | |- eunique (list_append _ _ _) => apply eunique_list_append
  | |- eunique (sub_set _ _ _ _) => apply eunique_sub_set
  | |- eunique (bind _ _) => apply eunique_bind; intros ? ?
  | |- eunique (Ok _) => change (unique_keys ?d) || cbn [eunique]
  | |- eunique (Raise _) => exact I
  | |- unique_keys (try_except _ _) => apply unique_try; [|intros ?]
  | |- unique_keys (Dict.set _ _ _) => apply unique_set
  | |- unique_keys (set_opt _ _ _) => unfold set_opt
  | |- eunique (if ?c then _ else _) => destruct c
  | |- unique_keys (if ?c then _ else _) => destruct c
  | |- eunique (match ?x with _ => _ end) => destruct x
  | |- unique_keys (match ?x with _ => _ end) => destruct x
  | |- unique_keys (_ :: _) => unique_literal
  | |- unique_keys [] => constructor
  | H : ?m = Ok ?a |- unique_keys ?a => refine (eunique_inv m a _ H)
  | |- eunique _ => progress cbv zeta
  | |- unique_keys _ => progress cbv zeta
  end.

Ltac unique_auto := repeat unique_step.

Section Unique.
Variable json_loads : string -> exc value.
Variable json_loads_wide : text -> exc value.
Variable unquote : string -> string.
Variable parse_qs : string -> list (string * list string).
Variable urlparse : string -> exc url.
Variable re_findall : string -> string -> list string.
Variable repr_list : list string -> string.

Lemma unique_wireguard_url self u :
  eunique (_parse_wireguard_url parse_qs self u).
Proof. unfold _parse_wireguard_url. unique_auto. Qed.

Lemma unique_wireguard self data : eunique (_parse_wireguard parse_qs self data).
Proof. unfold _parse_wireguard. unique_auto. apply unique_wireguard_url. Qed.

Lemma unique_amneziawg self data : eunique (_parse_amneziawg parse_qs self data).
Proof. unfold _parse_amneziawg. unique_auto; apply unique_wireguard. Qed.

Lemma unique_vless self u : eunique (_parse_vless_url parse_qs urlparse self u).
Proof. unfold _parse_vless_url. unique_auto. Qed.

Lemma unique_trojan_url self u :
  eunique (_parse_trojan_url parse_qs urlparse self u).
Proof. unfold _parse_trojan_url. unique_auto. Qed.

Lemma unique_vmess self u : unique_keys (_parse_vmess_url json_loads json_loads_wide self u).
Proof. unfold _parse_vmess_url. unique_auto. Qed.

Lemma unique_xray_json self config : eunique (_parse_xray_json self config).
Proof. unfold _parse_xray_json. unique_auto. Qed.

Lemma unique_xray self data :
  eunique (_parse_xray json_loads json_loads_wide parse_qs urlparse self data).
Proof.
  unfold _parse_xray.
  destruct (startswith "{" (strip data)).
  - destruct (json_loads data) as [cfg|e]; cbn [bind try_except].
    + pose proof (unique_xray_json self cfg) as H.
      destruct (_parse_xray_json self cfg) as [r|e]; cbn [bind try_except].
      * exact H.
      * unique_auto; first [apply unique_vless|apply unique_vmess|apply unique_trojan_url].
    + unique_auto; first [apply unique_vless|apply unique_vmess|apply unique_trojan_url].
  - unique_auto; first [apply unique_vless|apply unique_vmess|apply unique_trojan_url].
Qed.

Lemma unique_shadowsocks self data :
  eunique (_parse_shadowsocks unquote parse_qs self data).
Proof. unfold _parse_shadowsocks. unique_auto. Qed.

Lemma unique_trojan self data :
  eunique (_parse_trojan json_loads parse_qs urlparse self data).
Proof. unfold _parse_trojan. unique_auto. apply unique_trojan_url. Qed.

Lemma unique_hysteria2 self data :
  eunique (_parse_hysteria2 json_loads parse_qs self data).
Proof. unfold _parse_hysteria2. unique_auto. Qed.

Lemma unique_tor self data : eunique (_parse_tor self data).
Proof. unfold _parse_tor. unique_auto. Qed.

Lemma unique_ovpn_directive parts result :
  unique_keys result -> eunique (ovpn_directive parts result).
Proof. intros H. unfold ovpn_directive. unique_auto. Qed.

Lemma unique_ovpn_line st line st' :
  ovpn_line st line = Ok st' ->
  unique_keys (ovpn_result st) -> unique_keys (ovpn_result st').
Proof.
  unfold ovpn_line. intros H L.
  destruct (String.eqb (strip line) "" || startswith "#" (strip line));
    [now injection H as <-|].
  destruct (startswith "<" (strip line) && endswith ">" (strip line));
    [now injection H as <-|].
  destruct (startswith "</" (strip line) && endswith ">" (strip line)).
  { destruct (current_inline st) as [[|c r]|]; try (now injection H as <-).
    apply bind_ok_inv in H. destruct H as (res & Hres & [= <-]). cbn.
    refine (eunique_inv _ _ _ Hres). unique_auto. }
  destruct (inline_open st); [now injection H as <-|].
  apply bind_ok_inv in H. destruct H as (res & Hres & [= <-]). cbn.
  exact (eunique_inv _ _ (unique_ovpn_directive _ _ L) Hres).
Qed.

Lemma unique_ovpn_loop lines :
  forall st st',
    ovpn_loop lines st = Ok st' ->
    unique_keys (ovpn_result st) -> unique_keys (ovpn_result st').
Proof.
  induction lines as [|l lines IH]; intros st st' H L; cbn in H.
  - now injection H as <-.
  - apply bind_ok_inv in H. destruct H as (st1 & H1 & H2).
    exact (IH _ _ H2 (unique_ovpn_line _ _ _ H1 L)).
Qed.

Lemma unique_openvpn self data : eunique (_parse_openvpn self data).
Proof.
  unfold _parse_openvpn. apply eunique_bind. intros st Hst.
  apply (unique_ovpn_loop _ _ _ Hst). unique_literal.
Qed.

Lemma unique_singbox_body result data :
  unique_keys result ->
  unique_keys (fst (singbox_body json_loads result data)).
Proof.
  intros H. unfold singbox_body.
  destruct (json_loads data) as [cfg|e]; [|exact H].
  destruct (py_in "outbounds" cfg) as [has_out|e]; [|cbn; unique_auto].
  destruct has_out.
  - destruct (ob <- json_item "outbounds" cfg ;; iter_value ob) as [items|e];
      [|cbn; unique_auto].
    destruct (outbound_loop items []) as [acc [e|]]; [cbn; unique_auto|].
    destruct (py_in "inbounds" cfg) as [[|]|e]; try (cbn; unique_auto).
    destruct (ib <- json_item "inbounds" cfg ;; json_len ib) as [n|e];
      cbn; unique_auto.
  - destruct (py_in "inbounds" cfg) as [[|]|e]; try (cbn; unique_auto).
    destruct (ib <- json_item "inbounds" cfg ;; json_len ib) as [n|e];
      cbn; unique_auto.
Qed.

Lemma unique_singbox self data : unique_keys (_parse_singbox json_loads self data).
Proof.
  unfold _parse_singbox.
  match goal with
  | |- context [singbox_body json_loads ?r data] =>
      assert (H : unique_keys (fst (singbox_body json_loads r data)))
        by (apply unique_singbox_body; unique_literal);
      destruct (singbox_body json_loads r data) as [res [e|]]
  end; cbn [fst] in H; unique_auto.
Qed.

Lemma unique_decode self protocol data :
  eunique (decode json_loads json_loads_wide unquote parse_qs urlparse re_findall repr_list
             self protocol data).
Proof.
  unfold decode.
  repeat match goal with
         | |- eunique (if ?c then _ else _) => destruct c
         end;
    first [ apply unique_wireguard | apply unique_amneziawg | apply unique_openvpn
          | apply unique_xray | apply unique_shadowsocks | apply unique_trojan
          | apply unique_hysteria2 | apply unique_tor
          | apply unique_singbox
          | unfold _parse_dpi_bypass; unique_literal
          | unfold _parse_generic; unique_literal ].
Qed.

End Unique.

Lemma update_get (k : string) (e : pydict) :
  unique_keys e ->
  forall d,
    Dict.get k (Dict.update d e)
    = match Dict.get k e with
      | Some v => Some v
      | None => Dict.get k d
      end.
Proof.
  unfold unique_keys, Dict.update.
  induction e as [|[k1 v1] e IH]; intros H d; cbn; [reflexivity|].
  inversion H as [|? ? Hnot He]; subst.
  rewrite (IH He). destruct (String.eqb_spec k1 k) as [->|Hne].
  - assert (Hk : Dict.get k e = None).
    { clear -Hnot. induction e as [|[k2 v2] e IH]; cbn; [reflexivity|].
      destruct (String.eqb_spec k2 k) as [->|Hne]; [exfalso; apply Hnot; now left|].
      apply IH. intros Hin. apply Hnot. now right. }
    rewrite Hk. apply get_set_same.
  - destruct (Dict.get k e); [reflexivity|now apply get_set_other].
Qed.

(** X25. [parse] hands on what the decoder found: whenever the decoder
    selected for the protocol (the detected one for "auto" or an empty
    name) returns, and the tuning hints for the protocol can be computed,
    every entry of the decoder's result other than [parsed],
    [kvm_specific] and [warnings] is an entry of the result of [parse],
    unchanged. In particular the decoder's [type] is reported, and its
    [kvm_optimizations] replace the general ones that [parse] starts
    with. *)
Theorem parse_keeps_decoder_entries :
  forall (json_loads : string -> exc value)
         (json_loads_wide : text -> exc value) (unquote : string -> string)
         (parse_qs : string -> list (string * list string))
         (urlparse : string -> exc url)
         (re_findall : string -> string -> list string)
         (repr_list : list string -> string)
         (self : parser) (timestamp protocol data : string)
         (parsed : pydict) (hints : value) (k : string) (v : value),
    let selected :=
      if String.eqb protocol "auto" || String.eqb protocol ""
      then _detect_protocol json_loads self data else protocol in
    decode json_loads json_loads_wide unquote parse_qs urlparse re_findall
      repr_list self selected data = Ok parsed ->
    _get_protocol_kvm_optimizations self selected parsed = Ok hints ->
    Dict.get k parsed = Some v ->
    k <> "parsed" -> k <> "kvm_specific" -> k <> "warnings" ->
    field k (parse json_loads json_loads_wide unquote parse_qs urlparse
               re_findall repr_list self timestamp protocol data) = Some v.
Proof.
  intros json_loads json_loads_wide unquote parse_qs urlparse re_findall
         repr_list self timestamp protocol data parsed hints k v selected
         Hdec Hhints Hk N1 N2 N3.
  assert (Huniq : unique_keys parsed).
  { exact (eunique_inv _ _ (unique_decode json_loads json_loads_wide unquote parse_qs urlparse
                              re_findall repr_list self selected data) Hdec). }
  assert (Herr : k <> "errors").
  { intros ->.
    pose proof (keys_decode json_loads json_loads_wide unquote parse_qs urlparse re_findall
                  repr_list self selected data) as Hl.
    rewrite Hdec in Hl. unfold elacks, field in Hl. rewrite Hl in Hk.
    discriminate. }
  assert (Hfinish : forall proto result,
    decode json_loads json_loads_wide unquote parse_qs urlparse re_findall repr_list
      self proto data = Ok parsed ->
    _get_protocol_kvm_optimizations self proto parsed = Ok hints ->
    Dict.get "errors" result = Some (VList []) ->
    field k
      match parse_body json_loads json_loads_wide unquote parse_qs urlparse re_findall repr_list
              self proto data result with
      | (result, None) => Ok result
      | (result, Some e) =>
          result <- list_append "errors" (VStr e) result ;;
          Ok (Dict.set "parsed" (VBool false) result)
      end = Some v).
  { intros proto result Hd Hh He.
    pose proof (parse_body_spec json_loads json_loads_wide unquote parse_qs urlparse re_findall
                  repr_list self proto data result He) as Hspec.
    cbv zeta in Hspec. destruct Hspec as [Herrs _].
    assert (Hres : Dict.get k
                     (fst (parse_body json_loads json_loads_wide unquote parse_qs urlparse
                             re_findall repr_list self proto data result))
                   = Some v).
    { unfold parse_body. rewrite Hd, Hh.
      rewrite validate_keeps by congruence.
      rewrite !get_set_other by congruence.
      now rewrite (update_get k parsed Huniq), Hk. }
    destruct (parse_body _ _ _ _ _ _ _ self proto data result) as [res [e|]];
      cbn [fst] in *; [|exact Hres].
    unfold list_append. rewrite Herrs. cbn [bind field].
    now rewrite !get_set_other by congruence. }
  subst selected. unfold parse.
  destruct (String.eqb protocol "auto" || String.eqb protocol "").
  - destruct (one_of (_detect_protocol json_loads self data)
                (supported_protocols self)); cbn [bind list_append];
      apply Hfinish; first [assumption|reflexivity].
  - destruct (one_of protocol (supported_protocols self)); cbn [bind];
      apply Hfinish; first [assumption|reflexivity].
Qed.

(** The theorem at a Tor configuration: the hints of the Tor decoder
    replace the general ones. *)
Lemma parse_keeps_decoder_entries_witness :
  field "kvm_optimizations"
    (parse (fun _ => Raise "not JSON") (fun _ => Raise "not JSON")
            (fun s => s) (fun _ => [])
       (fun _ => Raise "no URL") (fun _ _ => []) (fun _ => "[]")
       (init None) "2024-01-01T00:00:00" "tor" torrc_with_socks_port)
  = Some (VDict [("num_cpus", VInt 2); ("max_mem", VInt 512)]).
Proof.
  eapply (parse_keeps_decoder_entries
            (fun _ => Raise "not JSON") (fun _ => Raise "not JSON")
            (fun s => s) (fun _ => [])
            (fun _ => Raise "no URL") (fun _ _ => []) (fun _ => "[]")
            (init None) "2024-01-01T00:00:00" "tor" torrc_with_socks_port);
    try discriminate; vm_compute; reflexivity.
Defined.

End ParserFacts.
